(** * me-pdf: local font directory, overlay compositor and export handler

    A shallow embedding of
    - [packages/plugin-font/src/lib/local-font-access.ts]
      ([queryLocalFonts], [loadFontData], [detectFontType], [parseFontStyle]),
    - [packages/plugin-font/src/lib/font-plugin.ts] ([FontPlugin.loadFont])
      with the reducer of [packages/plugin-font/src/lib/index.ts],
    - [examples/nextjs-tailwind-shadcn/src/utils/pdf-export.ts]
      ([exportPdfWithCustomAnnotations], [isCustomRenderAnnotation]),
    - [examples/*/src/components/export-button.tsx] ([handleExport]).

    Conventions.  A JavaScript string is a [string]: the sequence of the
    bytes of its UTF-8 encoding, so that ASCII text is one character per
    code unit.  [toLowerCase]/[toUpperCase] map the ASCII letters and leave
    every other byte alone.  A promise is the value it settles with:
    [Ok v] when it resolves, [Throw e] when it rejects.  Numbers that the
    code uses as page coordinates are rationals ([Q]): the value a double
    computation has when none of its steps rounds.  A statement about the
    value of a computed coordinate says for which inputs that is so
    ([is_double]). *)

From Stdlib Require Import ZArith NArith QArith Qround List Bool Lia.
From Stdlib.Strings Require Import String Ascii Byte.
From Stdlib Require Import DecimalString DecimalN.
From stdpp Require Import gmap strings list.

Local Open Scope string_scope.
Local Open Scope Z_scope.

(* ===================================================================== *)
(** ** JavaScript strings                                                 *)
(* ===================================================================== *)

Definition is_upper_ascii (c : ascii) : bool :=
  let n := N_of_ascii c in (65 <=? n)%N && (n <=? 90)%N.

Definition is_lower_ascii (c : ascii) : bool :=
  let n := N_of_ascii c in (97 <=? n)%N && (n <=? 122)%N.

Definition lower_ascii (c : ascii) : ascii :=
  if is_upper_ascii c then ascii_of_N (N_of_ascii c + 32) else c.

Definition upper_ascii (c : ascii) : ascii :=
  if is_lower_ascii c then ascii_of_N (N_of_ascii c - 32) else c.

Fixpoint map_string (f : ascii -> ascii) (s : string) : string :=
  match s with
  | EmptyString => EmptyString
  | String c s' => String (f c) (map_string f s')
  end.

(** [s.toLowerCase()] and [s.toUpperCase()]. *)
Definition toLowerCase (s : string) : string := map_string lower_ascii s.
Definition toUpperCase (s : string) : string := map_string upper_ascii s.

(** [s.startsWith(sub)]. *)
Fixpoint startsWith (s sub : string) : bool :=
  match sub, s with
  | EmptyString, _ => true
  | String _ _, EmptyString => false
  | String a sub', String b s' => Ascii.eqb a b && startsWith s' sub'
  end.

(** [s.includes(sub)]: [sub] occurs in [s] at some offset. *)
Fixpoint includes (s sub : string) : bool :=
  startsWith s sub ||
  match s with
  | EmptyString => false
  | String _ s' => includes s' sub
  end.

(* ===================================================================== *)
(** ** Font metadata inference ([parseFontStyle])                         *)
(* ===================================================================== *)

Record FontStyle := mkFontStyle { fs_weight : Z; fs_italic : bool }.

Definition parseFontStyle (style fullName : string) : FontStyle :=
  let s := toLowerCase (style +:+ " " +:+ fullName) in
  let weight :=
    if includes s "thin" || includes s "hairline" then 100
    else if includes s "extra light" || includes s "extralight"
            || includes s "ultra light" then 200
    else if includes s "light" then 300
    else if includes s "semi bold" || includes s "semibold"
            || includes s "demi bold" then 600
    else if includes s "extra bold" || includes s "extrabold"
            || includes s "ultra bold" then 800
    else if includes s "bold" then 700
    else if includes s "black" || includes s "heavy" then 900
    else if includes s "medium" then 500
    else 400 in
  let italic :=
    if includes s "italic" || includes s "oblique" then true else false in
  {| fs_weight := weight; fs_italic := italic |}.

(** The same inference in the free-text renderer of the annotation plugin
    ([getFontStyles], custom-font branch); its weight is a CSS string. *)
Definition getFontStyles_custom_weight (style fullName : string) : string :=
  let styleStr := toLowerCase (style +:+ " " +:+ fullName) in
  if includes styleStr "thin" || includes styleStr "hairline" then "100"
  else if includes styleStr "extra light" || includes styleStr "extralight"
          || includes styleStr "ultra light" then "200"
  else if includes styleStr "light" then "300"
  else if includes styleStr "semi bold" || includes styleStr "semibold"
          || includes styleStr "demi" then "600"
  else if includes styleStr "extra bold" || includes styleStr "extrabold"
          || includes styleStr "ultra bold" then "800"
  else if includes styleStr "bold" then "bold"
  else if includes styleStr "black" || includes styleStr "heavy" then "900"
  else if includes styleStr "medium" then "500"
  else "normal".

(** The ordered table of the prose description: each row lists the
    substrings of one check and the weight it assigns. *)
Definition weight_table : list (list string * Z) :=
  [ (["thin"; "hairline"], 100);
    (["extra light"; "extralight"; "ultra light"], 200);
    (["light"], 300);
    (["semi bold"; "semibold"; "demi bold"], 600);
    (["extra bold"; "extrabold"; "ultra bold"], 800);
    (["bold"], 700);
    (["black"; "heavy"], 900);
    (["medium"], 500) ].

(** First row one of whose substrings occurs in [s]; [dflt] when none. *)
Fixpoint first_match (table : list (list string * Z)) (s : string) (dflt : Z) : Z :=
  match table with
  | [] => dflt
  | (subs, w) :: rest =>
      if existsb (includes s) subs then w else first_match rest s dflt
  end.

(* ===================================================================== *)
(** ** Font format detection ([detectFontType])                           *)
(* ===================================================================== *)

(** [enum FontType { Type1 = 1, TrueType = 2 }]. *)
Inductive FontType := Type1 | TrueType.

Definition FontType_value (t : FontType) : Z :=
  match t with Type1 => 1 | TrueType => 2 end.

(** [data[i]] on a [Uint8Array], for an index inside the buffer. *)
Definition u8_at (data : list byte) (i : nat) : Z :=
  Z.of_N (Byte.to_N (nth i data x00)).

(** ToInt32: the result of the bitwise operators is a signed 32-bit integer. *)
Definition to_int32 (z : Z) : Z :=
  let m := z mod 2 ^ 32 in if m <? 2 ^ 31 then m else m - 2 ^ 32.

Definition detectFontType (data : list byte) : FontType :=
  if (length data <? 4)%nat then TrueType
  else
    let signature :=
      to_int32 (Z.lor (Z.lor (Z.lor (to_int32 (Z.shiftl (u8_at data 0) 24))
                                    (Z.shiftl (u8_at data 1) 16))
                             (Z.shiftl (u8_at data 2) 8))
                      (u8_at data 3)) in
    if (u8_at data 0 =? 37) && (u8_at data 1 =? 33) then Type1
    else TrueType.

(** The signature of the prose description: the buffer starts with the two
    bytes 0x25 0x21. *)
Definition starts_with_percent_bang (data : list byte) : bool :=
  match data with
  | x25 :: x21 :: _ => true
  | _ => false
  end.

(* ===================================================================== *)
(** ** Promises and errors                                                *)
(* ===================================================================== *)

(** The values the code throws: [new Error(message)], a platform
    [DOMException] with its [name], and the [TypeError] of a call through a
    missing property. *)
Inductive JsError :=
| Error (message : string)
| DOMException (name message : string)
| TypeError (message : string).

(** A settled promise (or a call that may throw). *)
Inductive result (A : Type) :=
| Ok (a : A)
| Throw (e : JsError).
Arguments Ok {A} a.
Arguments Throw {A} e.

Definition error_message (e : JsError) : string :=
  match e with
  | Error m => m
  | DOMException _ m => m
  | TypeError m => m
  end.

(* ===================================================================== *)
(** ** The platform font API and the font directory                       *)
(* ===================================================================== *)

(** [interface FontData]; [fd_blob] is what [blob()] followed by
    [arrayBuffer()] settles with. *)
Record FontData := mkFontData {
  fd_family : string;
  fd_fullName : string;
  fd_postscriptName : string;
  fd_style : string;
  fd_blob : result (list byte)
}.

(** [window]: the property [queryLocalFonts] is absent ([None]) or settles
    with the installed fonts, or rejects. *)
Record Window := mkWindow {
  w_queryLocalFonts : option (result (list FontData))
}.

Record LocalFont := mkLocalFont {
  lf_family : string;
  lf_fullName : string;
  lf_postscriptName : string;
  lf_style : string;
  lf_weight : Z;
  lf_italic : bool
}.

Record LoadedFont := mkLoadedFont {
  ld_family : string;
  ld_fullName : string;
  ld_postscriptName : string;
  ld_style : string;
  ld_data : list byte;
  ld_fontType : FontType
}.

Definition isLocalFontAccessSupported (w : Window) : bool :=
  match w_queryLocalFonts w with Some _ => true | None => false end.

(** Decimal rendering of a counter inside a template literal. *)
Definition number_to_string (n : N) : string :=
  NilZero.string_of_uint (N.to_uint n).

(** Decimal rendering of an integer inside a template literal: a minus sign
    in front of the digits of a negative one. *)
Definition integer_to_string (z : Z) : string :=
  if z <? 0 then "-" +:+ number_to_string (Z.to_N (- z))
  else number_to_string (Z.to_N z).

(** The body of the [fonts.map] callback of [queryLocalFonts]; [seenNames]
    is the [Map] the callback closes over. *)
Definition expose_font (seenNames : gmap string N) (font : FontData)
  : gmap string N * LocalFont :=
  let psName := fd_postscriptName font in
  let '(seenNames, psName) :=
    match seenNames !! psName with
    | Some c =>
        let count := (c + 1)%N in
        (<[psName := count]> seenNames, psName +:+ "#" +:+ number_to_string count)
    | None => (<[psName := 0%N]> seenNames, psName)
    end in
  let ws := parseFontStyle (fd_style font) (fd_fullName font) in
  let upperName := toUpperCase (fd_fullName font) in
  let specialFamily :=
    if includes upperName "IT9" || includes upperName "IT๙" then
      fd_family font +:+ " (IT9)"
    else if negb (String.eqb psName (fd_postscriptName font)) then
      fd_family font +:+ " (Variant " +:+
        match seenNames !! fd_postscriptName font with
        | Some c => number_to_string c
        | None => "undefined"
        end +:+ ")"
    else fd_family font in
  (seenNames,
   {| lf_family := specialFamily;
      lf_fullName := fd_fullName font;
      lf_postscriptName := psName;
      lf_style := fd_style font;
      lf_weight := fs_weight ws;
      lf_italic := fs_italic ws |}).

(** [fonts.map(callback)], threading [seenNames] through the calls. *)
Fixpoint expose_fonts (seenNames : gmap string N) (fonts : list FontData)
  : list LocalFont :=
  match fonts with
  | [] => []
  | font :: rest =>
      let '(seenNames', lf) := expose_font seenNames font in
      lf :: expose_fonts seenNames' rest
  end.

Definition queryLocalFonts (w : Window) : result (list LocalFont) :=
  if negb (isLocalFontAccessSupported w) then
    Throw (Error "Local Font Access API is not supported in this browser")
  else
    match w_queryLocalFonts w with
    | Some (Ok fonts) => Ok (expose_fonts ∅ fonts)
    | Some (Throw (DOMException "NotAllowedError" _)) =>
        Throw (Error "Font access was denied by the user")
    | Some (Throw e) => Throw e
    | None => Throw (TypeError "window.queryLocalFonts is not a function")
    end.

(** *** The pattern [/^(.+)#(\d+)$/] *)

Definition is_digit (c : ascii) : bool :=
  let n := N_of_ascii c in (48 <=? n)%N && (n <=? 57)%N.

Fixpoint all_digits (s : string) : bool :=
  match s with
  | EmptyString => true
  | String c s' => is_digit c && all_digits s'
  end.

(** [.] matches any character but a line terminator: LF, CR, U+2028 and
    U+2029 (the last two by their UTF-8 bytes). *)
Definition has_line_terminator (s : string) : bool :=
  includes s (String (ascii_of_N 10) "")
  || includes s (String (ascii_of_N 13) "")
  || includes s (String (ascii_of_N 226) (String (ascii_of_N 128) (String (ascii_of_N 168) "")))
  || includes s (String (ascii_of_N 226) (String (ascii_of_N 128) (String (ascii_of_N 169) ""))).

(** [(.+)]: at least one character, none a line terminator. *)
Definition dot_plus (s : string) : bool :=
  negb (String.eqb s "") && negb (has_line_terminator s).

(** [#(\d+)$]: a hash, then one digit or more up to the end of the input. *)
Definition hash_digits_end (s : string) : bool :=
  match s with
  | String "#" d => negb (String.eqb d "") && all_digits d
  | _ => false
  end.

(** Every way to cut [s] into a non-empty head and a tail, the longest head
    first: the order in which the greedy [.+] gives characters back. *)
Fixpoint greedy_splits (s : string) : list (string * string) :=
  match s with
  | EmptyString => []
  | String c s' =>
      List.map (fun pr => (String c (fst pr), snd pr)) (greedy_splits s')
      ++ [(String c "", s')]
  end.

(** [s.match(/^(.+)#(\d+)$/)]: the two captured groups. *)
Definition duplicateMatch (s : string) : option (string * string) :=
  match List.find (fun pr => dot_plus (fst pr) && hash_digits_end (snd pr))
                  (greedy_splits s) with
  | Some (p, String _ d) => Some (p, d)
  | _ => None
  end.

(** [parseInt(s, 10)] on unsigned input: the value of the longest prefix of
    decimal digits, [None] (NaN) when there is none.  The value is exact;
    the double of the code agrees with it below 2^53, which is beyond the
    length of any array it can index. *)
Fixpoint parseInt10_digits (s : string) (acc : N) : N :=
  match s with
  | EmptyString => acc
  | String c s' =>
      if is_digit c then parseInt10_digits s' (acc * 10 + (N_of_ascii c - 48))%N
      else acc
  end.

Definition parseInt10 (s : string) : option N :=
  match s with
  | EmptyString => None
  | String c _ => if is_digit c then Some (parseInt10_digits s 0%N) else None
  end.

(** [matches[targetIndex]]: [None] is [undefined]. *)
Definition array_at {A} (l : list A) (i : option N) : option A :=
  match i with
  | Some n => nth_error l (N.to_nat n)
  | None => None
  end.

Definition loadFontData (w : Window) (postscriptName : string)
  : result (option LoadedFont) :=
  if negb (isLocalFontAccessSupported w) then
    Throw (Error "Local Font Access API is not supported in this browser")
  else
    let '(targetPsName, targetIndex) :=
      match duplicateMatch postscriptName with
      | Some (g1, g2) => (g1, parseInt10 g2)
      | None => (postscriptName, Some 0%N)
      end in
    match w_queryLocalFonts w with
    | Some (Ok fonts) =>
        let matches :=
          List.filter (fun f => String.eqb (fd_postscriptName f) targetPsName) fonts in
        match array_at matches targetIndex with
        | None => Ok None
        | Some fontData =>
            match fd_blob fontData with
            | Throw e => Throw e
            | Ok data =>
                Ok (Some {| ld_family := fd_family fontData;
                            ld_fullName := fd_fullName fontData;
                            ld_postscriptName := fd_postscriptName fontData;
                            ld_style := fd_style fontData;
                            ld_data := data;
                            ld_fontType := detectFontType data |})
            end
        end
    | Some (Throw e) => Throw e
    | None => Throw (TypeError "window.queryLocalFonts is not a function")
    end.

(* ===================================================================== *)
(** ** Sequential code with state and exceptions                          *)
(* ===================================================================== *)

(** A block of (awaited) statements: it reads and updates the state [S] and
    completes normally with a value or abruptly with a thrown error. *)
Definition M (S A : Type) : Type := S -> S * result A.

Definition ret {S A} (a : A) : M S A := fun s => (s, Ok a).

Definition bind {S A B} (c : M S A) (k : A -> M S B) : M S B :=
  fun s =>
    match c s with
    | (s', Ok a) => k a s'
    | (s', Throw e) => (s', Throw e)
    end.

Notation "'let!' x ':=' c 'in' k" := (bind c (fun x => k))
  (at level 10, x name, c at level 100, k at level 200).
Notation "'do!' c 'in' k" := (bind c (fun _ => k))
  (at level 10, c at level 100, k at level 200).

(** [throw e]. *)
Definition throw {S A} (e : JsError) : M S A := fun s => (s, Throw e).

(** [await p] for a promise that has settled with [r]. *)
Definition await {S A} (r : result A) : M S A := fun s => (s, r).

(** A statement that only updates the state. *)
Definition modify {S} (f : S -> S) : M S unit := fun s => (f s, Ok tt).

Definition get {S} : M S S := fun s => (s, Ok s).

(** [try { body } catch (error) { handler }]. *)
Definition try_catch {S A} (body : M S A) (handler : JsError -> M S A) : M S A :=
  fun s =>
    match body s with
    | (s', Ok a) => (s', Ok a)
    | (s', Throw e) => handler e s'
    end.

(** [try { body } finally { cleanup }]: the cleanup runs on both exits and
    the completion of the body is kept unless the cleanup throws. *)
Definition try_finally {S A} (body : M S A) (cleanup : M S unit) : M S A :=
  fun s =>
    match body s with
    | (s', r) =>
        match cleanup s' with
        | (s'', Ok _) => (s'', r)
        | (s'', Throw e) => (s'', Throw e)
        end
    end.

(** [for (const x of xs) { body }]. *)
Fixpoint for_of {S A} (xs : list A) (body : A -> M S unit) : M S unit :=
  match xs with
  | [] => ret tt
  | x :: rest => do! body x in for_of rest body
  end.

(* ===================================================================== *)
(** ** The font plugin ([FontPlugin])                                     *)
(* ===================================================================== *)

Record FontState := mkFontState {
  isSupported : bool;
  hasPermission : bool;
  localFonts : list LocalFont;
  loadedFonts : gmap string LoadedFont;
  isLoading : bool
}.

Inductive FontAction :=
| SET_FONTS (fonts : list LocalFont)
| SET_PERMISSION (hasPermission : bool)
| SET_LOADING (isLoading : bool)
| ADD_LOADED_FONT (font : LoadedFont).

Definition reducer (state : FontState) (action : FontAction) : FontState :=
  match action with
  | SET_FONTS fonts =>
      {| isSupported := isSupported state; hasPermission := hasPermission state;
         localFonts := fonts; loadedFonts := loadedFonts state;
         isLoading := isLoading state |}
  | SET_PERMISSION b =>
      {| isSupported := isSupported state; hasPermission := b;
         localFonts := localFonts state; loadedFonts := loadedFonts state;
         isLoading := isLoading state |}
  | SET_LOADING b =>
      {| isSupported := isSupported state; hasPermission := hasPermission state;
         localFonts := localFonts state; loadedFonts := loadedFonts state;
         isLoading := b |}
  | ADD_LOADED_FONT font =>
      {| isSupported := isSupported state; hasPermission := hasPermission state;
         localFonts := localFonts state;
         loadedFonts := <[ld_postscriptName font := font]> (loadedFonts state);
         isLoading := isLoading state |}
  end.

(** What the four emitters of the plugin have delivered ([FontEvents]). *)
Inductive FontEvent :=
| font_access_granted (fonts : list LocalFont)
| font_access_denied (error : JsError)
| font_loaded (font : LoadedFont)
| font_load_error (postscriptName : string) (error : JsError).

Inductive LogLevel := log_debug | log_info | log_warn | log_error.

Record LogEntry := mkLogEntry {
  log_level : LogLevel;
  log_source : string;
  log_category : string;
  log_message : string
}.

(** The plugin instance: its store state, the events emitted so far and the
    lines written to its logger (both oldest first). *)
Record FontPlugin := mkFontPlugin {
  state : FontState;
  emitted : list FontEvent;
  logged : list LogEntry
}.

Definition dispatch (action : FontAction) : M FontPlugin unit :=
  modify (fun p => {| state := reducer (state p) action;
                      emitted := emitted p; logged := logged p |}).

Definition emit (ev : FontEvent) : M FontPlugin unit :=
  modify (fun p => {| state := state p;
                      emitted := emitted p ++ [ev]; logged := logged p |}).

Definition logger (level : LogLevel) (source category message : string)
  : M FontPlugin unit :=
  modify (fun p => {| state := state p; emitted := emitted p;
                      logged := logged p ++ [mkLogEntry level source category message] |}).

Definition requestFontAccess (w : Window) : M FontPlugin (list LocalFont) :=
  if negb (isLocalFontAccessSupported w) then
    let error := Error "Local Font Access API is not supported" in
    do! emit (font_access_denied error) in
    throw error
  else
    do! dispatch (SET_LOADING true) in
    try_finally
      (try_catch
         (let! fonts := await (queryLocalFonts w) in
          do! dispatch (SET_FONTS fonts) in
          do! dispatch (SET_PERMISSION true) in
          do! emit (font_access_granted fonts) in
          do! logger log_info "FontPlugin" "AccessGranted"
                ("Loaded " +:+ number_to_string (N.of_nat (length fonts))
                 +:+ " local fonts") in
          ret fonts)
         (fun error =>
            do! dispatch (SET_PERMISSION false) in
            do! emit (font_access_denied error) in
            do! logger log_error "FontPlugin" "AccessDenied"
                  ("Font access denied: " +:+ error_message error) in
            throw error))
      (dispatch (SET_LOADING false)).

Definition loadFont (w : Window) (postscriptName : string)
  : M FontPlugin (option LoadedFont) :=
  let! p := get in
  match loadedFonts (state p) !! postscriptName with
  | Some existing => ret (Some existing)
  | None =>
      try_catch
        (let! font := await (loadFontData w postscriptName) in
         match font with
         | Some f =>
             do! dispatch (ADD_LOADED_FONT f) in
             do! emit (font_loaded f) in
             do! logger log_debug "FontPlugin" "FontLoaded"
                   ("Loaded font: " +:+ ld_fullName f) in
             ret font
         | None => ret font
         end)
        (fun error =>
           do! emit (font_load_error postscriptName error) in
           do! logger log_error "FontPlugin" "FontLoadError"
                 ("Failed to load font " +:+ postscriptName +:+ ": "
                  +:+ error_message error) in
           ret None)
  end.

(* ===================================================================== *)
(** ** Annotation records                                                 *)
(* ===================================================================== *)

Record Position := mkPosition { pos_x : Q; pos_y : Q }.
Record Size := mkSize { size_width : Q; size_height : Q }.
Record Rect := mkRect { rect_origin : Position; rect_size : Size }.

(** [PdfAnnotationSubtype]: the four subtypes the exporter looks at and the
    others it passes over. *)
Inductive PdfAnnotationSubtype :=
| FREETEXT | UNDERLINE | STRIKEOUT | SQUIGGLY
| HIGHLIGHT | STAMP | INK | SQUARE | CIRCLE | LINE | TEXT.

Definition subtype_eqb (a b : PdfAnnotationSubtype) : bool :=
  match a, b with
  | FREETEXT, FREETEXT | UNDERLINE, UNDERLINE | STRIKEOUT, STRIKEOUT
  | SQUIGGLY, SQUIGGLY | HIGHLIGHT, HIGHLIGHT | STAMP, STAMP | INK, INK
  | SQUARE, SQUARE | CIRCLE, CIRCLE | LINE, LINE | TEXT, TEXT => true
  | _, _ => false
  end.

(** Modelled from the spec: the font reference of [@embedpdf/models], whose
    declaration and predicates [isStandardFontRef] / [isCustomFontRef] are
    not among the sources: a tagged union of a standard font id and a
    custom font with its postscript name and display metadata. *)
Inductive PdfFontRef :=
| StandardFontRef (font : N)
| CustomFontRef (postscriptName fullName family style : string).

Definition isStandardFontRef (r : PdfFontRef) : bool :=
  match r with StandardFontRef _ => true | CustomFontRef _ _ _ _ => false end.

Definition isCustomFontRef (r : PdfFontRef) : bool :=
  match r with StandardFontRef _ => false | CustomFontRef _ _ _ _ => true end.

(** [PdfAnnotationObject]: the fields the exporter reads.  An optional
    property is an [option]; [fontFamily] is present on free-text records,
    and a free-text record without one is passed over like one with a
    standard font. *)
Record PdfAnnotationObject := mkAnno {
  anno_id : string;
  anno_type : PdfAnnotationSubtype;
  pageIndex : Z;
  rect : Rect;
  fontFamily : option PdfFontRef;
  fontColor : option string;
  fontSize : Q;
  contents : option string;
  backgroundColor : option string;
  opacity : option Q;
  color : option string;
  strokeWidth : option Q;
  segmentRects : option (list Rect)
}.

Definition isFreeTextAnnotation (anno : PdfAnnotationObject) : bool :=
  subtype_eqb (anno_type anno) FREETEXT.
Definition isUnderlineAnnotation (anno : PdfAnnotationObject) : bool :=
  subtype_eqb (anno_type anno) UNDERLINE.
Definition isStrikeOutAnnotation (anno : PdfAnnotationObject) : bool :=
  subtype_eqb (anno_type anno) STRIKEOUT.
Definition isSquigglyAnnotation (anno : PdfAnnotationObject) : bool :=
  subtype_eqb (anno_type anno) SQUIGGLY.

Definition isCustomRenderAnnotation (anno : PdfAnnotationObject) : bool :=
  if isFreeTextAnnotation anno then
    match fontFamily anno with
    | Some fontRef => isCustomFontRef fontRef
    | None => false
    end
  else if isUnderlineAnnotation anno then true
  else if isStrikeOutAnnotation anno then true
  else if isSquigglyAnnotation anno then true
  else false.

Definition getCustomRenderAnnotations (annotations : list PdfAnnotationObject)
  : list PdfAnnotationObject :=
  List.filter isCustomRenderAnnotation annotations.

(* ===================================================================== *)
(** ** Colours ([parseHexColor])                                          *)
(* ===================================================================== *)

Definition hex_digit_value (c : ascii) : option Z :=
  let n := Z.of_N (N_of_ascii c) in
  if (48 <=? n) && (n <=? 57) then Some (n - 48)
  else if (65 <=? n) && (n <=? 70) then Some (n - 55)
  else if (97 <=? n) && (n <=? 102) then Some (n - 87)
  else None.

Fixpoint parseInt16_digits (s : string) (acc : Z) : Z :=
  match s with
  | EmptyString => acc
  | String c s' =>
      match hex_digit_value c with
      | Some d => parseInt16_digits s' (acc * 16 + d)
      | None => acc
      end
  end.

Definition is_js_space (c : ascii) : bool :=
  let n := N_of_ascii c in
  (n =? 32)%N || ((9 <=? n)%N && (n <=? 13)%N).

Fixpoint trim_start (s : string) : string :=
  match s with
  | String c s' => if is_js_space c then trim_start s' else s
  | EmptyString => EmptyString
  end.

Definition strip_0x (s : string) : string :=
  match s with
  | String "0" (String "x" s') => s'
  | String "0" (String "X" s') => s'
  | _ => s
  end.

(** [parseInt(s, 16)]: leading blanks, a sign, an optional [0x], then the
    longest run of hexadecimal digits; [None] is NaN. *)
Definition parseInt16 (s : string) : option Z :=
  let s := trim_start s in
  let '(sign, s) :=
    match s with
    | String "-" s' => (-1, s')
    | String "+" s' => (1, s')
    | _ => (1, s)
    end in
  match strip_0x s with
  | EmptyString => None
  | String c _ as ds =>
      match hex_digit_value c with
      | Some _ => Some (sign * parseInt16_digits ds 0)
      | None => None
      end
  end.

(** [s.replace('#', '')]: the first occurrence only. *)
Fixpoint remove_first_hash (s : string) : string :=
  match s with
  | EmptyString => EmptyString
  | String c s' => if Ascii.eqb c "#" then s' else String c (remove_first_hash s')
  end.

Definition charAt (s : string) (i : nat) : string :=
  String.substring i 1 s.

(** [s.substring(a, b)] for [a <= b]. *)
Definition js_substring (s : string) (a b : nat) : string :=
  String.substring a (b - a) s.

(** A colour component: [None] is NaN. *)
Record Color := mkColor { col_r : option Q; col_g : option Q; col_b : option Q }.

Definition component (s : string) : option Q :=
  match parseInt16 s with
  | Some v => Some (inject_Z v / 255)%Q
  | None => None
  end.

Definition parseHexColor (c : string) : Color :=
  let hex := remove_first_hash c in
  let hex :=
    if (String.length hex =? 3)%nat then
      charAt hex 0 +:+ charAt hex 0 +:+ charAt hex 1 +:+ charAt hex 1
      +:+ charAt hex 2 +:+ charAt hex 2
    else hex in
  {| col_r := component (js_substring hex 0 2);
     col_g := component (js_substring hex 2 4);
     col_b := component (js_substring hex 4 6) |}.

(* ===================================================================== *)
(** ** The overlay compositor ([exportPdfWithCustomAnnotations])          *)
(* ===================================================================== *)

(** The handle [pdfDoc.embedFont] resolves with. *)
Inductive PDFFont := EmbeddedFont (data : list byte).

(** The text [-${a}] of the path template: a minus sign written in front
    of the text of the number [a] ("-2" for 2, "--2" for -2). *)
Inductive SignedText := minus_text (a : Q).

(** One command of the SVG path built for a squiggly segment:
    [M x y], [q dx1 dy1 dx dy] and [t dx dy].  The second argument of [q]
    is written with its minus sign. *)
Inductive PathCmd :=
| path_M (x y : Q)
| path_q (dx1 : Q) (dy1 : SignedText) (dx dy : Q)
| path_t (dx dy : Q).

(** The drawing calls made on a page, with the options passed. *)
Inductive PageCall :=
| drawRectangle (x y width height : Q) (fill : Color) (fill_opacity : Q)
| drawText (line : string) (x y size : Q) (font : PDFFont)
           (fill : Color) (fill_opacity : Q)
| drawSvgPath (d : list PathCmd) (x y : Q) (borderColor : Color)
              (fill : option Color) (borderOpacity borderWidth : Q).

Inductive ConsoleLevel := console_log | console_warn | console_error.

(** What the compositor does to the outside, in order (the [console.log]
    progress line is left out). *)
Inductive LibEvent :=
| ev_embedFont (postscriptName : string) (fontData : list byte)
| ev_draw (page : nat) (call : PageCall)
| ev_console (level : ConsoleLevel) (message : string).

(** The overlay library (pdf-lib), an external collaborator: what loading
    the base bytes gives (the page heights), whether a binary embeds,
    whether a drawing call is accepted, the bytes [save] produces from
    the base document and the calls made on it, and the error [rgb] throws
    for components it refuses. *)
Record PdfLib := mkPdfLib {
  PDFDocument_load : list byte -> result (list Q);
  embedFont : list byte -> result PDFFont;
  page_draw : nat -> PageCall -> result unit;
  save : list byte -> list LibEvent -> result (list byte);
  rgb_error : Color -> JsError
}.

(** A colour component [rgb] accepts: a number (not NaN) from 0 to 1. *)
Definition in_unit_range (v : option Q) : bool :=
  match v with
  | Some q => Qle_bool 0 q && Qle_bool q 1
  | None => false
  end.

(** [rgb(color.r, color.g, color.b)], evaluated in the argument of every
    drawing call before the call is made: the library throws when a
    component is NaN or lies outside 0..1, and gives the colour
    otherwise. *)
Definition rgb (lib : PdfLib) (c : Color) : result Color :=
  if in_unit_range (col_r c) && in_unit_range (col_g c) && in_unit_range (col_b c)
  then Ok c
  else Throw (rgb_error lib c).

(** The local state of one call: the calls made so far (oldest first) and
    the [embeddedFonts] cache. *)
Record CompState := mkCompState {
  events : list LibEvent;
  embeddedFonts : gmap string PDFFont
}.

Definition record (ev : LibEvent) : M CompState unit :=
  modify (fun st => {| events := events st ++ [ev];
                       embeddedFonts := embeddedFonts st |}).

Definition console (level : ConsoleLevel) (message : string) : M CompState unit :=
  record (ev_console level message).

Definition cache_font (name : string) (font : PDFFont) : M CompState unit :=
  modify (fun st => {| events := events st;
                       embeddedFonts := <[name := font]> (embeddedFonts st) |}).

(** A [page.draw...] call whose arguments have been evaluated (the colour
    by [rgb], which the callers run first): the call is made, and the
    library accepts it or throws. *)
Definition draw (lib : PdfLib) (page : nat) (call : PageCall) : M CompState unit :=
  do! record (ev_draw page call) in
  await (page_draw lib page call).

(** [v || 1] on an optional number: [undefined] and [0] give [1]. *)
Definition or_one (v : option Q) : Q :=
  match v with
  | Some q => if Qeq_bool q 0 then 1%Q else q
  | None => 1%Q
  end.

(** [v ?? 1]. *)
Definition nullish_one (v : option Q) : Q :=
  match v with Some q => q | None => 1%Q end.

(** [s || dflt] on an optional string. *)
Definition or_string (s : option string) (dflt : string) : string :=
  match s with
  | Some v => if String.eqb v "" then dflt else v
  | None => dflt
  end.

(** [text.split('\n')]. *)
Fixpoint split_lines_acc (s : string) (cur : string) : list string :=
  match s with
  | EmptyString => [cur]
  | String c s' =>
      if Ascii.eqb c (ascii_of_N 10) then cur :: split_lines_acc s' ""
      else split_lines_acc s' (cur +:+ String c "")
  end.

Definition split_lines (text : string) : list string := split_lines_acc text "".

(** The [for (const line of lines)] loop of the free-text branch. *)
Fixpoint draw_lines (lib : PdfLib) (page : nat) (lines : list string)
    (x currentY size lineHeight : Q) (font : PDFFont) (fill : Color)
    (op : Q) : M CompState unit :=
  match lines with
  | [] => ret tt
  | line :: rest =>
      let! color := await (rgb lib fill) in
      do! draw lib page (drawText line (x + 4)%Q currentY size font color op) in
      draw_lines lib page rest x (currentY - lineHeight)%Q size lineHeight font fill op
  end.

(** The part of the free-text branch after the font is at hand. *)
Definition draw_free_text (lib : PdfLib) (page : nat) (pageHeight : Q)
    (anno : PdfAnnotationObject) (font : PDFFont) : M CompState unit :=
  let r := rect anno in
  let x := pos_x (rect_origin r) in
  let y := (pageHeight - pos_y (rect_origin r) - size_height (rect_size r))%Q in
  let fill := parseHexColor (or_string (fontColor anno) "#000000") in
  let text := or_string (contents anno) "" in
  if String.eqb text "" then ret tt
  else
    do! (match backgroundColor anno with
         | Some bg =>
             if negb (String.eqb bg "") && negb (String.eqb bg "transparent") then
               let! bgColor := await (rgb lib (parseHexColor bg)) in
               draw lib page
                 (drawRectangle (pos_x (rect_origin r))
                    (pageHeight - pos_y (rect_origin r) - size_height (rect_size r))%Q
                    (size_width (rect_size r)) (size_height (rect_size r))
                    bgColor (nullish_one (opacity anno)))
             else ret tt
         | None => ret tt
         end) in
    let lines := split_lines text in
    let lineHeight := (fontSize anno * (12 # 10))%Q in
    let currentY := (y + size_height (rect_size r) - fontSize anno)%Q in
    draw_lines lib page lines x currentY (fontSize anno) lineHeight font fill
      (nullish_one (opacity anno)).

(** "Get or embed the font": [Some font] when a handle is at hand, [None]
    when embedding threw (the caller then [continue]s). *)
Definition get_or_embed (lib : PdfLib) (fontRef_postscriptName fontRef_fullName : string)
    (fontData : list byte) : M CompState (option PDFFont) :=
  let! st := get in
  match embeddedFonts st !! fontRef_postscriptName with
  | Some font => ret (Some font)
  | None =>
      try_catch
        (do! record (ev_embedFont fontRef_postscriptName fontData) in
         let! font := await (embedFont lib fontData) in
         do! cache_font fontRef_postscriptName font in
         ret (Some font))
        (fun error =>
           do! console console_error
                 ("Failed to embed font " +:+ fontRef_fullName +:+ ":") in
           ret None)
  end.

Definition underline_bar (pageHeight strokeWidth : Q) (fill : Color) (op : Q)
    (r : Rect) : PageCall :=
  let x := pos_x (rect_origin r) in
  let y := (pageHeight - pos_y (rect_origin r) - size_height (rect_size r))%Q in
  drawRectangle x y (size_width (rect_size r)) strokeWidth fill op.

Definition strikeout_bar (pageHeight strokeWidth : Q) (fill : Color) (op : Q)
    (r : Rect) : PageCall :=
  let rectBottomY := (pageHeight - pos_y (rect_origin r) - size_height (rect_size r))%Q in
  let midY := (rectBottomY + size_height (rect_size r) / 2)%Q in
  let y := (midY - strokeWidth / 2)%Q in
  let x := pos_x (rect_origin r) in
  drawRectangle x y (size_width (rect_size r)) strokeWidth fill op.

(** [d += ...] repeated [cycles] times. *)
Fixpoint wave_cycles (cycles : nat) (period amplitude : Q) : list PathCmd :=
  match cycles with
  | O => []
  | S n =>
      [path_q (period / 4)%Q (minus_text amplitude) (period / 2)%Q 0%Q;
       path_t (period / 2)%Q 0%Q]
      ++ wave_cycles n period amplitude
  end.

Definition squiggly_cycles (width period : Q) : Z := Qceiling (width / period)%Q.

Definition squiggly_path (pageHeight strokeWidth : Q) (stroke : Color) (op : Q)
    (r : Rect) : PageCall :=
  let period := 6%Q in
  let amplitude := strokeWidth in
  let width := size_width (rect_size r) in
  let rectBottomY := (pageHeight - pos_y (rect_origin r) - size_height (rect_size r))%Q in
  let cycles := squiggly_cycles width period in
  let d := path_M 0%Q amplitude :: wave_cycles (Z.to_nat cycles) period amplitude in
  drawSvgPath d (pos_x (rect_origin r)) rectBottomY stroke None op strokeWidth.

(** The three markup branches share their shape: skip when there is no
    segment, then one drawing call per segment rectangle. *)
Definition draw_segments (lib : PdfLib) (page : nat) (anno : PdfAnnotationObject)
    (shape : Q -> Color -> Q -> Rect -> PageCall) : M CompState unit :=
  match segmentRects anno with
  | None => ret tt
  | Some [] => ret tt
  | Some rs =>
      let fill := parseHexColor (or_string (color anno) "#FFFF00") in
      let strokeWidth := or_one (strokeWidth anno) in
      let op := nullish_one (opacity anno) in
      for_of rs (fun r =>
                   let! color := await (rgb lib fill) in
                   draw lib page (shape strokeWidth color op r))
  end.

(** The body of the main loop, for one annotation. *)
Definition process_annotation (lib : PdfLib) (fontDataMap : gmap string (list byte))
    (pages : list Q) (anno : PdfAnnotationObject) : M CompState unit :=
  if (pageIndex anno <? 0) || (Z.of_nat (length pages) <=? pageIndex anno) then
    console console_warn
      ("Invalid page index: " +:+ integer_to_string (pageIndex anno))
  else
    let page := Z.to_nat (pageIndex anno) in
    let pageHeight := nth page pages 0%Q in
    if isFreeTextAnnotation anno then
      match fontFamily anno with
      | Some (CustomFontRef psName fullName _ _) =>
          match fontDataMap !! psName with
          | None =>
              console console_warn
                ("Custom font data not found for: " +:+ fullName
                 +:+ " (" +:+ psName +:+ ")")
          | Some fontData =>
              let! font := get_or_embed lib psName fullName fontData in
              match font with
              | None => ret tt
              | Some font => draw_free_text lib page pageHeight anno font
              end
          end
      | _ => ret tt
      end
    else if isUnderlineAnnotation anno then
      draw_segments lib page anno (underline_bar pageHeight)
    else if isStrikeOutAnnotation anno then
      draw_segments lib page anno (strikeout_bar pageHeight)
    else if isSquigglyAnnotation anno then
      draw_segments lib page anno (squiggly_path pageHeight)
    else ret tt.

Definition initial_state : CompState := {| events := []; embeddedFonts := ∅ |}.

(** The whole call.  [pdfDoc.getPages()] gives the same pages at every
    turn of the loop, so they are read once.  The events of the run are
    returned next to the promise so that properties of what was drawn and
    embedded can be stated. *)
Definition exportPdfWithCustomAnnotations (lib : PdfLib) (basePdfBytes : list byte)
    (annotations : list PdfAnnotationObject) (fontDataMap : gmap string (list byte))
  : CompState * result (list byte) :=
  (let! pages := await (PDFDocument_load lib basePdfBytes) in
   do! for_of annotations (process_annotation lib fontDataMap pages) in
   let! st := get in
   await (save lib basePdfBytes (events st))) initial_state.

(** Number of [embedFont] calls made for a postscript name. *)
Definition embed_calls (name : string) (evs : list LibEvent) : nat :=
  length (List.filter (fun ev => match ev with
                                 | ev_embedFont n _ => String.eqb n name
                                 | _ => false
                                 end) evs).

Definition draw_calls (evs : list LibEvent) : list (nat * PageCall) :=
  flat_map (fun ev => match ev with
                      | ev_draw p c => [(p, c)]
                      | _ => []
                      end) evs.

(** The earlier compositor, [exportPdfWithCustomFonts], which the
    react-tailwind example calls: free-text records only, the font embedded
    before the page index is looked at. *)
Definition process_free_text (lib : PdfLib) (fontDataMap : gmap string (list byte))
    (pages : list Q) (anno : PdfAnnotationObject) : M CompState unit :=
  if negb (isFreeTextAnnotation anno) then ret tt
  else
    match fontFamily anno with
    | Some (CustomFontRef psName fullName _ _) =>
        match fontDataMap !! psName with
        | None =>
            console console_warn
              ("Custom font data not found for: " +:+ fullName
               +:+ " (" +:+ psName +:+ ")")
        | Some fontData =>
            let! font := get_or_embed lib psName fullName fontData in
            match font with
            | None => ret tt
            | Some font =>
                if (pageIndex anno <? 0) || (Z.of_nat (length pages) <=? pageIndex anno) then
                  console console_warn
                    ("Invalid page index: " +:+ integer_to_string (pageIndex anno))
                else
                  let page := Z.to_nat (pageIndex anno) in
                  draw_free_text lib page (nth page pages 0%Q) anno font
            end
        end
    | _ => ret tt
    end.

Definition exportPdfWithCustomFonts (lib : PdfLib) (basePdfBytes : list byte)
    (annotations : list PdfAnnotationObject) (fontDataMap : gmap string (list byte))
  : CompState * result (list byte) :=
  (let! pages := await (PDFDocument_load lib basePdfBytes) in
   do! for_of annotations (process_free_text lib fontDataMap pages) in
   let! st := get in
   await (save lib basePdfBytes (events st))) initial_state.

(* ===================================================================== *)
(** ** The export handler ([handleExport] of the export button)           *)
(* ===================================================================== *)

(** An entry of [state.byUid]; [object] may be missing. *)
Record TrackedAnnotation := mkTracked { object : option PdfAnnotationObject }.

(** The state of the annotation plugin: [byUid] in property order, or no
    [byUid] at all. *)
Record AnnotationState := mkAnnotationState {
  byUid : option (list (string * TrackedAnnotation))
}.

Definition tracked_objects (st : AnnotationState) : list PdfAnnotationObject :=
  match byUid st with
  | None => []
  | Some entries =>
      flat_map (fun e => match object (snd e) with
                         | Some anno => [anno]
                         | None => []
                         end) entries
  end.

(** The ids of the annotations the primary engine holds. *)
Definition annotation_ids (st : AnnotationState) : gset string :=
  list_to_set (List.map anno_id (tracked_objects st)).

(** Modelled from the spec: [deleteAnnotation(page, id)] of the primary
    engine, an external collaborator: the record with that page and id
    leaves the live state. *)
Definition engine_delete (page : Z) (id : string) (st : AnnotationState)
  : AnnotationState :=
  {| byUid :=
       match byUid st with
       | None => None
       | Some entries =>
           Some (List.filter
                   (fun e => match object (snd e) with
                             | Some a => negb ((pageIndex a =? page) && String.eqb (anno_id a) id)
                             | None => true
                             end) entries)
       end |}.

(** Modelled from the spec: [importAnnotations(records)] of the primary
    engine: the record is inserted whole into the live state, as a new
    entry under its id. *)
Definition engine_import (anno : PdfAnnotationObject) (st : AnnotationState)
  : AnnotationState :=
  {| byUid :=
       Some ((match byUid st with Some entries => entries | None => [] end)
             ++ [(anno_id anno, mkTracked (Some anno))])%list |}.

(** [FontDataEntry] and the global [fontDataStore]. *)
Record FontDataEntry := mkFontDataEntry {
  fde_postscriptName : string;
  fde_familyName : string;
  fde_fullName : string;
  fde_data : list byte
}.

Definition fontDataStore_getAll (fonts : gmap string FontDataEntry)
  : gmap string (list byte) :=
  fde_data <$> fonts.

(** What the handler does to the outside, in order (the [console.log]
    debug lines are left out). *)
Inductive Effect :=
| eff_console_error (message : string) (error : option JsError)
| eff_deleteAnnotation (page : Z) (id : string)
| eff_setTimeout (ms : Z)
| eff_saveAsCopy
| eff_compose (basePdfBytes : list byte) (annotations : list PdfAnnotationObject)
| eff_importAnnotations (anno : PdfAnnotationObject)
| eff_download (finalPdfBytes : list byte).

(** Everything the handler can change: the live annotation state of the
    primary engine, the [isExporting] flag of the component and the trace
    of its effects (oldest first). *)
Record World := mkWorld {
  annotations : AnnotationState;
  isExporting : bool;
  effects : list Effect
}.

(** What the handler is given: whether the two capabilities are provided,
    the bytes (or failure) of the primary engine's [saveAsCopy] task on a
    given live state, the font data store and the overlay library. *)
Record Env := mkEnv {
  exportCapability : bool;
  annotationCapability : bool;
  saveAsCopy : AnnotationState -> result (list byte);
  fontDataStore : gmap string FontDataEntry;
  pdflib : PdfLib
}.

Definition effect (e : Effect) : M World unit :=
  modify (fun w => {| annotations := annotations w; isExporting := isExporting w;
                      effects := effects w ++ [e] |}).

Definition setIsExporting (b : bool) : M World unit :=
  modify (fun w => {| annotations := annotations w; isExporting := b;
                      effects := effects w |}).

Definition deleteAnnotation (page : Z) (id : string) : M World unit :=
  do! effect (eff_deleteAnnotation page id) in
  modify (fun w => {| annotations := engine_delete page id (annotations w);
                      isExporting := isExporting w; effects := effects w |}).

Definition importAnnotations (anno : PdfAnnotationObject) : M World unit :=
  do! effect (eff_importAnnotations anno) in
  modify (fun w => {| annotations := engine_import anno (annotations w);
                      isExporting := isExporting w; effects := effects w |}).

Definition Compositor : Type :=
  PdfLib -> list byte -> list PdfAnnotationObject -> gmap string (list byte)
  -> CompState * result (list byte).

(** [handleExport], over the two things in which the examples differ:
    the test that selects the records to render by hand and the
    compositor that is called. *)
Definition handleExport_with (select : PdfAnnotationObject -> bool)
    (compose : Compositor) (env : Env) : M World unit :=
  if negb (exportCapability env && annotationCapability env) then
    effect (eff_console_error "Export or annotation capability not available" None)
  else
    do! setIsExporting true in
    try_finally
      (try_catch
         (let! w := get in
          let state := annotations w in
          let allAnnotations := tracked_objects state in
          let customRenderAnnotations := List.filter select allAnnotations in
          let hasCustomRendering := (0 <? length customRenderAnnotations)%nat in
          do! (if hasCustomRendering then
                 do! for_of customRenderAnnotations
                       (fun anno => deleteAnnotation (pageIndex anno) (anno_id anno)) in
                 effect (eff_setTimeout 100)
               else ret tt) in
          do! effect eff_saveAsCopy in
          let! w := get in
          let! basePdfBytes := await (saveAsCopy env (annotations w)) in
          let! finalPdfBytes :=
            (if hasCustomRendering then
               let fontDataMap := fontDataStore_getAll (fontDataStore env) in
               do! effect (eff_compose basePdfBytes customRenderAnnotations) in
               let! bytes :=
                 await (snd (compose (pdflib env) basePdfBytes
                               customRenderAnnotations fontDataMap)) in
               do! for_of customRenderAnnotations importAnnotations in
               ret bytes
             else ret basePdfBytes) in
          effect (eff_download finalPdfBytes))
         (fun error => effect (eff_console_error "Export failed:" (Some error))))
      (setIsExporting false).

(** The nextjs-tailwind-shadcn example. *)
Definition handleExport (env : Env) : M World unit :=
  handleExport_with isCustomRenderAnnotation exportPdfWithCustomAnnotations env.

(** The react-tailwind example selects by [fontRef && fontRef.type === 'custom']. *)
Definition has_custom_font (anno : PdfAnnotationObject) : bool :=
  match fontFamily anno with
  | Some fontRef => isCustomFontRef fontRef
  | None => false
  end.

Definition handleExport_react (env : Env) : M World unit :=
  handleExport_with has_custom_font exportPdfWithCustomFonts env.

Definition deleted_by (effs : list Effect) : list (Z * string) :=
  flat_map (fun e => match e with
                     | eff_deleteAnnotation p i => [(p, i)]
                     | _ => []
                     end) effs.

Definition compose_calls (effs : list Effect) : nat :=
  length (List.filter (fun e => match e with eff_compose _ _ => true | _ => false end) effs).

Definition downloads (effs : list Effect) : list (list byte) :=
  flat_map (fun e => match e with eff_download b => [b] | _ => [] end) effs.

(* ===================================================================== *)
(** ** Notions used in the statements, and example scenarios              *)
(* ===================================================================== *)

(** The line [loadFont] writes to the logger when it catches [e]. *)
Definition load_error_entry (postscriptName : string) (e : JsError) : LogEntry :=
  mkLogEntry log_error "FontPlugin" "FontLoadError"
    ("Failed to load font " +:+ postscriptName +:+ ": " +:+ error_message e).

(** The segment rectangle of the worked example: origin (10, 20),
    size (100, 4). *)
Definition example_segment : Rect :=
  mkRect (mkPosition 10 20) (mkSize 100 4).

(** The live state once every selected record has been deleted, one call
    per record, in order. *)
Definition after_removal (customRenderAnnotations : list PdfAnnotationObject)
    (st : AnnotationState) : AnnotationState :=
  fold_left (fun s anno => engine_delete (pageIndex anno) (anno_id anno) s)
    customRenderAnnotations st.

(** The live state once every selected record has been imported again. *)
Definition after_reimport (customRenderAnnotations : list PdfAnnotationObject)
    (st : AnnotationState) : AnnotationState :=
  fold_left (fun s anno => engine_import anno s) customRenderAnnotations st.


(** A free-text record on the first page set in the custom font [ps]. *)
Definition free_text (id ps : string) : PdfAnnotationObject :=
  mkAnno id FREETEXT 0 example_segment
         (Some (CustomFontRef ps (ps +:+ " Regular") ps "Regular"))
         None 12 (Some "text") None None None None None.

(** *** A small scenario: one underline annotation on the first page *)

(** An overlay library that accepts everything and echoes the base bytes. *)
Definition accepting_lib : PdfLib :=
  mkPdfLib (fun _ => Ok [800%Q]) (fun d => Ok (EmbeddedFont d))
           (fun _ _ => Ok tt) (fun b _ => Ok b)
           (fun _ => TypeError "rgb: not a colour component").

(** An overlay library that cannot load the base document. *)
Definition unloadable_lib : PdfLib :=
  mkPdfLib (fun _ => Throw (Error "Failed to parse PDF document"))
           (fun d => Ok (EmbeddedFont d)) (fun _ _ => Ok tt) (fun b _ => Ok b)
           (fun _ => TypeError "rgb: not a colour component").

Definition underline_u1 : PdfAnnotationObject :=
  mkAnno "u1" UNDERLINE 0 example_segment None None 0 None None None
         (Some "#FF0000") (Some 2%Q) (Some [example_segment]).

Definition world_u1 : World :=
  mkWorld (mkAnnotationState (Some [("u1", mkTracked (Some underline_u1))]))
          false [].

(** The base export succeeds and the overlay library accepts everything. *)
Definition env_plain : Env :=
  mkEnv true true (fun _ => Ok [x25; x50; x44; x46]) ∅ accepting_lib.

(** A live state with one stamp, which the primary engine renders itself. *)
Definition world_stamp : World :=
  mkWorld (mkAnnotationState
             (Some [("s1", mkTracked (Some (mkAnno "s1" STAMP 0 example_segment
                                              None None 0 None None None None None None)))]))
          false [].

(** A live state with one free-text record set in a custom font. *)
Definition world_t1 : World :=
  mkWorld (mkAnnotationState (Some [("t1", mkTracked (Some (free_text "t1" "Sarabun")))]))
          false [].

(** The primary engine's [saveAsCopy] task rejects. *)
Definition env_base_export_fails : Env :=
  mkEnv true true (fun _ => Throw (Error "saveAsCopy failed")) ∅ accepting_lib.

(** The base export succeeds and the compositor rejects. *)
Definition env_compositing_fails : Env :=
  mkEnv true true (fun _ => Ok [x25; x50; x44; x46]) ∅ unloadable_lib.



(** The fonts of the platform's list whose raw postscript name is [raw], in
    the order of the list. *)
Definition same_name (raw : string) (fonts : list FontData) : list FontData :=
  List.filter (fun f => String.eqb (fd_postscriptName f) raw) fonts.

(** What a load that has resolved to [fontData] settles with: [null] when
    there is no such font, else the record built from its blob. *)
Definition resolved (fontData : option FontData) : result (option LoadedFont) :=
  match fontData with
  | None => Ok None
  | Some f =>
      match fd_blob f with
      | Throw e => Throw e
      | Ok data =>
          Ok (Some {| ld_family := fd_family f;
                      ld_fullName := fd_fullName f;
                      ld_postscriptName := fd_postscriptName f;
                      ld_style := fd_style f;
                      ld_data := data;
                      ld_fontType := detectFontType data |})
      end
  end.

(** The number a decimal numeral denotes. *)
Fixpoint uint_value (d : Decimal.uint) (acc : N) : N :=
  match d with
  | Decimal.Nil => acc
  | Decimal.D0 d => uint_value d (acc * 10 + 0)
  | Decimal.D1 d => uint_value d (acc * 10 + 1)
  | Decimal.D2 d => uint_value d (acc * 10 + 2)
  | Decimal.D3 d => uint_value d (acc * 10 + 3)
  | Decimal.D4 d => uint_value d (acc * 10 + 4)
  | Decimal.D5 d => uint_value d (acc * 10 + 5)
  | Decimal.D6 d => uint_value d (acc * 10 + 6)
  | Decimal.D7 d => uint_value d (acc * 10 + 7)
  | Decimal.D8 d => uint_value d (acc * 10 + 8)
  | Decimal.D9 d => uint_value d (acc * 10 + 9)
  end%N.

(** Three fonts named "Name" with another font in between. *)
Definition namesakes : list FontData :=
  [ mkFontData "Name" "Name A" "Name" "Regular" (Ok [x00; x01; x00; x00]);
    mkFontData "Other" "Other" "Other" "Regular" (Ok []);
    mkFontData "Name" "Name B" "Name" "Regular" (Ok [x00; x01; x00; x00]);
    mkFontData "Name" "Name C" "Name" "Regular" (Ok [x00; x01; x00; x00]) ].

(** *** The disambiguation of the prose description *)

(** How many fonts of [fonts] carry the raw postscript name [raw]. *)
Definition occurrences (raw : string) (fonts : list FontData) : N :=
  N.of_nat (length (same_name raw fonts)).

(** The name exposed for a font that has [k] earlier namesakes. *)
Definition exposed_name (raw : string) (k : N) : string :=
  if (k =? 0)%N then raw else raw +:+ "#" +:+ number_to_string k.

(** The special marker, looked for in the upper-cased full name. *)
Definition has_marker (fullName : string) : bool :=
  includes (toUpperCase fullName) "IT9" || includes (toUpperCase fullName) "IT๙".

Definition exposed_family (font : FontData) (k : N) : string :=
  if has_marker (fd_fullName font) then fd_family font +:+ " (IT9)"
  else if (k =? 0)%N then fd_family font
  else fd_family font +:+ " (Variant " +:+ number_to_string k +:+ ")".

Definition exposed (font : FontData) (k : N) : LocalFont :=
  {| lf_family := exposed_family font k;
     lf_fullName := fd_fullName font;
     lf_postscriptName := exposed_name (fd_postscriptName font) k;
     lf_style := fd_style font;
     lf_weight := fs_weight (parseFontStyle (fd_style font) (fd_fullName font));
     lf_italic := fs_italic (parseFontStyle (fd_style font) (fd_fullName font)) |}.

(** The snapshot exposed font by font, each with the number of namesakes
    among the fonts [before] it. *)
Fixpoint expose_spec (before fonts : list FontData) : list LocalFont :=
  match fonts with
  | [] => []
  | f :: rest =>
      exposed f (occurrences (fd_postscriptName f) before)
      :: expose_spec (before ++ [f]) rest
  end.

(** [seenNames] after the fonts [before] have gone through the callback. *)
Definition seen_matches (seenNames : gmap string N) (before : list FontData) : Prop :=
  forall raw,
    seenNames !! raw
    = if (occurrences raw before =? 0)%N then None
      else Some (occurrences raw before - 1)%N.

(** The plugin before any access has been granted. *)
Definition fresh_plugin : FontPlugin :=
  mkFontPlugin (mkFontState true false [] ∅ false) [] [].

(** A snapshot in which a raw postscript name is spelled like a
    disambiguated duplicate of another. *)
Definition colliding_snapshot : list FontData :=
  [ mkFontData "Arial" "Arial" "Arial" "Regular" (Ok [x00; x01; x00; x00]);
    mkFontData "Arial" "Arial Copy" "Arial" "Regular" (Ok [x00; x01; x00; x00]);
    mkFontData "Arial" "Arial One" "Arial#1" "Regular" (Ok [x00; x01; x00; x00]) ].

(** The record [b] is the target of one of the deletions made for [l]. *)
Definition deleted_with (l : list PdfAnnotationObject) (b : PdfAnnotationObject) : bool :=
  existsb (fun c => (pageIndex b =? pageIndex c) && String.eqb (anno_id b) (anno_id c)) l.

(* ===================================================================== *)
(** ** Further code of the plugin: families, the font data store,         *)
(**    variant matching                                                   *)
(* ===================================================================== *)

(** [grouped.get(family)] then [existing.push(font)] or
    [grouped.set(family, [font])]: the [Map] keeps its keys in insertion
    order, a new family goes last. *)
Fixpoint push_group (family : string) (font : LocalFont)
    (grouped : list (string * list LocalFont)) : list (string * list LocalFont) :=
  match grouped with
  | [] => [(family, [font])]
  | (k, existing) :: rest =>
      if String.eqb k family then (k, (existing ++ [font])%list) :: rest
      else (k, existing) :: push_group family font rest
  end.

(** [groupFontsByFamily]: the [for (const font of fonts)] loop. *)
Definition groupFontsByFamily (fonts : list LocalFont)
  : list (string * list LocalFont) :=
  fold_left (fun grouped font => push_group (lf_family font) font grouped) fonts [].

(** [grouped.get(family)]. *)
Fixpoint map_get {V} (m : list (string * V)) (k : string) : option V :=
  match m with
  | [] => None
  | (k', v) :: rest => if String.eqb k' k then Some v else map_get rest k
  end.

(** The fonts of a family, in the order of the list. *)
Definition of_family (family : string) (fonts : list LocalFont) : list LocalFont :=
  List.filter (fun f => String.eqb (lf_family f) family) fonts.

(** The class [FontDataStore]: its private [Map]. *)
Definition FontDataStore : Type := gmap string FontDataEntry.

Definition store_set (postscriptName : string) (entry : FontDataEntry)
    (fonts : gmap string FontDataEntry) : gmap string FontDataEntry :=
  <[postscriptName := entry]> fonts.

Definition store_get (postscriptName : string) (fonts : gmap string FontDataEntry)
  : option FontDataEntry :=
  fonts !! postscriptName.

Definition store_has (postscriptName : string) (fonts : gmap string FontDataEntry)
  : bool :=
  match fonts !! postscriptName with Some _ => true | None => false end.

Definition store_clear (fonts : gmap string FontDataEntry) : gmap string FontDataEntry :=
  ∅.

(** [v.weight || 400] on a font of the directory, whose weight is always
    set. *)
Definition weight_or_400 (v : LocalFont) : Z :=
  if lf_weight v =? 0 then 400 else lf_weight v.

(** [findBestMatch] of the font selector: an exact match, else the same
    slant within 100 of the weight, else the first variant. *)
Definition findBestMatch (variants : list LocalFont) (targetWeight : Z)
    (targetItalic : bool) : option LocalFont :=
  match List.find (fun v => ((lf_weight v =? targetWeight)
                             || ((lf_weight v =? 0) && (targetWeight =? 400)))
                            && Bool.eqb (lf_italic v) targetItalic) variants with
  | Some m => Some m
  | None =>
      match List.find (fun v => Bool.eqb (lf_italic v) targetItalic
                                && (Z.abs (weight_or_400 v - targetWeight) <? 100))
                      variants with
      | Some m => Some m
      | None => nth_error variants 0
      end
  end.

(** The slant computed by [getFontStyles] for a custom font. *)
Definition getFontStyles_custom_style (style fullName : string) : string :=
  let styleStr := toLowerCase (style +:+ " " +:+ fullName) in
  if includes styleStr "italic" || includes styleStr "oblique" then "italic"
  else "normal".

(** The CSS weight that stands for a numeric weight in [getFontStyles]. *)
Definition css_weight (w : Z) : string :=
  if w =? 400 then "normal"
  else if w =? 700 then "bold"
  else number_to_string (Z.to_N w).

(* ===================================================================== *)
(** ** Notions used in the further statements about the compositor       *)
(* ===================================================================== *)

(** [lines.join('\n')], the inverse of [text.split('\n')]. *)
Fixpoint join_lines (lines : list string) : string :=
  match lines with
  | [] => ""
  | [l] => l
  | l :: rest => l +:+ String (ascii_of_N 10) (join_lines rest)
  end.

(** The events of a run that reach the document: drawing and embedding
    calls, not the console. *)
Definition document_events (evs : list LibEvent) : list LibEvent :=
  List.filter (fun ev => match ev with ev_console _ _ => false | _ => true end) evs.

(** Every drawing call of the trace is made on a page of the document. *)
Definition draws_on_pages (n : nat) (evs : list LibEvent) : Prop :=
  forall p c, In (ev_draw p c) evs -> (p < n)%nat.

(** The horizontal advance of a path: the sum of the [dx] of its curves. *)
Fixpoint path_advance (d : list PathCmd) : Q :=
  match d with
  | [] => 0
  | path_M _ _ :: rest => path_advance rest
  | path_q _ _ dx _ :: rest => dx + path_advance rest
  | path_t dx _ :: rest => dx + path_advance rest
  end%Q.

(** The [drawText] calls of a free-text box, line by line. *)
Fixpoint text_calls (page : nat) (lines : list string)
    (x currentY size lineHeight : Q) (font : PDFFont) (fill : Color) (op : Q)
  : list LibEvent :=
  match lines with
  | [] => []
  | line :: rest =>
      ev_draw page (drawText line (x + 4)%Q currentY size font fill op)
      :: text_calls page rest x (currentY - lineHeight)%Q size lineHeight font fill op
  end.

(** When the compositor passes an annotation over: its page is not in the
    document, it is not of a kind rendered by hand, it is a free-text
    record whose font binary is not in the map, or it has no segment. *)
Definition passed_over (fontDataMap : gmap string (list byte)) (pages : list Q)
    (anno : PdfAnnotationObject) : bool :=
  (pageIndex anno <? 0) || (Z.of_nat (length pages) <=? pageIndex anno)
  || negb (isCustomRenderAnnotation anno)
  || (isFreeTextAnnotation anno
      && match fontFamily anno with
         | Some (CustomFontRef ps _ _ _) =>
             match fontDataMap !! ps with Some _ => false | None => true end
         | _ => true
         end)
  || (negb (isFreeTextAnnotation anno)
      && match segmentRects anno with
         | None | Some [] => true
         | Some (_ :: _) => false
         end).


(** A block is silent when it completes normally, leaves the cache alone
    and reaches the document with nothing. *)
Definition silent (c : M CompState unit) : Prop :=
  forall st,
    snd (c st) = Ok tt
    /\ embeddedFonts (fst (c st)) = embeddedFonts st
    /\ document_events (events (fst (c st))) = document_events (events st).

(** The overlay library accepts every drawing call. *)
Definition accepts_all (lib : PdfLib) : Prop :=
  forall p c, page_draw lib p c = Ok tt.

(** The background of a free-text box: one rectangle over the whole box
    when a background colour other than ['transparent'] is set. *)
Definition background_calls (page : nat) (pageHeight : Q) (anno : PdfAnnotationObject)
  : list LibEvent :=
  match backgroundColor anno with
  | Some bg =>
      if negb (String.eqb bg "") && negb (String.eqb bg "transparent") then
        [ev_draw page
           (drawRectangle (pos_x (rect_origin (rect anno)))
              (pageHeight - pos_y (rect_origin (rect anno))
               - size_height (rect_size (rect anno)))%Q
              (size_width (rect_size (rect anno)))
              (size_height (rect_size (rect anno)))
              (parseHexColor bg) (nullish_one (opacity anno)))]
      else []
  | None => []
  end.

(** A free-text record with two lines of text and a background. *)
Definition two_line_note : PdfAnnotationObject :=
  mkAnno "n1" FREETEXT 0 example_segment
         (Some (CustomFontRef "Sarabun" "Sarabun Regular" "Sarabun" "Regular"))
         (Some "#112233") 10
         (Some (String "a" (String (ascii_of_N 10) "b"))) (Some "#FFFFFF")
         None None None None.

(** A free-text record without text. *)
Definition empty_note : PdfAnnotationObject :=
  mkAnno "n2" FREETEXT 0 example_segment
         (Some (CustomFontRef "Sarabun" "Sarabun Regular" "Sarabun" "Regular"))
         None 10 None (Some "#FFFFFF") None None None None.

(** The selection of the handler and what it leaves of the live state when
    the export fails after the removal. *)
Definition selected_by (select : PdfAnnotationObject -> bool) (w : World)
  : list PdfAnnotationObject :=
  List.filter select (tracked_objects (annotations w)).

(** A free-text record set in a custom font on a page the document lacks. *)
Definition off_page_note : PdfAnnotationObject :=
  mkAnno "n3" FREETEXT 7 example_segment
         (Some (CustomFontRef "Sarabun" "Sarabun Regular" "Sarabun" "Regular"))
         None 12 (Some "text") None None None None None.

(* ===================================================================== *)
(** ** Numbers a double holds exactly                                     *)
(* ===================================================================== *)

(** The exponent of the largest power of two that divides a positive
    number, and what is left of the number. *)
Fixpoint trailing_zeros (p : positive) : Z :=
  match p with
  | xO p' => 1 + trailing_zeros p'
  | _ => 0
  end.

Fixpoint odd_part (p : positive) : positive :=
  match p with
  | xO p' => odd_part p'
  | _ => p
  end.

(** The rationals an IEEE 754 double holds exactly: 0 and the numbers
    [m * 2^e] with [m] odd, below [2^53] in magnitude, [-1074 <= e] and the
    whole below [2^1024].  An operation of the code whose exact result is
    such a number gives that result without rounding. *)
Definition is_double (q : Q) : bool :=
  let r := Qred q in
  match Qnum r with
  | Z0 => true
  | Zpos n | Zneg n =>
      let e := trailing_zeros n - trailing_zeros (Qden r) in
      let m := Zpos (odd_part n) in
      Pos.eqb (odd_part (Qden r)) 1
      && (Z.log2 m <? 53) && (-1074 <=? e) && (Z.log2 m + e <? 1024)
  end.

(** Whether a free-text record has a background to draw: a colour is set
    and it is not ['transparent']. *)
Definition has_background (anno : PdfAnnotationObject) : bool :=
  match backgroundColor anno with
  | Some bg => negb (String.eqb bg "") && negb (String.eqb bg "transparent")
  | None => false
  end.


(* ===================================================================== *)
(** * Properties                                                          *)
(* ===================================================================== *)

(** ** Format detection *)

Lemma u8_is_percent (b : byte) :
  (Z.of_N (Byte.to_N b) =? 37) = match b with x25 => true | _ => false end.
Proof. destruct b; reflexivity. Qed.

Lemma u8_is_bang (b : byte) :
  (Z.of_N (Byte.to_N b) =? 33) = match b with x21 => true | _ => false end.
Proof. destruct b; reflexivity. Qed.

Lemma starts_with_percent_bang_cons2 (b0 b1 : byte) (rest : list byte) :
  starts_with_percent_bang (b0 :: b1 :: rest)
  = match b0 with x25 => true | _ => false end
    && match b1 with x21 => true | _ => false end.
Proof. destruct b0; reflexivity. Qed.

(** C7 (as amended).  On every buffer [detectFontType] answers [Type1]
    exactly when the buffer holds at least four bytes and its first two are
    0x25 0x21; every other buffer, and in particular every buffer shorter
    than four bytes whatever its content, is [TrueType].  Nothing else of
    the header is consulted. *)
Theorem detectFontType_signature (data : list byte) :
  detectFontType data
  = if (4 <=? length data)%nat && starts_with_percent_bang data
    then Type1 else TrueType.
Proof.
  destruct data as [|b0 [|b1 [|b2 [|b3 rest]]]]; try reflexivity.
  - unfold detectFontType.
    change ((length (b0 :: b1 :: b2 :: b3 :: rest) <? 4)%nat) with false.
    change ((4 <=? length (b0 :: b1 :: b2 :: b3 :: rest))%nat) with true.
    cbv zeta. unfold u8_at; simpl nth.
    rewrite u8_is_percent, u8_is_bang, starts_with_percent_bang_cons2.
    reflexivity.
Qed.

(** C7, the claim as written fails: a two-byte buffer that consists of the
    signature 0x25 0x21 is not reported as [Type1]. *)
Lemma detectFontType_short_signature :
  starts_with_percent_bang [x25; x21] = true
  /\ detectFontType [x25; x21] = TrueType
  /\ ~ (detectFontType [x25; x21] = Type1
        <-> starts_with_percent_bang [x25; x21] = true).
Proof.
  split; [reflexivity|]. split; [reflexivity|].
  intros [_ H]. specialize (H eq_refl). discriminate H.
Qed.

(** ** Weight and style inference *)

Lemma parseFontStyle_table (style fullName : string) :
  parseFontStyle style fullName
  = {| fs_weight := first_match weight_table
                      (toLowerCase (style +:+ " " +:+ fullName)) 400;
       fs_italic := existsb (includes (toLowerCase (style +:+ " " +:+ fullName)))
                      ["italic"; "oblique"] |}.
Proof.
  unfold parseFontStyle, weight_table, first_match, existsb.
  rewrite !orb_false_r.
  f_equal.
  - rewrite <- !orb_assoc. reflexivity.
  - destruct (_ || _); reflexivity.
Qed.

(** C8 (as amended).  [parseFontStyle] works on the lower-cased text
    [style + ' ' + fullName]; its weight is the weight of the first row of
    [weight_table] one of whose substrings occurs in that text, 400 when no
    row matches, and italic holds exactly when "italic" or "oblique" occurs.
    The rows are spelled as in the table: the one-word "demibold" is not
    among them, and texts containing it are left out of the first part.
    A text containing "light" and "bold" gets 300 when none of the two
    rows before "light" matches. *)
Theorem parseFontStyle_first_match (style fullName : string) :
  let s := toLowerCase (style +:+ " " +:+ fullName) in
  (includes s "demibold" = false ->
   parseFontStyle style fullName
   = {| fs_weight := first_match weight_table s 400;
        fs_italic := existsb (includes s) ["italic"; "oblique"] |})
  /\ (includes s "light" = true -> includes s "bold" = true ->
      existsb (includes s)
        ["thin"; "hairline"; "extra light"; "extralight"; "ultra light"] = false ->
      fs_weight (parseFontStyle style fullName) = 300)
  /\ parseFontStyle "Bold Italic" "Foo Bold Italic"
     = {| fs_weight := 700; fs_italic := true |}
  /\ fs_weight (parseFontStyle "SemiBold" "Foo SemiBold") = 600.
Proof.
  intros s. split; [|split; [|split]].
  - intros _. apply parseFontStyle_table.
  - intros Hl _ Hnone. rewrite parseFontStyle_table. fold s.
    cbn [fs_weight]. unfold weight_table, first_match.
    cbn [existsb] in *.
    rewrite !orb_false_r in *.
    apply orb_false_iff in Hnone as [H1 Hnone].
    apply orb_false_iff in Hnone as [H2 Hnone].
    apply orb_false_iff in Hnone as [H3 Hnone].
    apply orb_false_iff in Hnone as [H4 H5].
    rewrite H1, H2, H3, H4, H5, Hl. reflexivity.
  - reflexivity.
  - reflexivity.
Qed.

Lemma parseFontStyle_first_match_witness :
  fs_weight (parseFontStyle "Light" "Foo Light Bold") = 300
  /\ parseFontStyle "Medium Oblique" "Foo Medium Oblique"
     = {| fs_weight := 500; fs_italic := true |}.
Proof.
  split.
  - apply (proj1 (proj2 (parseFontStyle_first_match "Light" "Foo Light Bold")));
      reflexivity.
  - rewrite (proj1 (parseFontStyle_first_match "Medium Oblique" "Foo Medium Oblique"));
      reflexivity.
Defined.

(** C8, the claim as written fails: a text containing both "light" and
    "bold" does not always get 300, and the hyphenated spelling of the
    claim's second row is not a substring the code checks. *)
Lemma parseFontStyle_light_bold_not_300 :
  (let s := toLowerCase ("Thin" +:+ " " +:+ "Foo Light Bold") in
   includes s "light" = true /\ includes s "bold" = true
   /\ fs_weight (parseFontStyle "Thin" "Foo Light Bold") = 100)
  /\ (let s := toLowerCase ("Extra-Light" +:+ " " +:+ "Foo Extra-Light") in
      includes s "extra-light" = true
      /\ fs_weight (parseFontStyle "Extra-Light" "Foo Extra-Light") = 300).
Proof. repeat split. Qed.

(** The one-word spelling "DemiBold" falls through to the "bold" row here,
    while the renderer's [getFontStyles] gives the same font 600. *)
Lemma parseFontStyle_demibold_disagrees :
  fs_weight (parseFontStyle "DemiBold" "Foo DemiBold") = 700
  /\ getFontStyles_custom_weight "DemiBold" "Foo DemiBold" = "600".
Proof. split; reflexivity. Qed.

(** ** The font plugin never rejects a load *)

Lemma loadFont_cached (w : Window) (name : string) (p : FontPlugin) (f : LoadedFont) :
  loadedFonts (state p) !! name = Some f ->
  loadFont w name p = (p, Ok (Some f)).
Proof. intros H. unfold loadFont, bind, get. rewrite H. reflexivity. Qed.

Lemma loadFont_caught (w : Window) (name : string) (p : FontPlugin) (e : JsError) :
  loadedFonts (state p) !! name = None ->
  loadFontData w name = Throw e ->
  loadFont w name p
  = ({| state := state p;
        emitted := emitted p ++ [font_load_error name e];
        logged := logged p ++ [load_error_entry name e] |}, Ok None).
Proof.
  intros Hc He. unfold loadFont, bind, get. rewrite Hc.
  unfold try_catch, bind, await. rewrite He. reflexivity.
Qed.





(** The third source of failure: the blob of the resolved font cannot be
    read. *)
Lemma loadFont_blob_rejects :
  let f := mkFontData "Fam" "Fam Regular" "Fam-Regular" "Regular"
             (Throw (DOMException "NotReadableError" "blob")) in
  loadFont (mkWindow (Some (Ok [f]))) "Fam-Regular"
    (mkFontPlugin (mkFontState true true [] ∅ false) [] [])
  = (mkFontPlugin (mkFontState true true [] ∅ false)
       [font_load_error "Fam-Regular" (DOMException "NotReadableError" "blob")]
       [load_error_entry "Fam-Regular" (DOMException "NotReadableError" "blob")],
     Ok None).
Proof. reflexivity. Qed.

(** ** Markup geometry *)

Lemma squiggly_never_filled (pageHeight strokeWidth : Q) (stroke : Color)
    (op : Q) (r : Rect) :
  exists d x y, squiggly_path pageHeight strokeWidth stroke op r
                = drawSvgPath d x y stroke None op strokeWidth.
Proof. unfold squiggly_path. eauto. Qed.


Ltac run_single_markup Hload Hpage Htype Hsegs Hsw Hfill :=
  unfold exportPdfWithCustomAnnotations, bind, await, get;
  rewrite Hload; cbn [for_of]; unfold bind, process_annotation;
  rewrite Hpage; cbn [Z.ltb Z.compare orb length Z.of_nat Z.leb Z.to_nat nth];
  unfold isFreeTextAnnotation, isUnderlineAnnotation, isStrikeOutAnnotation,
    isSquigglyAnnotation; rewrite Htype; cbn [subtype_eqb];
  unfold draw_segments; rewrite Hsegs, Hsw; cbn [for_of or_one Qeq_bool];
  unfold bind, await; rewrite Hfill;
  unfold draw, bind, record, modify, await, ret;
  cbn [events initial_state app];
  match goal with
  | |- context [page_draw ?l ?p ?c] => destruct (page_draw l p c)
  end;
  cbn [events fst]; try destruct (save _ _ _); reflexivity.

(** C9.  For the segment rectangle with origin (10, 20) and size (100, 4)
    on a page of height 800 and stroke width 2, and a colour the library's
    [rgb] accepts: the underline is one filled rectangle at x = 10,
    y = 776 of width 100 and height 2; the strikeout is one filled
    rectangle of the same width and height at y = 777, so that its middle
    is the segment's mid-height 778; the squiggly is one SVG path with no
    fill colour, stroked at width 2 at (10, 776).  The path is written out:
    it starts at (0, 2) and repeats [ceil(100 / 6) = 17] times the cycle
    [q 6/4 -2 6/2 0 t 6/2 0], that is a curve whose control point lies 2
    above its ends followed by its mirror image 2 below, each half a
    period of 3 wide, 6 for the cycle.  These are the very calls the
    compositor makes for an annotation with that single segment on
    page 0. *)
Theorem markup_geometry_example
    (lib : PdfLib) (basePdfBytes : list byte) (morePages : list Q)
    (fontDataMap : gmap string (list byte)) (anno : PdfAnnotationObject)
    (fill : Color)
    (Hload : PDFDocument_load lib basePdfBytes = Ok (800%Q :: morePages))
    (Hpage : pageIndex anno = 0)
    (Hsegs : segmentRects anno = Some [example_segment])
    (Hsw : strokeWidth anno = Some 2%Q)
    (Hfill : rgb lib (parseHexColor (or_string (color anno) "#FFFF00")) = Ok fill) :
  let op := nullish_one (opacity anno) in
  let calls :=
    draw_calls (events (fst (exportPdfWithCustomAnnotations lib basePdfBytes
                               [anno] fontDataMap))) in
  let cycle := [path_q (6 / 4) (minus_text 2) (6 / 2) 0; path_t (6 / 2) 0] in
  (anno_type anno = UNDERLINE ->
   calls = [(0%nat, drawRectangle 10 776 100 2 fill op)])
  /\ (anno_type anno = STRIKEOUT ->
      exists y, calls = [(0%nat, drawRectangle 10 y 100 2 fill op)]
                /\ (y == 777)%Q /\ (y + 2 / 2 == 778)%Q
                /\ (800 - 20 - 4 + 4 / 2 == 778)%Q)
  /\ (anno_type anno = SQUIGGLY ->
      calls = [(0%nat, drawSvgPath (path_M 0 2 :: List.concat (List.repeat cycle 17))
                         10 776 fill None op 2)]
      /\ squiggly_cycles 100 6 = 17
      /\ Qceiling (100 / 6) = 17
      /\ (6 / 4 == 3 # 2)%Q /\ (6 / 2 == 3)%Q
      /\ (path_advance cycle == 6)%Q).
Proof.
  intros op calls cycle. subst calls op cycle.
  split; [|split].
  - intros Htype. run_single_markup Hload Hpage Htype Hsegs Hsw Hfill.
  - intros Htype. exists (3108 # 4)%Q. split; [|repeat split; reflexivity].
    run_single_markup Hload Hpage Htype Hsegs Hsw Hfill.
  - intros Htype. split; [|repeat split].
    run_single_markup Hload Hpage Htype Hsegs Hsw Hfill.
Qed.

Lemma markup_geometry_example_witness :
  draw_calls (events (fst (exportPdfWithCustomAnnotations accepting_lib []
                             [underline_u1] ∅)))
  = [(0%nat, drawRectangle 10 776 100 2 (parseHexColor "#FF0000") 1)].
Proof.
  apply (proj1 (markup_geometry_example accepting_lib [] [] ∅ underline_u1
                  (parseHexColor "#FF0000") eq_refl eq_refl eq_refl eq_refl eq_refl)).
  reflexivity.
Defined.

(** The shapes themselves, for any colour and opacity. *)
Lemma markup_shapes_example (fill : Color) (op : Q) :
  underline_bar 800 2 fill op example_segment
  = drawRectangle 10 776 100 2 fill op
  /\ strikeout_bar 800 2 fill op example_segment
     = drawRectangle 10 (3108 # 4) 100 2 fill op
  /\ squiggly_path 800 2 fill op example_segment
     = drawSvgPath (path_M 0 2 :: wave_cycles 17 6 2) 10 776 fill None op 2.
Proof. repeat split. Qed.

(** A colour [rgb] refuses stops the compositor before the first drawing
    call: with the colour 'red' (whose first pair of digits does not parse)
    nothing is drawn and the call rejects with the library's error. *)
Lemma markup_refused_colour_draws_nothing :
  let anno := mkAnno "u2" UNDERLINE 0 example_segment None None 0 None None None
                (Some "red") (Some 2%Q) (Some [example_segment]) in
  let run := exportPdfWithCustomAnnotations accepting_lib [] [anno] ∅ in
  col_r (parseHexColor "red") = None
  /\ draw_calls (events (fst run)) = []
  /\ snd run = Throw (rgb_error accepting_lib (parseHexColor "red")).
Proof. repeat split. Qed.

(** ** The export handler *)

Lemma deleted_by_app (l1 l2 : list Effect) :
  deleted_by (l1 ++ l2) = (deleted_by l1 ++ deleted_by l2)%list.
Proof. apply flat_map_app. Qed.

Lemma downloads_app (l1 l2 : list Effect) :
  downloads (l1 ++ l2) = (downloads l1 ++ downloads l2)%list.
Proof. apply flat_map_app. Qed.

Lemma compose_calls_app (l1 l2 : list Effect) :
  compose_calls (l1 ++ l2) = (compose_calls l1 + compose_calls l2)%nat.
Proof. unfold compose_calls. rewrite List.filter_app, length_app. reflexivity. Qed.

Lemma removing_loop (l : list PdfAnnotationObject) (w : World) :
  for_of l (fun anno => deleteAnnotation (pageIndex anno) (anno_id anno)) w
  = ({| annotations := after_removal l (annotations w);
        isExporting := isExporting w;
        effects := effects w
                   ++ List.map (fun a => eff_deleteAnnotation (pageIndex a) (anno_id a)) l |},
     Ok tt).
Proof.
  revert w. induction l as [|a l IH]; intros w.
  - cbn. rewrite app_nil_r. destruct w; reflexivity.
  - cbn [for_of]. unfold bind at 1.
    unfold deleteAnnotation at 1, bind, effect, modify.
    rewrite IH. cbn. rewrite <- app_assoc. reflexivity.
Qed.

Lemma reimporting_loop (l : list PdfAnnotationObject) (w : World) :
  for_of l importAnnotations w
  = ({| annotations := after_reimport l (annotations w);
        isExporting := isExporting w;
        effects := effects w ++ List.map eff_importAnnotations l |},
     Ok tt).
Proof.
  revert w. induction l as [|a l IH]; intros w.
  - cbn. rewrite app_nil_r. destruct w; reflexivity.
  - cbn [for_of]. unfold bind at 1.
    unfold importAnnotations at 1, bind, effect, modify.
    rewrite IH. cbn. rewrite <- app_assoc. reflexivity.
Qed.

Section Handler.
Variable select : PdfAnnotationObject -> bool.
Variable compose : Compositor.
Variable env : Env.
Variable w : World.
Hypothesis Hexp : exportCapability env = true.
Hypothesis Hann : annotationCapability env = true.

Let custom := List.filter select (tracked_objects (annotations w)).

Lemma handler_nothing_selected :
  custom = [] ->
  handleExport_with select compose env w
  = match saveAsCopy env (annotations w) with
    | Ok base =>
        ({| annotations := annotations w; isExporting := false;
            effects := effects w ++ [eff_saveAsCopy; eff_download base] |}, Ok tt)
    | Throw e =>
        ({| annotations := annotations w; isExporting := false;
            effects := effects w
                       ++ [eff_saveAsCopy; eff_console_error "Export failed:" (Some e)] |},
         Ok tt)
    end.
Proof.
  intros Hc. unfold handleExport_with. rewrite Hexp, Hann. cbn [andb negb].
  unfold try_finally, try_catch, bind, get, setIsExporting, modify.
  cbn [annotations isExporting effects]. fold custom. rewrite Hc. cbn [length Nat.ltb Nat.leb].
  unfold ret, effect, modify, await. cbn [annotations isExporting effects].
  destruct (saveAsCopy env (annotations w)); cbn [effects annotations isExporting];
    rewrite <- app_assoc; reflexivity.
Qed.

Lemma handler_base_export_fails (e : JsError) :
  custom <> [] ->
  saveAsCopy env (after_removal custom (annotations w)) = Throw e ->
  handleExport_with select compose env w
  = ({| annotations := after_removal custom (annotations w);
        isExporting := false;
        effects := effects w
                   ++ List.map (fun a => eff_deleteAnnotation (pageIndex a) (anno_id a)) custom
                   ++ [eff_setTimeout 100; eff_saveAsCopy;
                       eff_console_error "Export failed:" (Some e)] |},
     Ok tt).
Proof.
  intros Hc Hs. unfold handleExport_with. rewrite Hexp, Hann. cbn [andb negb].
  unfold try_finally, try_catch, bind, get, setIsExporting, modify.
  cbn [annotations isExporting effects]. fold custom.
  destruct custom as [|a l] eqn:Hcust; [congruence|].
  cbn [length Nat.ltb Nat.leb].
  rewrite removing_loop. cbn [annotations isExporting effects].
  unfold effect, modify, await. cbn [annotations isExporting effects].
  rewrite Hs. cbn [annotations isExporting effects].
  rewrite <- !app_assoc. reflexivity.
Qed.

Lemma handler_compositing_fails (base : list byte) (e : JsError) :
  custom <> [] ->
  saveAsCopy env (after_removal custom (annotations w)) = Ok base ->
  snd (compose (pdflib env) base custom (fontDataStore_getAll (fontDataStore env)))
  = Throw e ->
  handleExport_with select compose env w
  = ({| annotations := after_removal custom (annotations w);
        isExporting := false;
        effects := effects w
                   ++ List.map (fun a => eff_deleteAnnotation (pageIndex a) (anno_id a)) custom
                   ++ [eff_setTimeout 100; eff_saveAsCopy; eff_compose base custom;
                       eff_console_error "Export failed:" (Some e)] |},
     Ok tt).
Proof.
  intros Hc Hs Hk. unfold handleExport_with. rewrite Hexp, Hann. cbn [andb negb].
  unfold try_finally, try_catch, bind, get, setIsExporting, modify.
  cbn [annotations isExporting effects]. fold custom.
  destruct custom as [|a l] eqn:Hcust; [congruence|].
  cbn [length Nat.ltb Nat.leb].
  rewrite removing_loop. cbn [annotations isExporting effects].
  unfold effect, modify, await. cbn [annotations isExporting effects].
  rewrite Hs. cbn [annotations isExporting effects].
  rewrite Hk. cbn [annotations isExporting effects].
  rewrite <- !app_assoc. reflexivity.
Qed.

Lemma handler_succeeds (base final : list byte) :
  custom <> [] ->
  saveAsCopy env (after_removal custom (annotations w)) = Ok base ->
  snd (compose (pdflib env) base custom (fontDataStore_getAll (fontDataStore env)))
  = Ok final ->
  handleExport_with select compose env w
  = ({| annotations := after_reimport custom (after_removal custom (annotations w));
        isExporting := false;
        effects := effects w
                   ++ List.map (fun a => eff_deleteAnnotation (pageIndex a) (anno_id a)) custom
                   ++ [eff_setTimeout 100; eff_saveAsCopy; eff_compose base custom]
                   ++ List.map eff_importAnnotations custom
                   ++ [eff_download final] |},
     Ok tt).
Proof.
  intros Hc Hs Hk. unfold handleExport_with. rewrite Hexp, Hann. cbn [andb negb].
  unfold try_finally, try_catch, bind, get, setIsExporting, modify.
  cbn [annotations isExporting effects]. fold custom.
  destruct custom as [|a l] eqn:Hcust; [congruence|].
  cbn [length Nat.ltb Nat.leb].
  rewrite removing_loop. cbn [annotations isExporting effects].
  unfold effect, modify, await. cbn [annotations isExporting effects].
  rewrite Hs. cbn [annotations isExporting effects].
  rewrite Hk. rewrite reimporting_loop. cbn [annotations isExporting effects].
  unfold ret. cbn [annotations isExporting effects].
  rewrite <- !app_assoc. reflexivity.
Qed.
End Handler.

Lemma downloads_of_deletes (l : list PdfAnnotationObject) :
  downloads (List.map (fun a => eff_deleteAnnotation (pageIndex a) (anno_id a)) l) = [].
Proof. unfold downloads. induction l as [|a l IH]; cbn in *; congruence. Qed.

Lemma deleted_by_of_deletes (l : list PdfAnnotationObject) :
  deleted_by (List.map (fun a => eff_deleteAnnotation (pageIndex a) (anno_id a)) l)
  = List.map (fun a => (pageIndex a, anno_id a)) l.
Proof. unfold deleted_by. induction l as [|a l IH]; cbn in *; congruence. Qed.

(** C3.  When no tracked annotation needs custom rendering, the handler
    deletes nothing from the primary engine (its live state is unchanged
    and no [deleteAnnotation] call is made), never calls the compositor,
    and the bytes it hands out are exactly the bytes the primary engine's
    base export resolved with. *)
Theorem export_without_custom_annotations (env : Env) (w : World)
    (Hexp : exportCapability env = true)
    (Hann : annotationCapability env = true)
    (Hnone : getCustomRenderAnnotations (tracked_objects (annotations w)) = []) :
  let w' := fst (handleExport env w) in
  annotations w' = annotations w
  /\ deleted_by (effects w') = deleted_by (effects w)
  /\ compose_calls (effects w') = compose_calls (effects w)
  /\ (forall base, saveAsCopy env (annotations w) = Ok base ->
      downloads (effects w') = (downloads (effects w) ++ [base])%list)
  /\ (forall e, saveAsCopy env (annotations w) = Throw e ->
      downloads (effects w') = downloads (effects w)).
Proof.
  unfold handleExport.
  rewrite (handler_nothing_selected _ exportPdfWithCustomAnnotations env w Hexp Hann Hnone).
  destruct (saveAsCopy env (annotations w)) as [base|e]; cbn [fst annotations effects];
    rewrite deleted_by_app, compose_calls_app, downloads_app; cbn;
    rewrite ?app_nil_r, ?Nat.add_0_r; repeat split; try reflexivity;
    intros ? [=]; subst; reflexivity.
Qed.

Lemma export_without_custom_annotations_witness :
  downloads (effects (fst (handleExport env_plain world_stamp)))
  = [[x25; x50; x44; x46]].
Proof.
  apply (proj1 (proj2 (proj2 (proj2
           (export_without_custom_annotations env_plain world_stamp
              eq_refl eq_refl eq_refl))))).
  reflexivity.
Defined.

(** C2 (as amended).  When annotations have been removed and then the base
    export or the compositor throws, the handler catches the originating
    error, logs it under "Export failed:" as its last effect, clears the
    exporting flag and resolves; it does not reject, and nothing is
    downloaded. *)
Theorem handleExport_failure_is_caught (env : Env) (w : World) (e : JsError)
    (Hexp : exportCapability env = true)
    (Hann : annotationCapability env = true) :
  let custom := getCustomRenderAnnotations (tracked_objects (annotations w)) in
  let removed := after_removal custom (annotations w) in
  custom <> [] ->
  (saveAsCopy env removed = Throw e
   \/ exists base,
        saveAsCopy env removed = Ok base
        /\ snd (exportPdfWithCustomAnnotations (pdflib env) base custom
                  (fontDataStore_getAll (fontDataStore env))) = Throw e) ->
  snd (handleExport env w) = Ok tt
  /\ isExporting (fst (handleExport env w)) = false
  /\ exists effs,
       effects (fst (handleExport env w))
       = (effects w ++ effs ++ [eff_console_error "Export failed:" (Some e)])%list
       /\ downloads effs = []
       /\ deleted_by effs = List.map (fun a => (pageIndex a, anno_id a)) custom.
Proof.
  intros custom removed Hc [Hs|[base [Hs Hk]]]; unfold handleExport.
  - rewrite (handler_base_export_fails _ exportPdfWithCustomAnnotations env w
               Hexp Hann e Hc Hs).
    cbn [fst snd isExporting effects]. repeat split.
    exists (List.map (fun a => eff_deleteAnnotation (pageIndex a) (anno_id a)) custom
            ++ [eff_setTimeout 100; eff_saveAsCopy])%list.
    rewrite <- !app_assoc. split; [reflexivity|].
    rewrite downloads_app, deleted_by_app, downloads_of_deletes, deleted_by_of_deletes.
    cbn. rewrite app_nil_r. split; reflexivity.
  - rewrite (handler_compositing_fails _ exportPdfWithCustomAnnotations env w
               Hexp Hann base e Hc Hs Hk).
    cbn [fst snd isExporting effects]. repeat split.
    exists (List.map (fun a => eff_deleteAnnotation (pageIndex a) (anno_id a)) custom
            ++ [eff_setTimeout 100; eff_saveAsCopy; eff_compose base custom])%list.
    rewrite <- !app_assoc. split; [reflexivity|].
    rewrite downloads_app, deleted_by_app, downloads_of_deletes, deleted_by_of_deletes.
    cbn. rewrite app_nil_r. split; reflexivity.
Qed.

Lemma handleExport_failure_is_caught_witness :
  snd (handleExport env_base_export_fails world_u1) = Ok tt
  /\ isExporting (fst (handleExport env_base_export_fails world_u1)) = false.
Proof.
  assert (H := handleExport_failure_is_caught env_base_export_fails world_u1
                 (Error "saveAsCopy failed") eq_refl eq_refl).
  cbv zeta in H.
  destruct H as (H1 & H2 & _); [discriminate | left; reflexivity |].
  exact (conj H1 H2).
Defined.

(** C2, the claim as written fails: the base export throws after the
    underline annotation has been deleted, and the handler's promise is
    fulfilled instead of rejecting with that error. *)
Lemma handleExport_does_not_reject :
  deleted_by (effects (fst (handleExport env_base_export_fails world_u1)))
  = [(0, "u1")]
  /\ saveAsCopy env_base_export_fails
       (annotations (fst (handleExport env_base_export_fails world_u1)))
     = Throw (Error "saveAsCopy failed")
  /\ snd (handleExport env_base_export_fails world_u1) = Ok tt
  /\ snd (handleExport env_base_export_fails world_u1)
     <> Throw (Error "saveAsCopy failed").
Proof. repeat split. discriminate. Qed.

(** C1, the code at the failing inputs.  The engine holds the underline
    annotation "u1".  When the base export rejects, and likewise when the
    compositor rejects, the annotation has been deleted and is never
    imported again: the handler settles with "u1" missing from the live
    state.  The handler of the react-tailwind example loses the free-text
    annotation "t1" in the same way. *)
Theorem handleExport_failure_loses_annotations :
  annotation_ids (annotations world_u1) = {["u1"]}
  /\ annotation_ids (annotations (fst (handleExport env_base_export_fails world_u1)))
     = ∅
  /\ effects (fst (handleExport env_base_export_fails world_u1))
     = [eff_deleteAnnotation 0 "u1"; eff_setTimeout 100; eff_saveAsCopy;
        eff_console_error "Export failed:" (Some (Error "saveAsCopy failed"))]
  /\ annotation_ids (annotations (fst (handleExport env_compositing_fails world_u1)))
     = ∅
  /\ effects (fst (handleExport env_compositing_fails world_u1))
     = [eff_deleteAnnotation 0 "u1"; eff_setTimeout 100; eff_saveAsCopy;
        eff_compose [x25; x50; x44; x46] [underline_u1];
        eff_console_error "Export failed:"
          (Some (Error "Failed to parse PDF document"))]
  /\ annotation_ids (annotations world_u1)
     <> annotation_ids (annotations (fst (handleExport env_base_export_fails world_u1)))
  /\ annotation_ids (annotations world_t1) = {["t1"]}
  /\ annotation_ids
       (annotations (fst (handleExport_react env_base_export_fails world_t1)))
     = ∅.
Proof.
  assert (H1 : annotation_ids (annotations world_u1) = {["u1"]}).
  { unfold annotation_ids. cbn. set_solver. }
  assert (H2 : annotation_ids
                 (annotations (fst (handleExport env_base_export_fails world_u1))) = ∅).
  { reflexivity. }
  assert (H3 : annotation_ids (annotations world_t1) = {["t1"]}).
  { unfold annotation_ids. cbn. set_solver. }
  repeat split; try assumption; try reflexivity.
  rewrite H1, H2. set_solver.
Qed.

(** ** The embedding cache of the compositor *)


Section EmbeddingCache.
Variable lib : PdfLib.
Variable fontDataMap : gmap string (list byte).
Variable name : string.










Variable data : list byte.
Variable font : PDFFont.
Hypothesis Hdata : fontDataMap !! name = Some data.
Hypothesis Hembed : embedFont lib data = Ok font.








End EmbeddingCache.





(** No call at all when every annotation with the name lies off the
    document: the page check comes before the font is looked at. *)
Lemma embedFont_not_called_off_page :
  let off id := mkAnno id FREETEXT 7 example_segment
                  (Some (CustomFontRef "Sarabun" "Sarabun Regular" "Sarabun" "Regular"))
                  None 12 (Some "text") None None None None None in
  embed_calls "Sarabun"
    (events (fst (exportPdfWithCustomAnnotations accepting_lib []
                    [off "a"; off "b"] {[ "Sarabun" := [x00; x01; x00; x00] ]})))
  = 0%nat.
Proof. vm_compute; reflexivity. Qed.

(** ** Resolving a postscript name ([loadFontData]) *)

Lemma append_nil_l (s : string) : "" +:+ s = s.
Proof. reflexivity. Qed.

Lemma append_cons (c : ascii) (s t : string) :
  String c s +:+ t = String c (s +:+ t).
Proof. reflexivity. Qed.

Lemma all_digits_no_hash (a b : string) : all_digits (a +:+ "#" +:+ b) = false.
Proof.
  change ("#" +:+ b) with (String "#" b).
  induction a as [|c a IH]; rewrite ?append_cons, ?append_nil_l; cbn [all_digits].
  - reflexivity.
  - rewrite IH. apply andb_false_r.
Qed.

(** A name has at most one reading as [<raw>#<digits>]. *)
Lemma hash_digits_unique (p p' d d' : string) :
  all_digits d = true -> all_digits d' = true ->
  p +:+ "#" +:+ d = p' +:+ "#" +:+ d' ->
  p = p' /\ d = d'.
Proof.
  intros Hd Hd'. revert p'.
  change ("#" +:+ d) with (String "#" d). change ("#" +:+ d') with (String "#" d').
  induction p as [|c p IH]; intros [|c' p'] H;
    rewrite ?append_cons, ?append_nil_l in H.
  - injection H as ->. auto.
  - injection H as <- ->.
    change (String "#" d') with ("#" +:+ d') in Hd.
    rewrite all_digits_no_hash in Hd. discriminate.
  - injection H as -> <-.
    change (String "#" d) with ("#" +:+ d) in Hd'.
    rewrite all_digits_no_hash in Hd'. discriminate.
  - injection H as -> H. destruct (IH _ H) as [-> ->]. auto.
Qed.

Lemma greedy_splits_In (s p r : string) :
  In (p, r) (greedy_splits s) <-> p <> "" /\ s = p +:+ r.
Proof.
  revert p r. induction s as [|c s IH]; intros p r; cbn [greedy_splits].
  - split; [intros []|]. intros [Hp H]. destruct p; [congruence|discriminate].
  - rewrite in_app_iff, in_map_iff. split.
    + intros [[[p0 r0] [[= <- <-] Hin]]|[[= <- <-]|[]]].
      * apply IH in Hin as [_ ->]. split; [discriminate|reflexivity].
      * split; [discriminate|reflexivity].
    + intros [Hp H]. destruct p as [|c' p]; [congruence|].
      rewrite append_cons in H. injection H as <- ->.
      destruct p as [|c'' p].
      * right. left. reflexivity.
      * left. exists (String c'' p, r). split; [reflexivity|].
        apply IH. split; [discriminate|reflexivity].
Qed.

Lemma hash_digits_end_inv (r : string) :
  hash_digits_end r = true ->
  exists d, r = "#" +:+ d /\ d <> "" /\ all_digits d = true.
Proof.
  destruct r as [|c d]; [discriminate|]. cbn.
  destruct (Ascii.eqb_spec c "#") as [->|Hc].
  - intros H. apply andb_true_iff in H as [H1 H2].
    exists d. repeat split; [|exact H2].
    intros ->. discriminate.
  - intros H. exfalso.
    destruct c as [[] [] [] [] [] [] [] []]; try discriminate. congruence.
Qed.

Lemma hash_digits_end_intro (d : string) :
  d <> "" -> all_digits d = true -> hash_digits_end ("#" +:+ d) = true.
Proof.
  intros Hne Hd. change ("#" +:+ d) with (String "#" d). cbn. rewrite Hd.
  destruct d; [congruence|reflexivity].
Qed.

(** The pattern matches exactly the names [<raw>#<digits>] with [raw]
    non-empty and free of line terminators, and captures [raw] and the
    digits. *)
Lemma duplicateMatch_spec (s p d : string) :
  duplicateMatch s = Some (p, d)
  <-> s = p +:+ "#" +:+ d /\ dot_plus p = true /\ d <> "" /\ all_digits d = true.
Proof.
  unfold duplicateMatch. split.
  - destruct (List.find _ _) as [[p' r']|] eqn:Hf; [|discriminate].
    apply find_some in Hf as [Hin Hpred]. cbn [fst snd] in Hpred.
    apply andb_true_iff in Hpred as [Hdot Hhash].
    apply greedy_splits_In in Hin as [_ ->].
    apply hash_digits_end_inv in Hhash as (d' & -> & Hne & Hd').
    cbn. intros [= <- <-]. auto.
  - intros (-> & Hdot & Hne & Hd).
    destruct (List.find _ _) as [[p' r']|] eqn:Hf.
    + apply find_some in Hf as [Hin Hpred]. cbn [fst snd] in Hpred.
      apply andb_true_iff in Hpred as [Hdot' Hhash].
      apply greedy_splits_In in Hin as [_ Heq].
      apply hash_digits_end_inv in Hhash as (d' & -> & Hne' & Hd').
      apply hash_digits_unique in Heq as [-> ->]; [reflexivity|assumption..].
    + exfalso.
      pose proof (find_none _ _ Hf (p, "#" +:+ d)) as Hnone.
      cbn [fst snd] in Hnone.
      rewrite Hdot, (hash_digits_end_intro d Hne Hd) in Hnone.
      assert (Hin : In (p, "#" +:+ d) (greedy_splits (p +:+ "#" +:+ d))).
      { apply greedy_splits_In. split; [|reflexivity].
        intros ->. discriminate. }
      specialize (Hnone Hin). discriminate.
Qed.

Lemma duplicateMatch_none (name : string) :
  (forall raw ds, dot_plus raw = true -> ds <> "" -> all_digits ds = true ->
                  name <> raw +:+ "#" +:+ ds) ->
  duplicateMatch name = None.
Proof.
  intros H. destruct (duplicateMatch name) as [[p d]|] eqn:Hm; [|reflexivity].
  apply duplicateMatch_spec in Hm as (-> & Hdot & Hne & Hd).
  exfalso. exact (H p d Hdot Hne Hd eq_refl).
Qed.

Lemma loadFontData_target (w : Window) (fonts : list FontData)
    (name target : string) (idx : option N) :
  w_queryLocalFonts w = Some (Ok fonts) ->
  match duplicateMatch name with
  | Some (g1, g2) => (g1, parseInt10 g2)
  | None => (name, Some 0%N)
  end = (target, idx) ->
  loadFontData w name = resolved (array_at (same_name target fonts) idx).
Proof.
  intros Hq Ht. unfold loadFontData, isLocalFontAccessSupported.
  rewrite Hq. cbn [negb]. rewrite Ht.
  unfold same_name, resolved.
  destruct (array_at _ idx) as [f|]; reflexivity.
Qed.

(** *** Decimal numerals *)

Lemma parse_string_of_uint (d : Decimal.uint) (acc : N) :
  parseInt10_digits (NilEmpty.string_of_uint d) acc = uint_value d acc.
Proof.
  revert acc. induction d; intros acc; cbn; try reflexivity; rewrite IHd; reflexivity.
Qed.

Lemma pos_of_uint_acc_value (d : Decimal.uint) (acc : positive) :
  N.pos (Pos.of_uint_acc d acc) = uint_value d (N.pos acc).
Proof.
  revert acc. induction d; intros acc; cbn [Pos.of_uint_acc uint_value];
    try reflexivity; rewrite IHd; f_equal; lia.
Qed.

Lemma pos_of_uint_value (d : Decimal.uint) : Pos.of_uint d = uint_value d 0.
Proof.
  induction d; cbn [Pos.of_uint uint_value]; try reflexivity;
    try exact IHd; rewrite pos_of_uint_acc_value; reflexivity.
Qed.

Lemma all_digits_string_of_uint (d : Decimal.uint) :
  all_digits (NilEmpty.string_of_uint d) = true.
Proof. induction d; cbn; auto. Qed.

Lemma number_to_string_digits (n : N) :
  number_to_string n <> "" /\ all_digits (number_to_string n) = true.
Proof.
  unfold number_to_string, NilZero.string_of_uint.
  destruct (N.to_uint n) eqn:E; try (split; [discriminate|]);
    try reflexivity; apply (all_digits_string_of_uint (_ u)).
Qed.

Lemma parseInt10_number_to_string (n : N) :
  parseInt10 (number_to_string n) = Some n.
Proof.
  assert (Hv : uint_value (N.to_uint n) 0 = n).
  { rewrite <- pos_of_uint_value. apply DecimalN.Unsigned.of_to. }
  unfold number_to_string, NilZero.string_of_uint.
  destruct (N.to_uint n) eqn:E; cbn in Hv; subst n;
    try reflexivity;
    unfold parseInt10; cbn -[parseInt10_digits uint_value];
    (rewrite <- parse_string_of_uint; reflexivity).
Qed.

Lemma filter_head_find {A} (p : A -> bool) (l : list A) :
  nth_error (List.filter p l) 0 = List.find p l.
Proof.
  induction l as [|x l IH]; cbn; [reflexivity|].
  destruct (p x); [reflexivity|exact IH].
Qed.

Lemma parseInt10_value (s : string) (n : N) :
  parseInt10 s = Some n -> parseInt10_digits s 0 = n.
Proof.
  unfold parseInt10. destruct s as [|c s]; [discriminate|].
  remember (parseInt10_digits (String c s) 0) as v.
  destruct (is_digit c); [|discriminate]. intros [= ->]. reflexivity.
Qed.

(** C6.  With the platform's current list [fonts] at hand: a name
    [<raw>#<n>], where [raw] is what [(.+)] can match (non-empty, no line
    terminator) and [n] is a decimal numeral, resolves to the element of
    index [n] among the fonts of [fonts] whose raw postscript name is
    [raw], in the order of [fonts]; every name that is not of that form
    resolves to the first font whose raw postscript name is the name
    itself; and when there is no such element the load settles with [null]:
    the only way it can throw is the blob read of the font it found. *)
Theorem loadFontData_resolves (w : Window) (fonts : list FontData)
    (Hq : w_queryLocalFonts w = Some (Ok fonts)) :
  (forall raw n,
     dot_plus raw = true ->
     loadFontData w (raw +:+ "#" +:+ number_to_string n)
     = resolved (nth_error (same_name raw fonts) (N.to_nat n)))
  /\ (forall raw ds,
        dot_plus raw = true -> ds <> "" -> all_digits ds = true ->
        loadFontData w (raw +:+ "#" +:+ ds)
        = resolved (nth_error (same_name raw fonts)
                      (N.to_nat (parseInt10_digits ds 0))))
  /\ (forall name,
        (forall raw ds, dot_plus raw = true -> ds <> "" -> all_digits ds = true ->
                        name <> raw +:+ "#" +:+ ds) ->
        loadFontData w name
        = resolved (List.find (fun f => String.eqb (fd_postscriptName f) name) fonts))
  /\ resolved None = Ok None
  /\ (forall name e,
        loadFontData w name = Throw e ->
        exists f, In f fonts /\ fd_blob f = Throw e).
Proof.
  assert (Hdigits : forall raw ds,
            dot_plus raw = true -> ds <> "" -> all_digits ds = true ->
            loadFontData w (raw +:+ "#" +:+ ds)
            = resolved (nth_error (same_name raw fonts)
                          (N.to_nat (parseInt10_digits ds 0)))).
  { intros raw ds Hdot Hne Hd.
    rewrite (loadFontData_target w fonts _ raw (parseInt10 ds) Hq).
    - unfold parseInt10. destruct ds as [|c ds]; [congruence|].
      cbn [all_digits] in Hd. apply andb_true_iff in Hd as [Hc _].
      rewrite Hc. reflexivity.
    - rewrite (proj2 (duplicateMatch_spec _ raw ds)); auto. }
  split; [|split; [exact Hdigits|split; [|split]]].
  - intros raw n Hdot.
    destruct (number_to_string_digits n) as [Hne Hd].
    rewrite (Hdigits raw _ Hdot Hne Hd).
    rewrite (parseInt10_value _ n (parseInt10_number_to_string n)). reflexivity.
  - intros name Hnot.
    rewrite (loadFontData_target w fonts name name (Some 0%N) Hq).
    + cbn [array_at N.to_nat]. unfold same_name. rewrite filter_head_find. reflexivity.
    + rewrite (duplicateMatch_none name Hnot). reflexivity.
  - reflexivity.
  - intros name e He.
    destruct (match duplicateMatch name with
              | Some (g1, g2) => (g1, parseInt10 g2)
              | None => (name, Some 0%N)
              end) as [target idx] eqn:Ht.
    rewrite (loadFontData_target w fonts name target idx Hq Ht) in He.
    unfold resolved in He.
    destruct (array_at (same_name target fonts) idx) as [f|] eqn:Ha; [|discriminate].
    exists f. split.
    + destruct idx as [i|]; [|discriminate]. cbn in Ha.
      apply nth_error_In in Ha. unfold same_name in Ha.
      apply List.filter_In in Ha as [Hin _]. exact Hin.
    + destruct (fd_blob f); [discriminate|congruence].
Qed.

Lemma loadFontData_resolves_witness :
  loadFontData (mkWindow (Some (Ok namesakes))) "Name#2"
  = Ok (Some (mkLoadedFont "Name" "Name C" "Name" "Regular"
                [x00; x01; x00; x00] TrueType)).
Proof.
  exact (proj1 (loadFontData_resolves (mkWindow (Some (Ok namesakes)))
                  namesakes eq_refl)
           "Name" 2%N eq_refl).
Defined.

(** A name whose own raw spelling ends in [#<digits>] is still read as a
    duplicate reference: the font is never found under its exposed name. *)
Lemma loadFontData_hash_name_unreachable :
  let f := mkFontData "Fam" "Fam One" "Fam#1" "Regular" (Ok [x00]) in
  loadFontData (mkWindow (Some (Ok [f]))) "Fam#1" = Ok None.
Proof. reflexivity. Qed.

(** ** Disambiguation of duplicate postscript names ([queryLocalFonts]) *)

Lemma length_append (a b : string) :
  String.length (a +:+ b) = (String.length a + String.length b)%nat.
Proof.
  induction a as [|c a IH]; rewrite ?append_cons, ?append_nil_l; cbn [String.length];
    [reflexivity|]. rewrite IH. reflexivity.
Qed.

Lemma suffixed_name_differs (raw x : string) :
  String.eqb (raw +:+ "#" +:+ x) raw = false.
Proof.
  apply String.eqb_neq. intros H.
  apply (f_equal String.length) in H. rewrite !length_append in H.
  cbn in H. lia.
Qed.

Lemma occurrences_snoc (raw : string) (before : list FontData) (f : FontData) :
  occurrences raw (before ++ [f])%list
  = (occurrences raw before
     + if String.eqb (fd_postscriptName f) raw then 1 else 0)%N.
Proof.
  unfold occurrences, same_name. rewrite List.filter_app, length_app. cbn.
  destruct (String.eqb (fd_postscriptName f) raw); cbn; lia.
Qed.

(** One call of the callback: the font gets the name and family label of
    the prose description, and [seenNames] keeps counting. *)
Lemma expose_font_spec (seenNames : gmap string N) (before : list FontData)
    (f : FontData) :
  seen_matches seenNames before ->
  exists seenNames',
    expose_font seenNames f
    = (seenNames', exposed f (occurrences (fd_postscriptName f) before))
    /\ seen_matches seenNames' (before ++ [f])%list.
Proof.
  intros Hs. unfold expose_font. rewrite (Hs (fd_postscriptName f)).
  destruct (occurrences (fd_postscriptName f) before =? 0)%N eqn:Hk.
  - apply N.eqb_eq in Hk. eexists. split.
    + cbv zeta iota beta. unfold exposed, exposed_family, exposed_name, has_marker.
      rewrite Hk. cbn [N.eqb]. rewrite String.eqb_refl. cbn [negb].
      reflexivity.
    + intros raw. rewrite occurrences_snoc.
      destruct (String.eqb_spec (fd_postscriptName f) raw) as [<-|Hne].
      * rewrite lookup_insert_eq, Hk. reflexivity.
      * rewrite lookup_insert_ne by exact Hne. rewrite N.add_0_r. apply Hs.
  - apply N.eqb_neq in Hk. eexists. split.
    + cbv zeta iota beta. unfold exposed, exposed_family, exposed_name, has_marker.
      replace (occurrences (fd_postscriptName f) before - 1 + 1)%N
        with (occurrences (fd_postscriptName f) before) by lia.
      rewrite (proj2 (N.eqb_neq _ _) Hk).
      rewrite suffixed_name_differs. cbn [negb].
      rewrite lookup_insert_eq. reflexivity.
    + intros raw. rewrite occurrences_snoc.
      destruct (String.eqb_spec (fd_postscriptName f) raw) as [<-|Hne].
      * rewrite lookup_insert_eq.
        replace (_ + 1 =? 0)%N with false by (symmetry; apply N.eqb_neq; lia).
        f_equal. lia.
      * rewrite lookup_insert_ne by exact Hne. rewrite N.add_0_r. apply Hs.
Qed.

Lemma expose_fonts_from (seenNames : gmap string N) (before fonts : list FontData) :
  seen_matches seenNames before ->
  expose_fonts seenNames fonts = expose_spec before fonts.
Proof.
  revert seenNames before. induction fonts as [|f rest IH]; intros seenNames before Hs.
  - reflexivity.
  - cbn [expose_fonts expose_spec].
    destruct (expose_font_spec seenNames before f Hs) as (seen' & -> & Hs').
    f_equal. apply IH, Hs'.
Qed.

(** The stateful scan computes the counting description. *)
Lemma expose_fonts_spec (fonts : list FontData) :
  expose_fonts ∅ fonts = expose_spec [] fonts.
Proof.
  apply expose_fonts_from. intros raw. rewrite lookup_empty. reflexivity.
Qed.

Lemma expose_spec_nth (before pre post : list FontData) (f : FontData) :
  nth_error (expose_spec before (pre ++ f :: post)%list) (length pre)
  = Some (exposed f (occurrences (fd_postscriptName f) (before ++ pre)%list)).
Proof.
  revert before. induction pre as [|g pre IH]; intros before.
  - cbn. rewrite app_nil_r. reflexivity.
  - cbn [app length nth_error expose_spec]. rewrite IH, <- app_assoc. reflexivity.
Qed.

(** The font that follows [pre] in a snapshot and has [k] namesakes in
    [pre]: first occurrences ([k = 0]) keep their name, the others are
    exposed as [<raw>#<k>]. *)
Lemma queryLocalFonts_kth_occurrence (w : Window) (pre post : list FontData)
    (f : FontData) :
  w_queryLocalFonts w = Some (Ok (pre ++ f :: post)%list) ->
  exists exposedFonts,
    queryLocalFonts w = Ok exposedFonts
    /\ nth_error exposedFonts (length pre)
       = Some (exposed f (occurrences (fd_postscriptName f) pre)).
Proof.
  intros Hq. unfold queryLocalFonts, isLocalFontAccessSupported. rewrite Hq.
  cbn [negb]. eexists. split; [reflexivity|].
  rewrite expose_fonts_spec. apply (expose_spec_nth [] pre post f).
Qed.

Lemma startsWith_map (f : ascii -> ascii) (s sub : string) :
  startsWith s sub = true -> startsWith (map_string f s) (map_string f sub) = true.
Proof.
  revert s. induction sub as [|a sub IH]; intros [|b s]; cbn; try easy.
  intros H. apply andb_true_iff in H as [Hab Hs].
  apply Ascii.eqb_eq in Hab as ->. rewrite Ascii.eqb_refl. cbn. auto.
Qed.

Lemma includes_map (f : ascii -> ascii) (s sub : string) :
  includes s sub = true -> includes (map_string f s) (map_string f sub) = true.
Proof.
  induction s as [|b s IH]; cbn [includes map_string]; intros H.
  - rewrite orb_false_r in *. apply (startsWith_map f "" sub H).
  - apply orb_true_iff in H as [H|H].
    + pose proof (startsWith_map f (String b s) sub H) as H'.
      cbn [map_string] in H'. rewrite H'. reflexivity.
    + rewrite (IH H). apply orb_true_r.
Qed.

(** A full name that contains the marker, in either spelling, gets the
    marker label whatever its rank among its namesakes. *)
Lemma marker_takes_priority (f : FontData) (k : N) :
  includes (fd_fullName f) "IT9" = true \/ includes (fd_fullName f) "IT๙" = true ->
  lf_family (exposed f k) = fd_family f +:+ " (IT9)".
Proof.
  intros H. cbn [exposed lf_family]. unfold exposed_family, has_marker, toUpperCase.
  destruct H as [H|H]; apply (includes_map upper_ascii) in H;
    change (map_string upper_ascii "IT9") with "IT9" in H;
    change (map_string upper_ascii "IT๙") with "IT๙" in H;
    rewrite H; rewrite ?orb_true_r; reflexivity.
Qed.

Lemma variant_label (f : FontData) (k : N) :
  has_marker (fd_fullName f) = false -> k <> 0%N ->
  lf_postscriptName (exposed f k) = fd_postscriptName f +:+ "#" +:+ number_to_string k
  /\ lf_family (exposed f k)
     = fd_family f +:+ " (Variant " +:+ number_to_string k +:+ ")".
Proof.
  intros Hm Hk. cbn [exposed lf_family lf_postscriptName].
  unfold exposed_family, exposed_name. rewrite Hm.
  rewrite (proj2 (N.eqb_neq _ _) Hk). auto.
Qed.

(** C5, the code at the failing input.  Two fonts named "Arial" and one
    whose raw postscript name is "Arial#1": the second "Arial" is exposed
    as "Arial#1", the third font keeps its raw name "Arial#1", and the
    snapshot handed back by the font capability carries the same
    postscript name twice. *)
Theorem queryLocalFonts_exposed_names_collide :
  exists fonts,
    queryLocalFonts (mkWindow (Some (Ok colliding_snapshot))) = Ok fonts
    /\ snd (requestFontAccess (mkWindow (Some (Ok colliding_snapshot))) fresh_plugin)
       = Ok fonts
    /\ List.map lf_postscriptName fonts = ["Arial"; "Arial#1"; "Arial#1"]
    /\ List.map lf_family fonts = ["Arial"; "Arial (Variant 1)"; "Arial"]
    /\ ~ List.NoDup (List.map lf_postscriptName fonts).
Proof.
  eexists. split; [vm_compute; reflexivity|].
  split; [vm_compute; reflexivity|].
  split; [reflexivity|]. split; [reflexivity|].
  cbn [List.map lf_postscriptName]. intros H.
  inversion H as [|x l _ H']; subst. inversion H' as [|y l' Hnin _]; subst.
  apply Hnin. left. reflexivity.
Qed.

(** *** Where the exposed names are distinct *)

Lemma includes_hash_middle (a b : string) : includes (a +:+ "#" +:+ b) "#" = true.
Proof.
  change ("#" +:+ b) with (String "#" b).
  induction a as [|c a IH]; rewrite ?append_cons, ?append_nil_l.
  - destruct b; reflexivity.
  - cbn [includes]. rewrite IH. apply orb_true_r.
Qed.

Lemma number_to_string_inj (k k' : N) :
  number_to_string k = number_to_string k' -> k = k'.
Proof.
  intros H. pose proof (parseInt10_number_to_string k) as Hk.
  rewrite H, parseInt10_number_to_string in Hk. congruence.
Qed.

Lemma exposed_name_inj (r r' : string) (k k' : N) :
  includes r "#" = false -> includes r' "#" = false ->
  exposed_name r k = exposed_name r' k' -> r = r' /\ k = k'.
Proof.
  intros Hr Hr'. unfold exposed_name.
  destruct (N.eqb_spec k 0) as [->|Hk], (N.eqb_spec k' 0) as [->|Hk']; intros H.
  - auto.
  - subst r. rewrite includes_hash_middle in Hr. discriminate.
  - subst r'. rewrite includes_hash_middle in Hr'. discriminate.
  - apply hash_digits_unique in H as [-> H];
      try apply number_to_string_digits.
    split; [reflexivity|]. apply number_to_string_inj, H.
Qed.

Lemma occurrences_app_le (raw : string) (before more : list FontData) :
  (occurrences raw before <= occurrences raw (before ++ more))%N.
Proof.
  unfold occurrences, same_name. rewrite List.filter_app, length_app. lia.
Qed.

(** Every font exposed after [before] carries a rank that counts at least
    its namesakes in [before]. *)
Lemma expose_spec_In (before fonts : list FontData) (lf : LocalFont) :
  In lf (expose_spec before fonts) ->
  exists g k, In g fonts /\ lf = exposed g k
              /\ (occurrences (fd_postscriptName g) before <= k)%N.
Proof.
  revert before. induction fonts as [|f rest IH]; intros before; cbn [expose_spec].
  - intros [].
  - intros [<-|Hin].
    + exists f, (occurrences (fd_postscriptName f) before).
      split; [left; reflexivity|]. split; [reflexivity|lia].
    + apply IH in Hin as (g & k & Hg & -> & Hk).
      exists g, k. split; [right; exact Hg|]. split; [reflexivity|].
      pose proof (occurrences_app_le (fd_postscriptName g) before [f]). lia.
Qed.

Lemma expose_spec_NoDup (before fonts : list FontData) :
  (forall f, In f fonts -> includes (fd_postscriptName f) "#" = false) ->
  List.NoDup (List.map lf_postscriptName (expose_spec before fonts)).
Proof.
  revert before. induction fonts as [|f rest IH]; intros before Hfree;
    cbn [expose_spec List.map].
  - constructor.
  - constructor.
    + intros Hin. apply in_map_iff in Hin as (lf & Hname & Hin).
      apply expose_spec_In in Hin as (g & k & Hg & -> & Hk).
      cbn [exposed lf_postscriptName] in Hname.
      apply exposed_name_inj in Hname as [Hraw ->];
        [|apply Hfree; right; exact Hg | apply Hfree; left; reflexivity].
      rewrite Hraw, occurrences_snoc, String.eqb_refl in Hk. lia.
    + apply IH. intros g Hg. apply Hfree. right. exact Hg.
Qed.

(** X2.  In a snapshot none of whose raw postscript names contains a hash,
    the exposed names are pairwise distinct. *)
Lemma queryLocalFonts_distinct_without_hash (w : Window) (fonts : list FontData) :
  w_queryLocalFonts w = Some (Ok fonts) ->
  (forall f, In f fonts -> includes (fd_postscriptName f) "#" = false) ->
  exists exposedFonts,
    queryLocalFonts w = Ok exposedFonts
    /\ List.NoDup (List.map lf_postscriptName exposedFonts).
Proof.
  intros Hq Hfree. unfold queryLocalFonts, isLocalFontAccessSupported. rewrite Hq.
  cbn [negb]. eexists. split; [reflexivity|].
  rewrite expose_fonts_spec. apply expose_spec_NoDup, Hfree.
Qed.

(** ** The success path restores the annotation ids *)

Lemma elem_annotation_ids (st : AnnotationState) (x : string) :
  x ∈ annotation_ids st <-> exists a, In a (tracked_objects st) /\ anno_id a = x.
Proof.
  unfold annotation_ids. rewrite elem_of_list_to_set, list_elem_of_In, in_map_iff.
  split; intros (a & H1 & H2); exists a; auto.
Qed.

Lemma tracked_objects_In (st : AnnotationState) (b : PdfAnnotationObject) :
  In b (tracked_objects st)
  <-> exists entries k t, byUid st = Some entries /\ In (k, t) entries
                          /\ object t = Some b.
Proof.
  unfold tracked_objects. destruct (byUid st) as [entries|].
  - rewrite in_flat_map. split.
    + intros ([k t] & Hin & Hb). cbn in Hb.
      destruct (object t) as [a|] eqn:Ho; [|destruct Hb].
      destruct Hb as [->|[]]. exists entries, k, t. auto.
    + intros (entries' & k & t & [= <-] & Hin & Ho).
      exists (k, t). split; [exact Hin|]. cbn. rewrite Ho. left. reflexivity.
  - split; [intros []|]. intros (? & ? & ? & [=] & _).
Qed.

Lemma engine_delete_In (p : Z) (i : string) (st : AnnotationState)
    (b : PdfAnnotationObject) :
  In b (tracked_objects (engine_delete p i st))
  <-> In b (tracked_objects st)
      /\ (pageIndex b =? p) && String.eqb (anno_id b) i = false.
Proof.
  rewrite !tracked_objects_In. unfold engine_delete. cbn [byUid].
  destruct (byUid st) as [entries|].
  - split.
    + intros (es & k & t & [= <-] & Hin & Ho).
      apply List.filter_In in Hin as [Hin Hkeep]. cbn [snd] in Hkeep.
      rewrite Ho in Hkeep. apply negb_true_iff in Hkeep.
      split; [|exact Hkeep]. exists entries, k, t. auto.
    + intros [(es & k & t & [= <-] & Hin & Ho) Hkeep].
      eexists _, k, t. split; [reflexivity|]. split; [|exact Ho].
      apply List.filter_In. split; [exact Hin|]. cbn [snd].
      rewrite Ho, Hkeep. reflexivity.
  - split.
    + intros (? & ? & ? & [=] & _).
    + intros [(? & ? & ? & [=] & _) _].
Qed.

Lemma after_removal_In (l : list PdfAnnotationObject) (st : AnnotationState)
    (b : PdfAnnotationObject) :
  In b (tracked_objects (after_removal l st))
  <-> In b (tracked_objects st) /\ deleted_with l b = false.
Proof.
  unfold after_removal. revert st. induction l as [|c l IH]; intros st; cbn [fold_left].
  - cbn. tauto.
  - rewrite IH, engine_delete_In. cbn [deleted_with existsb].
    rewrite orb_false_iff. tauto.
Qed.

Lemma engine_import_In (a : PdfAnnotationObject) (st : AnnotationState)
    (b : PdfAnnotationObject) :
  In b (tracked_objects (engine_import a st)) <-> In b (tracked_objects st) \/ b = a.
Proof.
  unfold tracked_objects, engine_import. cbn [byUid].
  rewrite flat_map_app, in_app_iff. cbn.
  destruct (byUid st) as [entries|]; cbn; intuition congruence.
Qed.

Lemma after_reimport_In (l : list PdfAnnotationObject) (st : AnnotationState)
    (b : PdfAnnotationObject) :
  In b (tracked_objects (after_reimport l st)) <-> In b (tracked_objects st) \/ In b l.
Proof.
  unfold after_reimport. revert st. induction l as [|c l IH]; intros st; cbn [fold_left].
  - cbn. tauto.
  - rewrite IH, engine_import_In. cbn [In]. intuition congruence.
Qed.

Lemma deleted_with_id (l : list PdfAnnotationObject) (b : PdfAnnotationObject) :
  deleted_with l b = true -> exists c, In c l /\ anno_id c = anno_id b.
Proof.
  unfold deleted_with. intros H. apply existsb_exists in H as (c & Hin & Hc).
  apply andb_true_iff in Hc as [_ Hid]. apply String.eqb_eq in Hid.
  exists c. auto.
Qed.

(** Deleting the selected records and importing them again gives back the
    ids the live state had. *)
Lemma remove_then_reimport_ids (select : PdfAnnotationObject -> bool)
    (st : AnnotationState) :
  let custom := List.filter select (tracked_objects st) in
  annotation_ids (after_reimport custom (after_removal custom st))
  = annotation_ids st.
Proof.
  intros custom. apply set_eq. intros x. rewrite !elem_annotation_ids. split.
  - intros (a & Hin & <-). apply after_reimport_In in Hin as [Hin|Hin].
    + apply after_removal_In in Hin as [Hin _]. eauto.
    + apply List.filter_In in Hin as [Hin _]. eauto.
  - intros (a & Hin & <-).
    destruct (deleted_with custom a) eqn:Hd.
    + apply deleted_with_id in Hd as (c & Hc & Hid).
      exists c. split; [|exact Hid]. apply after_reimport_In. right. exact Hc.
    + exists a. split; [|reflexivity]. apply after_reimport_In. left.
      apply after_removal_In. auto.
Qed.

(** When the base export and the compositor both succeed, the handler
    settles with the annotation ids it started from. *)
Lemma handleExport_success_keeps_ids (env : Env) (w : World) (base final : list byte) :
  exportCapability env = true ->
  annotationCapability env = true ->
  let custom := getCustomRenderAnnotations (tracked_objects (annotations w)) in
  custom <> [] ->
  saveAsCopy env (after_removal custom (annotations w)) = Ok base ->
  snd (exportPdfWithCustomAnnotations (pdflib env) base custom
         (fontDataStore_getAll (fontDataStore env))) = Ok final ->
  annotation_ids (annotations (fst (handleExport env w)))
  = annotation_ids (annotations w)
  /\ downloads (effects (fst (handleExport env w)))
     = (downloads (effects w) ++ [final])%list.
Proof.
  intros Hexp Hann custom Hc Hs Hk. unfold handleExport.
  rewrite (handler_succeeds _ exportPdfWithCustomAnnotations env w
             Hexp Hann base final Hc Hs Hk).
  cbn [fst annotations effects]. split.
  - apply (remove_then_reimport_ids isCustomRenderAnnotation).
  - rewrite !downloads_app, downloads_of_deletes. cbn.
    assert (Hi : downloads (List.map eff_importAnnotations
                   (List.filter isCustomRenderAnnotation
                      (tracked_objects (annotations w)))) = []).
    { unfold downloads. induction (List.filter _ _) as [|a l IH]; cbn in *; congruence. }
    rewrite Hi. reflexivity.
Qed.

(* ===================================================================== *)
(** * Further properties of the code                                      *)
(* ===================================================================== *)

(** ** The font directory *)

Lemma same_name_app (raw : string) (l1 l2 : list FontData) :
  same_name raw (l1 ++ l2) = (same_name raw l1 ++ same_name raw l2)%list.
Proof. apply List.filter_app. Qed.

Lemma nth_own_rank (raw : string) (pre post : list FontData) (f : FontData) :
  fd_postscriptName f = raw ->
  nth_error (same_name raw (pre ++ f :: post)) (length (same_name raw pre)) = Some f.
Proof.
  intros <-. rewrite same_name_app. unfold same_name at 2. cbn [List.filter].
  rewrite String.eqb_refl.
  rewrite nth_error_app2 by lia. rewrite Nat.sub_diag. reflexivity.
Qed.

(** X1.  Round trip between discovery and loading.  Take a font of the
    platform's list whose raw postscript name is not itself of the form
    [<raw>#<digits>] and can be matched by [(.+)].  Loading the name under
    which [queryLocalFonts] exposes that font resolves to that very font,
    whatever its rank among its namesakes. *)
Theorem load_exposed_name_round_trip (w : Window) (pre post : list FontData)
    (f : FontData)
    (Hq : w_queryLocalFonts w = Some (Ok (pre ++ f :: post)%list))
    (Hplain : duplicateMatch (fd_postscriptName f) = None)
    (Hdot : dot_plus (fd_postscriptName f) = true) :
  exists exposedFonts lf,
    queryLocalFonts w = Ok exposedFonts
    /\ nth_error exposedFonts (length pre) = Some lf
    /\ loadFontData w (lf_postscriptName lf) = resolved (Some f).
Proof.
  destruct (queryLocalFonts_kth_occurrence w pre post f Hq) as (ex & Hex & Hnth).
  exists ex, (exposed f (occurrences (fd_postscriptName f) pre)).
  split; [exact Hex|]. split; [exact Hnth|].
  cbn [exposed lf_postscriptName]. unfold exposed_name.
  destruct (N.eqb_spec (occurrences (fd_postscriptName f) pre) 0) as [Hk|Hk].
  - rewrite (loadFontData_target w _ _ (fd_postscriptName f) (Some 0%N) Hq)
      by (rewrite Hplain; reflexivity).
    f_equal. cbn [array_at N.to_nat].
    pose proof (nth_own_rank (fd_postscriptName f) pre post f eq_refl) as Hn.
    unfold occurrences in Hk.
    replace (length (same_name (fd_postscriptName f) pre)) with 0%nat in Hn by lia.
    exact Hn.
  - destruct (number_to_string_digits (occurrences (fd_postscriptName f) pre))
      as [Hne Hd].
    rewrite (loadFontData_target w _ _ (fd_postscriptName f)
               (Some (occurrences (fd_postscriptName f) pre)) Hq).
    + f_equal. cbn [array_at]. unfold occurrences. rewrite Nat2N.id.
      apply nth_own_rank. reflexivity.
    + rewrite (proj2 (duplicateMatch_spec _ (fd_postscriptName f)
                        (number_to_string (occurrences (fd_postscriptName f) pre))))
        by auto.
      rewrite parseInt10_number_to_string. reflexivity.
Qed.

Lemma load_exposed_name_round_trip_witness :
  exists exposedFonts lf,
    queryLocalFonts (mkWindow (Some (Ok namesakes))) = Ok exposedFonts
    /\ nth_error exposedFonts 2 = Some lf
    /\ loadFontData (mkWindow (Some (Ok namesakes))) (lf_postscriptName lf)
       = resolved (Some (mkFontData "Name" "Name B" "Name" "Regular"
                           (Ok [x00; x01; x00; x00]))).
Proof.
  exact (load_exposed_name_round_trip (mkWindow (Some (Ok namesakes)))
           [ mkFontData "Name" "Name A" "Name" "Regular" (Ok [x00; x01; x00; x00]);
             mkFontData "Other" "Other" "Other" "Regular" (Ok []) ]
           [ mkFontData "Name" "Name C" "Name" "Regular" (Ok [x00; x01; x00; x00]) ]
           (mkFontData "Name" "Name B" "Name" "Regular" (Ok [x00; x01; x00; x00]))
           eq_refl eq_refl eq_refl).
Defined.

Lemma queryLocalFonts_distinct_without_hash_witness :
  exists exposedFonts,
    queryLocalFonts (mkWindow (Some (Ok namesakes))) = Ok exposedFonts
    /\ List.NoDup (List.map lf_postscriptName exposedFonts).
Proof.
  apply (queryLocalFonts_distinct_without_hash (mkWindow (Some (Ok namesakes)))
           namesakes eq_refl).
  intros f [<-|[<-|[<-|[<-|[]]]]]; reflexivity.
Defined.


Lemma expose_spec_length (before fonts : list FontData) :
  length (expose_spec before fonts) = length fonts.
Proof.
  revert before. induction fonts as [|f rest IH]; intros before; cbn; [reflexivity|].
  rewrite IH. reflexivity.
Qed.

Lemma expose_spec_metadata (before fonts : list FontData) :
  List.map (fun lf => (lf_fullName lf, lf_style lf, lf_weight lf, lf_italic lf))
    (expose_spec before fonts)
  = List.map (fun f => (fd_fullName f, fd_style f,
                        fs_weight (parseFontStyle (fd_style f) (fd_fullName f)),
                        fs_italic (parseFontStyle (fd_style f) (fd_fullName f))))
      fonts.
Proof.
  revert before. induction fonts as [|f rest IH]; intros before; cbn; [reflexivity|].
  rewrite IH. reflexivity.
Qed.

(** X3.  Outcomes of [queryLocalFonts].  Without the API it throws its
    "not supported" error; a platform rejection named NotAllowedError
    becomes the error "Font access was denied by the user"; every other
    rejection is rethrown unchanged; and a snapshot is exposed font for
    font: same length and order, full name and style kept, weight and slant
    inferred from them. *)
Theorem queryLocalFonts_outcomes (w : Window) :
  (w_queryLocalFonts w = None ->
   queryLocalFonts w
   = Throw (Error "Local Font Access API is not supported in this browser"))
  /\ (forall m, w_queryLocalFonts w = Some (Throw (DOMException "NotAllowedError" m)) ->
      queryLocalFonts w = Throw (Error "Font access was denied by the user"))
  /\ (forall e, w_queryLocalFonts w = Some (Throw e) ->
      (forall m, e <> DOMException "NotAllowedError" m) ->
      queryLocalFonts w = Throw e)
  /\ (forall fonts, w_queryLocalFonts w = Some (Ok fonts) ->
      exists exposedFonts,
        queryLocalFonts w = Ok exposedFonts
        /\ length exposedFonts = length fonts
        /\ List.map (fun lf => (lf_fullName lf, lf_style lf, lf_weight lf, lf_italic lf))
             exposedFonts
           = List.map (fun f => (fd_fullName f, fd_style f,
                                 fs_weight (parseFontStyle (fd_style f) (fd_fullName f)),
                                 fs_italic (parseFontStyle (fd_style f) (fd_fullName f))))
               fonts).
Proof.
  unfold queryLocalFonts, isLocalFontAccessSupported.
  split; [|split; [|split]].
  - intros ->. reflexivity.
  - intros m ->. reflexivity.
  - intros e -> Hne. cbn [negb].
    destruct e as [m|n m|m]; try reflexivity.
    destruct (String.eqb_spec n "NotAllowedError") as [->|Hn].
    + exfalso. exact (Hne m eq_refl).
    + destruct n as [|c n]; [reflexivity|].
      (* the match on the literal is a chain of character tests *)
      repeat (match goal with
              | |- context [match ?x with _ => _ end] =>
                  is_var x; destruct x; try reflexivity
              end); try congruence.
  - intros fonts ->. cbn [negb]. eexists. split; [reflexivity|].
    rewrite expose_fonts_spec. split; [apply expose_spec_length|apply expose_spec_metadata].
Qed.

Lemma queryLocalFonts_outcomes_witness :
  queryLocalFonts (mkWindow (Some (Throw (DOMException "SecurityError" "blocked"))))
  = Throw (DOMException "SecurityError" "blocked").
Proof.
  apply (proj1 (proj2 (proj2 (queryLocalFonts_outcomes
           (mkWindow (Some (Throw (DOMException "SecurityError" "blocked")))))))).
  - reflexivity.
  - intros m H. discriminate H.
Defined.

(** ** The font plugin: what a load leaves in the cache *)

Lemma loadFontData_name (w : Window) (name : string) (f : LoadedFont) :
  loadFontData w name = Ok (Some f) ->
  ld_postscriptName f
  = match duplicateMatch name with
    | Some (raw, _) => raw
    | None => name
    end.
Proof.
  unfold loadFontData. destruct (negb _); [discriminate|].
  destruct (duplicateMatch name) as [[g1 g2]|];
    (destruct (w_queryLocalFonts w) as [[fonts|e]|]; [|discriminate|discriminate]);
    cbv zeta iota beta;
    match goal with
    | |- context [array_at ?l ?i] => destruct (array_at l i) as [fd|] eqn:Ha
    end; try discriminate;
    (destruct (fd_blob fd); [|discriminate]); intros [= <-]; cbn;
    (destruct (_ : option N) as [i|]; [|discriminate]); cbn in Ha;
    apply nth_error_In, List.filter_In in Ha as [_ Hn];
    apply String.eqb_eq in Hn; exact Hn.
Qed.

Lemma loadFont_loads (w : Window) (name : string) (p : FontPlugin) (f : LoadedFont) :
  loadedFonts (state p) !! name = None ->
  loadFontData w name = Ok (Some f) ->
  loadFont w name p
  = ({| state := reducer (state p) (ADD_LOADED_FONT f);
        emitted := emitted p ++ [font_loaded f];
        logged := logged p ++ [mkLogEntry log_debug "FontPlugin" "FontLoaded"
                                 ("Loaded font: " +:+ ld_fullName f)] |},
     Ok (Some f)).
Proof.
  intros Hc Hl. unfold loadFont, bind, get. rewrite Hc.
  unfold try_catch, bind, await. rewrite Hl. reflexivity.
Qed.

(** X4.  A load is remembered under the raw postscript name of the font
    that was found.  After [loadFont] has fetched a font, the font is in
    [loadedFonts] under its own [postscriptName], one [font:loaded] event
    has been emitted, and any later [loadFont] of that raw name answers
    with the same font from the cache: it does not consult the platform
    (whatever the window is by then) and emits nothing. *)
Theorem loadFont_caches_raw_name (w : Window) (name : string) (p : FontPlugin)
    (f : LoadedFont)
    (Hnew : loadedFonts (state p) !! name = None)
    (Hload : loadFontData w name = Ok (Some f)) :
  let p' := fst (loadFont w name p) in
  snd (loadFont w name p) = Ok (Some f)
  /\ loadedFonts (state p') = <[ld_postscriptName f := f]> (loadedFonts (state p))
  /\ emitted p' = (emitted p ++ [font_loaded f])%list
  /\ forall w', loadFont w' (ld_postscriptName f) p' = (p', Ok (Some f)).
Proof.
  rewrite (loadFont_loads w name p f Hnew Hload). cbn [fst snd state emitted].
  split; [reflexivity|]. split; [reflexivity|]. split; [reflexivity|].
  intros w'. apply loadFont_cached. cbn [state reducer loadedFonts].
  apply lookup_insert_eq.
Qed.

Lemma loadFont_caches_raw_name_witness :
  loadFont (mkWindow None) "Name"
    (fst (loadFont (mkWindow (Some (Ok namesakes))) "Name" fresh_plugin))
  = (fst (loadFont (mkWindow (Some (Ok namesakes))) "Name" fresh_plugin),
     Ok (Some (mkLoadedFont "Name" "Name A" "Name" "Regular"
                 [x00; x01; x00; x00] TrueType))).
Proof.
  refine (proj2 (proj2 (proj2
    (loadFont_caches_raw_name (mkWindow (Some (Ok namesakes))) "Name" fresh_plugin
       (mkLoadedFont "Name" "Name A" "Name" "Regular" [x00; x01; x00; x00] TrueType)
       _ _))) (mkWindow None)).
  - vm_compute; reflexivity.
  - reflexivity.
Defined.

(** X5.  A name that is not of the form [<raw>#<digits>] is loaded once:
    when [loadFont] has answered with a font, calling it again with the
    same name gives the same font and changes nothing, on any window. *)
Theorem loadFont_plain_name_idempotent (w w' : Window) (name : string)
    (p : FontPlugin) (f : LoadedFont)
    (Hplain : duplicateMatch name = None)
    (Hfirst : snd (loadFont w name p) = Ok (Some f)) :
  loadFont w' name (fst (loadFont w name p))
  = (fst (loadFont w name p), Ok (Some f)).
Proof.
  destruct (loadedFonts (state p) !! name) as [g|] eqn:Hc.
  - rewrite (loadFont_cached w name p g Hc) in *. cbn [fst snd] in *.
    injection Hfirst as ->. apply loadFont_cached, Hc.
  - destruct (loadFontData w name) as [[g|]|e] eqn:Hl.
    + rewrite (loadFont_loads w name p g Hc Hl) in *. cbn [fst snd] in *.
      injection Hfirst as ->. apply loadFont_cached.
      cbn [state reducer loadedFonts].
      rewrite (loadFontData_name w name f Hl), Hplain. apply lookup_insert_eq.
    + exfalso. unfold loadFont, bind, get in Hfirst. rewrite Hc in Hfirst.
      unfold try_catch, bind, await in Hfirst. rewrite Hl in Hfirst.
      discriminate Hfirst.
    + rewrite (loadFont_caught w name p e Hc Hl) in Hfirst. discriminate Hfirst.
Qed.

Lemma loadFont_plain_name_idempotent_witness :
  loadFont (mkWindow None) "Other"
    (fst (loadFont (mkWindow (Some (Ok namesakes))) "Other" fresh_plugin))
  = (fst (loadFont (mkWindow (Some (Ok namesakes))) "Other" fresh_plugin),
     Ok (Some (mkLoadedFont "Other" "Other" "Other" "Regular" [] TrueType))).
Proof.
  apply (loadFont_plain_name_idempotent (mkWindow (Some (Ok namesakes)))
           (mkWindow None) "Other" fresh_plugin).
  - reflexivity.
  - reflexivity.
Defined.

(** X6.  A disambiguated duplicate is not remembered under the name it was
    asked for.  When [loadFont] fetches [<raw>#<digits>], the font goes into
    the cache under [raw]: the exposed name is still reported as not loaded
    (unless it was before), and a later [loadFont] of [raw] answers with
    the duplicate, not with the first font of that name. *)
Theorem loadFont_duplicate_cached_as_raw (w : Window) (raw ds : string)
    (p : FontPlugin) (f : LoadedFont)
    (Hdot : dot_plus raw = true)
    (Hne : ds <> "")
    (Hds : all_digits ds = true)
    (Hnew : loadedFonts (state p) !! (raw +:+ "#" +:+ ds) = None)
    (Hload : loadFontData w (raw +:+ "#" +:+ ds) = Ok (Some f)) :
  let p' := fst (loadFont w (raw +:+ "#" +:+ ds) p) in
  ld_postscriptName f = raw
  /\ loadedFonts (state p') !! (raw +:+ "#" +:+ ds) = None
  /\ loadedFonts (state p') !! raw = Some f
  /\ forall w', loadFont w' raw p' = (p', Ok (Some f)).
Proof.
  assert (Hname : ld_postscriptName f = raw).
  { rewrite (loadFontData_name w _ f Hload).
    rewrite (proj2 (duplicateMatch_spec _ raw ds)); auto. }
  rewrite (loadFont_loads w _ p f Hnew Hload). cbn [fst state reducer loadedFonts].
  rewrite Hname. split; [reflexivity|].
  assert (Hdiff : raw <> raw +:+ "#" +:+ ds).
  { intros H. pose proof (suffixed_name_differs raw ds) as Hs.
    apply String.eqb_neq in Hs. congruence. }
  split; [rewrite lookup_insert_ne by exact Hdiff; exact Hnew|].
  split; [apply lookup_insert_eq|].
  intros w'. apply loadFont_cached. cbn [state loadedFonts]. apply lookup_insert_eq.
Qed.

Lemma loadFont_duplicate_cached_as_raw_witness :
  loadedFonts (state (fst (loadFont (mkWindow (Some (Ok namesakes))) "Name#2"
                             fresh_plugin))) !! "Name"
  = Some (mkLoadedFont "Name" "Name C" "Name" "Regular" [x00; x01; x00; x00] TrueType).
Proof.
  refine (proj1 (proj2 (proj2
    (loadFont_duplicate_cached_as_raw (mkWindow (Some (Ok namesakes))) "Name" "2"
       fresh_plugin
       (mkLoadedFont "Name" "Name C" "Name" "Regular" [x00; x01; x00; x00] TrueType)
       _ _ _ _ _)))).
  - reflexivity.
  - discriminate.
  - reflexivity.
  - vm_compute; reflexivity.
  - reflexivity.
Defined.

(** ** The font plugin: asking for access *)

(** X7.  Outcomes of [requestFontAccess].  Without the API it emits
    [font:access-denied] and rejects, leaving the store as it was.  With
    the API the loading flag is down when the call settles, on both exits:
    on success the store holds the exposed fonts and the permission, and
    [font:access-granted] carries the fonts that are returned; on failure
    the permission is cleared, the fonts are kept, and the error that is
    emitted with [font:access-denied] is the error the call rejects
    with. *)
Theorem requestFontAccess_outcomes (w : Window) (p : FontPlugin) :
  let p' := fst (requestFontAccess w p) in
  (isLocalFontAccessSupported w = false ->
   state p' = state p
   /\ emitted p' = (emitted p
                    ++ [font_access_denied (Error "Local Font Access API is not supported")])%list
   /\ snd (requestFontAccess w p)
      = Throw (Error "Local Font Access API is not supported"))
  /\ (isLocalFontAccessSupported w = true -> isLoading (state p') = false)
  /\ (forall fonts, queryLocalFonts w = Ok fonts ->
      snd (requestFontAccess w p) = Ok fonts
      /\ localFonts (state p') = fonts
      /\ hasPermission (state p') = true
      /\ loadedFonts (state p') = loadedFonts (state p)
      /\ emitted p' = (emitted p ++ [font_access_granted fonts])%list)
  /\ (forall e, isLocalFontAccessSupported w = true ->
      queryLocalFonts w = Throw e ->
      snd (requestFontAccess w p) = Throw e
      /\ localFonts (state p') = localFonts (state p)
      /\ hasPermission (state p') = false
      /\ loadedFonts (state p') = loadedFonts (state p)
      /\ emitted p' = (emitted p ++ [font_access_denied e])%list).
Proof.
  unfold requestFontAccess.
  destruct (isLocalFontAccessSupported w) eqn:Hs; cbn [negb].
  - split; [discriminate|].
    destruct (queryLocalFonts w) as [fonts|e] eqn:Hq;
      unfold try_finally, try_catch, bind, await, dispatch, emit, logger, modify,
        ret, throw;
      cbn [fst snd state emitted logged reducer isLoading localFonts hasPermission
           loadedFonts];
      (split; [reflexivity|]); split; intros ? ?; try discriminate;
      try (intros [= <-]); repeat split; congruence.
  - split.
    + intros _. unfold bind, emit, modify, throw. cbn. auto.
    + split; [discriminate|]. split.
      * intros fonts Hq. unfold queryLocalFonts in Hq. rewrite Hs in Hq. discriminate.
      * intros e H. discriminate.
Qed.

Lemma requestFontAccess_outcomes_witness :
  snd (requestFontAccess
         (mkWindow (Some (Throw (DOMException "NotAllowedError" "denied"))))
         fresh_plugin)
  = Throw (Error "Font access was denied by the user")
  /\ hasPermission
       (state (fst (requestFontAccess
                      (mkWindow (Some (Throw (DOMException "NotAllowedError" "denied"))))
                      fresh_plugin))) = false.
Proof.
  destruct (proj2 (proj2 (proj2 (requestFontAccess_outcomes
              (mkWindow (Some (Throw (DOMException "NotAllowedError" "denied"))))
              fresh_plugin)))
            (Error "Font access was denied by the user") eq_refl eq_refl)
    as (H1 & _ & H2 & _).
  exact (conj H1 H2).
Defined.

(** ** Grouping by family *)

Lemma map_get_push_same (family : string) (font : LocalFont)
    (g : list (string * list LocalFont)) :
  map_get (push_group family font g) family
  = Some (match map_get g family with
          | Some existing => (existing ++ [font])%list
          | None => [font]
          end).
Proof.
  induction g as [|[k fs] rest IH]; cbn.
  - rewrite String.eqb_refl. reflexivity.
  - destruct (String.eqb k family) eqn:E; cbn; rewrite E; [reflexivity|exact IH].
Qed.

Lemma map_get_push_other (family k : string) (font : LocalFont)
    (g : list (string * list LocalFont)) :
  family <> k ->
  map_get (push_group family font g) k = map_get g k.
Proof.
  intros Hne.
  assert (Hf : String.eqb family k = false) by (apply String.eqb_neq; exact Hne).
  induction g as [|[k' fs] rest IH]; cbn.
  - rewrite Hf. reflexivity.
  - destruct (String.eqb_spec k' family) as [->|Hk]; cbn.
    + rewrite Hf. reflexivity.
    + destruct (String.eqb k' k); [reflexivity|exact IH].
Qed.

Lemma push_group_keys (family : string) (font : LocalFont)
    (g : list (string * list LocalFont)) :
  List.map fst (push_group family font g)
  = if existsb (String.eqb family) (List.map fst g) then List.map fst g
    else (List.map fst g ++ [family])%list.
Proof.
  induction g as [|[k fs] rest IH]; cbn; [reflexivity|].
  rewrite (String.eqb_sym family k).
  destruct (String.eqb k family); cbn; [reflexivity|].
  rewrite IH. destruct (existsb _ _); reflexivity.
Qed.

Lemma of_family_snoc (family : string) (done : list LocalFont) (font : LocalFont) :
  of_family family (done ++ [font])
  = (of_family family done
     ++ if String.eqb (lf_family font) family then [font] else [])%list.
Proof.
  unfold of_family. rewrite List.filter_app. cbn.
  destruct (String.eqb (lf_family font) family); reflexivity.
Qed.

(** What the loop has built once the fonts [done] have gone through it. *)
Lemma grouping_invariant (fonts done : list LocalFont)
    (g : list (string * list LocalFont)) :
  (forall family,
     map_get g family
     = match of_family family done with [] => None | l => Some l end) ->
  List.NoDup (List.map fst g) ->
  (forall family, In family (List.map fst g) <-> In family (List.map lf_family done)) ->
  let g' := fold_left (fun grouped font => push_group (lf_family font) font grouped)
              fonts g in
  (forall family,
     map_get g' family
     = match of_family family (done ++ fonts) with [] => None | l => Some l end)
  /\ List.NoDup (List.map fst g')
  /\ (forall family,
        In family (List.map fst g') <-> In family (List.map lf_family (done ++ fonts))).
Proof.
  revert done g. induction fonts as [|font rest IH]; intros done g Hget Hnd Hkeys.
  - cbn. rewrite app_nil_r. auto.
  - cbn [fold_left].
    replace (done ++ font :: rest)%list with ((done ++ [font]) ++ rest)%list
      by (rewrite <- app_assoc; reflexivity).
    apply IH.
    + intros family. rewrite of_family_snoc.
      destruct (String.eqb_spec (lf_family font) family) as [<-|Hne].
      * rewrite map_get_push_same, Hget.
        destruct (of_family (lf_family font) done); reflexivity.
      * rewrite map_get_push_other by exact Hne. rewrite app_nil_r. apply Hget.
    + rewrite push_group_keys.
      destruct (existsb _ _) eqn:E; [exact Hnd|].
      apply List.NoDup_app; [exact Hnd|repeat constructor; intros []|].
      intros x Hx [<-|[]].
      assert (existsb (String.eqb (lf_family font)) (List.map fst g) = true);
        [|congruence].
      apply existsb_exists. exists (lf_family font).
      split; [exact Hx|apply String.eqb_refl].
    + intros family. rewrite push_group_keys, map_app, in_app_iff. cbn [List.map In].
      destruct (existsb _ _) eqn:E.
      * apply existsb_exists in E as (x & Hx & Hxe). apply String.eqb_eq in Hxe.
        subst x. rewrite Hkeys. apply Hkeys in Hx. intuition (subst; auto).
      * rewrite in_app_iff, Hkeys. cbn [In]. tauto.
Qed.

(** X8.  [groupFontsByFamily] files every font under its family and keeps
    the order of the list inside each group: looking a family up gives
    exactly the fonts of that family, in list order, and gives nothing for
    a family that no font has.  No family appears twice among the keys. *)
Theorem groupFontsByFamily_groups (fonts : list LocalFont) :
  (forall family,
     map_get (groupFontsByFamily fonts) family
     = match of_family family fonts with [] => None | l => Some l end)
  /\ List.NoDup (List.map fst (groupFontsByFamily fonts))
  /\ (forall family,
        In family (List.map fst (groupFontsByFamily fonts))
        <-> In family (List.map lf_family fonts)).
Proof.
  apply (grouping_invariant fonts [] []).
  - intros family. reflexivity.
  - constructor.
  - intros family. cbn. tauto.
Qed.

(** ** The font data store *)

(** X9.  The store answers with what was last set.  After [set(k, e)] the
    map handed to the exporter by [getAll] holds the bytes of [e] under [k]
    and is unchanged elsewhere; [has] and [get] agree with it; after
    [clear] it is empty. *)
Theorem fontDataStore_laws (fonts : gmap string FontDataEntry) (k k' : string)
    (e : FontDataEntry) :
  fontDataStore_getAll (store_set k e fonts) !! k'
  = (if String.eqb k k' then Some (fde_data e) else fontDataStore_getAll fonts !! k')
  /\ fontDataStore_getAll fonts !! k' = fde_data <$> store_get k' fonts
  /\ (store_has k' fonts = true <-> is_Some (fontDataStore_getAll fonts !! k'))
  /\ store_get k (store_set k e fonts) = Some e
  /\ fontDataStore_getAll (store_clear fonts) = ∅
  /\ store_has k' (store_clear fonts) = false.
Proof.
  unfold fontDataStore_getAll, store_set, store_get, store_has, store_clear.
  split; [|split; [|split; [|split; [|split]]]].
  - rewrite lookup_fmap. destruct (String.eqb_spec k k') as [->|Hne].
    + rewrite lookup_insert_eq. reflexivity.
    + rewrite lookup_insert_ne by exact Hne. rewrite lookup_fmap. reflexivity.
  - apply lookup_fmap.
  - rewrite lookup_fmap. destruct (fonts !! k'); cbn; split; intros H;
      try reflexivity; try discriminate; eauto.
    destruct H as [x Hx]. discriminate.
  - apply lookup_insert_eq.
  - apply fmap_empty.
  - rewrite lookup_empty. reflexivity.
Qed.

(** ** Choosing a variant of a family ([findBestMatch]) *)

(** X10.  [findBestMatch] answers with one of the variants it was given,
    and with nothing only when there is none.  When some variant has the
    wanted slant and the wanted effective weight ([weight || 400]), so has
    the answer; when some variant of the wanted slant lies within 100 of
    the wanted weight, the answer has the wanted slant. *)
Theorem findBestMatch_sound (variants : list LocalFont) (targetWeight : Z)
    (targetItalic : bool) :
  (forall m, findBestMatch variants targetWeight targetItalic = Some m ->
             In m variants)
  /\ (findBestMatch variants targetWeight targetItalic = None <-> variants = [])
  /\ (forall v, In v variants -> weight_or_400 v = targetWeight ->
                lf_italic v = targetItalic -> targetWeight <> 0 ->
      exists m, findBestMatch variants targetWeight targetItalic = Some m
                /\ weight_or_400 m = targetWeight /\ lf_italic m = targetItalic)
  /\ (forall v, In v variants -> lf_italic v = targetItalic ->
                Z.abs (weight_or_400 v - targetWeight) < 100 ->
      exists m, findBestMatch variants targetWeight targetItalic = Some m
                /\ lf_italic m = targetItalic).
Proof.
  unfold findBestMatch.
  set (exact := fun v : LocalFont =>
                  ((lf_weight v =? targetWeight)
                   || ((lf_weight v =? 0) && (targetWeight =? 400)))
                  && Bool.eqb (lf_italic v) targetItalic).
  set (near := fun v : LocalFont =>
                 Bool.eqb (lf_italic v) targetItalic
                 && (Z.abs (weight_or_400 v - targetWeight) <? 100)).
  split; [|split; [|split]].
  - intros m.
    destruct (List.find exact variants) as [a|] eqn:F1.
    + intros [= <-]. apply find_some in F1. tauto.
    + destruct (List.find near variants) as [b|] eqn:F2.
      * intros [= <-]. apply find_some in F2. tauto.
      * destruct variants; [discriminate|]. cbn. intros [= <-]. left. reflexivity.
  - split.
    + destruct (List.find exact variants) as [a|] eqn:F1; [discriminate|].
      destruct (List.find near variants) as [b|] eqn:F2; [discriminate|].
      destruct variants; [reflexivity|discriminate].
    + intros ->. reflexivity.
  - intros v Hin Hw Hi Hnz.
    destruct (List.find exact variants) as [a|] eqn:F1.
    + exists a. split; [reflexivity|]. apply find_some in F1 as [_ Hp]. unfold exact in Hp.
      apply andb_true_iff in Hp as [Hp1 Hp2]. apply Bool.eqb_prop in Hp2.
      split; [|exact Hp2]. unfold weight_or_400.
      apply orb_true_iff in Hp1 as [Hp1|Hp1].
      * apply Z.eqb_eq in Hp1. rewrite Hp1.
        destruct (Z.eqb_spec targetWeight 0); [contradiction|reflexivity].
      * apply andb_true_iff in Hp1 as [H0 H400].
        rewrite H0. apply Z.eqb_eq in H400. congruence.
    + exfalso. pose proof (find_none _ _ F1 v Hin) as Hn. unfold exact in Hn.
      rewrite Hi, Bool.eqb_reflx, andb_true_r in Hn.
      unfold weight_or_400 in Hw.
      destruct (Z.eqb_spec (lf_weight v) 0) as [H0|H0].
      * subst targetWeight. rewrite orb_true_r in Hn. discriminate.
      * subst targetWeight. rewrite Z.eqb_refl in Hn. discriminate.
  - intros v Hin Hi Hw.
    destruct (List.find exact variants) as [a|] eqn:F1.
    + exists a. split; [reflexivity|]. apply find_some in F1 as [_ Hp].
      unfold exact in Hp. apply andb_true_iff in Hp as [_ Hp2]. apply Bool.eqb_prop in Hp2. exact Hp2.
    + destruct (List.find near variants) as [b|] eqn:F2.
      * exists b. split; [reflexivity|]. apply find_some in F2 as [_ Hp].
        unfold near in Hp. apply andb_true_iff in Hp as [Hp1 _]. apply Bool.eqb_prop in Hp1. exact Hp1.
      * exfalso. pose proof (find_none _ _ F2 v Hin) as Hn. unfold near in Hn.
        rewrite Hi, Bool.eqb_reflx in Hn. cbn in Hn.
        apply Z.ltb_ge in Hn. lia.
Qed.

Lemma findBestMatch_sound_witness :
  exists m,
    findBestMatch
      [ mkLocalFont "Sarabun" "Sarabun Regular" "Sarabun-Regular" "Regular" 400 false;
        mkLocalFont "Sarabun" "Sarabun Bold" "Sarabun-Bold" "Bold" 700 false;
        mkLocalFont "Sarabun" "Sarabun Bold Italic" "Sarabun-BoldItalic"
          "Bold Italic" 700 true ] 700 true = Some m
    /\ weight_or_400 m = 700 /\ lf_italic m = true.
Proof.
  apply (proj1 (proj2 (proj2 (findBestMatch_sound _ 700 true)))
           (mkLocalFont "Sarabun" "Sarabun Bold Italic" "Sarabun-BoldItalic"
              "Bold Italic" 700 true)).
  - right; right; left; reflexivity.
  - reflexivity.
  - reflexivity.
  - discriminate.
Defined.

(** ** The renderer's inference against the directory's *)

Lemma startsWith_prefix (s a b : string) :
  startsWith s (a +:+ b) = true -> startsWith s a = true.
Proof.
  revert s. induction a as [|c a IH]; intros s.
  - destruct s; reflexivity.
  - rewrite append_cons. destruct s as [|d s]; cbn; [discriminate|].
    intros H. apply andb_true_iff in H as [H1 H2]. rewrite H1. cbn. apply IH, H2.
Qed.

Lemma includes_prefix (s a b : string) :
  includes s (a +:+ b) = true -> includes s a = true.
Proof.
  induction s as [|c s IH]; cbn [includes]; intros H.
  - rewrite orb_false_r in *. apply (startsWith_prefix "" a b H).
  - apply orb_true_iff in H as [H|H].
    + rewrite (startsWith_prefix _ a b H). reflexivity.
    + rewrite (IH H). apply orb_true_r.
Qed.

(** X11.  The free-text renderer ([getFontStyles]) and the font directory
    ([parseFontStyle]) infer the same weight and slant for a custom font,
    as long as the lower-cased text does not contain "demi": the CSS weight
    is the directory's weight, with "normal" for 400 and "bold" for 700. *)
Theorem getFontStyles_agrees_with_parseFontStyle (style fullName : string) :
  includes (toLowerCase (style +:+ " " +:+ fullName)) "demi" = false ->
  getFontStyles_custom_weight style fullName
  = css_weight (fs_weight (parseFontStyle style fullName))
  /\ getFontStyles_custom_style style fullName
     = (if fs_italic (parseFontStyle style fullName) then "italic" else "normal").
Proof.
  intros Hdemi.
  assert (Hdb : includes (toLowerCase (style +:+ " " +:+ fullName)) "demi bold" = false).
  { destruct (includes _ "demi bold") eqn:E; [|reflexivity].
    change "demi bold" with ("demi" +:+ " bold") in E.
    apply includes_prefix in E. congruence. }
  unfold getFontStyles_custom_weight, getFontStyles_custom_style, parseFontStyle.
  cbv zeta. cbn [fs_weight fs_italic]. rewrite Hdemi, Hdb. split.
  - repeat match goal with
           | |- context [includes ?s ?t] =>
               destruct (includes s t); cbn [orb]; try reflexivity
           end.
  - destruct (_ || _); reflexivity.
Qed.

Lemma getFontStyles_agrees_with_parseFontStyle_witness :
  getFontStyles_custom_weight "Bold Italic" "Sarabun Bold Italic" = "bold"
  /\ getFontStyles_custom_style "Bold Italic" "Sarabun Bold Italic" = "italic".
Proof.
  apply (getFontStyles_agrees_with_parseFontStyle "Bold Italic" "Sarabun Bold Italic").
  reflexivity.
Defined.

(** ** Colours *)

Lemma parseInt16_pair (h1 h2 : ascii) (v1 v2 : Z) :
  hex_digit_value h1 = Some v1 -> hex_digit_value h2 = Some v2 ->
  parseInt16 (String h1 (String h2 "")) = Some (16 * v1 + v2)
  /\ 0 <= 16 * v1 + v2 <= 255.
Proof.
  destruct h1 as [[] [] [] [] [] [] [] []]; cbn; try discriminate;
    intros [= <-];
    destruct h2 as [[] [] [] [] [] [] [] []]; cbn; try discriminate;
    intros [= <-]; split; try reflexivity; lia.
Qed.

(** X12.  The short colour form is the long one with every digit doubled:
    for three hexadecimal digits, [#abc] parses to the colour of [#aabbcc],
    so that each component is the value of its digit over 15 (17 times the
    value, over 255). *)
Theorem parseHexColor_short_form (a b c : ascii) (va vb vc : Z)
    (Ha : hex_digit_value a = Some va)
    (Hb : hex_digit_value b = Some vb)
    (Hc : hex_digit_value c = Some vc) :
  parseHexColor (String "#" (String a (String b (String c ""))))
  = parseHexColor (String "#" (String a (String a (String b (String b
                     (String c (String c "")))))))
  /\ parseHexColor (String "#" (String a (String b (String c ""))))
     = {| col_r := Some (inject_Z (16 * va + va) / 255)%Q;
          col_g := Some (inject_Z (16 * vb + vb) / 255)%Q;
          col_b := Some (inject_Z (16 * vc + vc) / 255)%Q |}
  /\ (inject_Z (16 * va + va) / 255 == inject_Z va / 15)%Q
  /\ (inject_Z (16 * vb + vb) / 255 == inject_Z vb / 15)%Q
  /\ (inject_Z (16 * vc + vc) / 255 == inject_Z vc / 15)%Q.
Proof.
  destruct (parseInt16_pair a a va va Ha Ha) as [Pa _].
  destruct (parseInt16_pair b b vb vb Hb Hb) as [Pb _].
  destruct (parseInt16_pair c c vc vc Hc Hc) as [Pc _].
  assert (Hq : forall v, (inject_Z (16 * v + v) / 255 == inject_Z v / 15)%Q).
  { intros v. unfold Qeq, Qdiv, Qmult, Qinv, inject_Z. cbn. lia. }
  split; [reflexivity|]. split; [|auto].
  change (parseHexColor (String "#" (String a (String b (String c "")))))
    with (parseHexColor (String "#" (String a (String a (String b (String b
                           (String c (String c ""))))))));
  unfold parseHexColor.
  replace (remove_first_hash
             (String "#" (String a (String a (String b (String b
                (String c (String c ""))))))))
    with (String a (String a (String b (String b (String c (String c ""))))))
    by reflexivity.
  cbn [String.length Nat.eqb].
  unfold component, js_substring.
  cbn [String.substring Nat.sub].
  rewrite Pa, Pb, Pc. reflexivity.
Qed.

Lemma parseHexColor_short_form_witness :
  parseHexColor "#f80" = parseHexColor "#ff8800".
Proof.
  apply (parseHexColor_short_form "f" "8" "0" 15 8 0); reflexivity.
Defined.


(** X13.  A colour written with six hexadecimal digits, with its leading
    hash, parses to three defined components, each the value of its pair of
    digits over 255, hence between 0 and 1. *)
Theorem parseHexColor_six_digits (r1 r2 g1 g2 b1 b2 : ascii)
    (vr1 vr2 vg1 vg2 vb1 vb2 : Z) :
  hex_digit_value r1 = Some vr1 -> hex_digit_value r2 = Some vr2 ->
  hex_digit_value g1 = Some vg1 -> hex_digit_value g2 = Some vg2 ->
  hex_digit_value b1 = Some vb1 -> hex_digit_value b2 = Some vb2 ->
  parseHexColor (String "#" (String r1 (String r2 (String g1 (String g2
                   (String b1 (String b2 "")))))))
  = {| col_r := Some (inject_Z (16 * vr1 + vr2) / 255)%Q;
       col_g := Some (inject_Z (16 * vg1 + vg2) / 255)%Q;
       col_b := Some (inject_Z (16 * vb1 + vb2) / 255)%Q |}
  /\ (0 <= inject_Z (16 * vr1 + vr2) / 255 <= 1)%Q
  /\ (0 <= inject_Z (16 * vg1 + vg2) / 255 <= 1)%Q
  /\ (0 <= inject_Z (16 * vb1 + vb2) / 255 <= 1)%Q.
Proof.
  intros Hr1 Hr2 Hg1 Hg2 Hb1 Hb2.
  destruct (parseInt16_pair r1 r2 vr1 vr2 Hr1 Hr2) as [Pr Rr].
  destruct (parseInt16_pair g1 g2 vg1 vg2 Hg1 Hg2) as [Pg Rg].
  destruct (parseInt16_pair b1 b2 vb1 vb2 Hb1 Hb2) as [Pb Rb].
  assert (Hrange : forall n, 0 <= n <= 255 -> (0 <= inject_Z n / 255 <= 1)%Q).
  { intros n Hn. unfold Qdiv, Qmult, Qinv, Qle, inject_Z. cbn. lia. }
  split; [|auto].
  unfold parseHexColor.
  change (remove_first_hash (String "#" ?s)) with s.
  cbn [remove_first_hash Ascii.eqb].
  replace (remove_first_hash
             (String "#" (String r1 (String r2 (String g1 (String g2
                (String b1 (String b2 ""))))))))
    with (String r1 (String r2 (String g1 (String g2 (String b1 (String b2 ""))))))
    by reflexivity.
  cbn [String.length Nat.eqb].
  unfold component, js_substring.
  cbn [String.substring Nat.sub].
  rewrite Pr, Pg, Pb. reflexivity.
Qed.

Lemma parseHexColor_six_digits_witness :
  parseHexColor "#FF8000"
  = {| col_r := Some (inject_Z (16 * 15 + 15) / 255)%Q;
       col_g := Some (inject_Z (16 * 8 + 0) / 255)%Q;
       col_b := Some (inject_Z (16 * 0 + 0) / 255)%Q |}.
Proof.
  apply (parseHexColor_six_digits "F" "F" "8" "0" "0" "0" 15 15 8 0 0 0);
    reflexivity.
Defined.

(** ** Lines of text *)

Lemma append_empty_r (s : string) : s +:+ "" = s.
Proof.
  induction s as [|c s IH]; [reflexivity|]. rewrite append_cons, IH. reflexivity.
Qed.

Lemma append_snoc (cur s : string) (c : ascii) :
  (cur +:+ String c "") +:+ s = cur +:+ String c s.
Proof.
  induction cur as [|d cur IH]; [reflexivity|].
  rewrite !append_cons, IH. reflexivity.
Qed.

Lemma split_lines_acc_length (s cur : string) :
  length (split_lines_acc s cur)
  = S (length (List.filter (fun c => Ascii.eqb c (ascii_of_N 10))
                 (list_ascii_of_string s))).
Proof.
  revert cur. induction s as [|c s IH]; intros cur;
    cbn [split_lines_acc list_ascii_of_string List.filter].
  - reflexivity.
  - destruct (Ascii.eqb c (ascii_of_N 10)); cbn [length]; rewrite IH; reflexivity.
Qed.

Lemma join_split_acc (s cur : string) :
  join_lines (split_lines_acc s cur) = cur +:+ s.
Proof.
  revert cur. induction s as [|c s IH]; intros cur; cbn [split_lines_acc].
  - cbn. rewrite append_empty_r. reflexivity.
  - destruct (Ascii.eqb_spec c (ascii_of_N 10)) as [->|Hc].
    + change (join_lines (cur :: split_lines_acc s ""))
        with (match split_lines_acc s "" with
              | [] => cur
              | _ :: _ => cur +:+ String (ascii_of_N 10)
                            (join_lines (split_lines_acc s ""))
              end).
      destruct (split_lines_acc s "") as [|l ls] eqn:E.
      * exfalso. apply (f_equal (@length string)) in E.
        rewrite split_lines_acc_length in E. discriminate.
      * rewrite <- E, IH. reflexivity.
    + rewrite IH. apply append_snoc.
Qed.

(** X14.  Splitting a text into lines loses nothing: joining the lines
    with line feeds gives the text back, and there is one line more than
    there are line feeds (so never no line at all). *)
Theorem split_lines_round_trip (text : string) :
  join_lines (split_lines text) = text
  /\ length (split_lines text)
     = S (length (List.filter (fun c => Ascii.eqb c (ascii_of_N 10))
                    (list_ascii_of_string text))).
Proof.
  split.
  - unfold split_lines. rewrite join_split_acc. reflexivity.
  - apply split_lines_acc_length.
Qed.

(** ** What the compositor draws, and where *)

Lemma document_events_app (l1 l2 : list LibEvent) :
  document_events (l1 ++ l2) = (document_events l1 ++ document_events l2)%list.
Proof. apply List.filter_app. Qed.

Lemma silent_ret : silent (ret tt).
Proof. intros st. cbn. auto. Qed.

Lemma silent_console (level : ConsoleLevel) (msg : string) : silent (console level msg).
Proof.
  intros st. unfold console, record, modify. cbn [fst snd events embeddedFonts].
  rewrite document_events_app. cbn. rewrite app_nil_r. auto.
Qed.

(** An annotation the compositor passes over leaves no trace in the
    document: when its page index is outside the document, when it is not
    of a kind rendered by hand, when it is a free-text record whose font
    binary is missing from the map, or when it has no segment, processing
    it completes normally, draws nothing, embeds nothing and keeps the
    cache; at most a console line is written. *)
Theorem passed_over_is_silent (lib : PdfLib) (fontDataMap : gmap string (list byte))
    (pages : list Q) (anno : PdfAnnotationObject) :
  passed_over fontDataMap pages anno = true ->
  silent (process_annotation lib fontDataMap pages anno).
Proof.
  unfold passed_over, process_annotation, isCustomRenderAnnotation.
  destruct ((pageIndex anno <? 0) || (Z.of_nat (length pages) <=? pageIndex anno));
    [intros _; apply silent_console|].
  cbn [orb].
  destruct (isFreeTextAnnotation anno) eqn:Hft; cbn [negb andb orb].
  - destruct (fontFamily anno) as [[k|ps fullName fam sty]|];
      try (intros _; apply silent_ret).
    cbn [isCustomFontRef negb orb]. rewrite orb_false_r.
    destruct (fontDataMap !! ps); [discriminate|].
    intros _. apply silent_console.
  - unfold draw_segments.
    destruct (isUnderlineAnnotation anno), (isStrikeOutAnnotation anno),
      (isSquigglyAnnotation anno); cbn [negb orb];
      destruct (segmentRects anno) as [[|r rs]|]; try discriminate;
      intros _; apply silent_ret.
Qed.

Lemma passed_over_is_silent_witness :
  silent (process_annotation accepting_lib ∅ [800%Q] (free_text "t1" "Sarabun")).
Proof.
  apply passed_over_is_silent. vm_compute; reflexivity.
Defined.

Lemma silent_loop (lib : PdfLib) (fontDataMap : gmap string (list byte))
    (pages : list Q) (annos : list PdfAnnotationObject) :
  (forall anno, In anno annos -> passed_over fontDataMap pages anno = true) ->
  silent (for_of annos (process_annotation lib fontDataMap pages)).
Proof.
  induction annos as [|a l IH]; intros Hall; cbn [for_of].
  - apply silent_ret.
  - intros st. unfold bind.
    destruct (passed_over_is_silent lib fontDataMap pages a (Hall a (or_introl eq_refl)) st)
      as (H1 & H2 & H3).
    destruct (process_annotation lib fontDataMap pages a st) as [st' r].
    cbn [fst snd] in *. subst r.
    destruct (IH (fun x Hx => Hall x (or_intror Hx)) st') as (I1 & I2 & I3).
    split; [exact I1|]. split; congruence.
Qed.

(** X15.  When every annotation handed to the compositor is passed over,
    the document it saves is the base document untouched: no drawing call
    and no embedding is made, and the call settles with whatever [save]
    gives for the base bytes. *)
Theorem compositor_all_passed_over (lib : PdfLib) (basePdfBytes : list byte)
    (pages : list Q) (annos : list PdfAnnotationObject)
    (fontDataMap : gmap string (list byte))
    (Hload : PDFDocument_load lib basePdfBytes = Ok pages)
    (Hall : forall anno, In anno annos -> passed_over fontDataMap pages anno = true) :
  let run := exportPdfWithCustomAnnotations lib basePdfBytes annos fontDataMap in
  document_events (events (fst run)) = []
  /\ draw_calls (events (fst run)) = []
  /\ snd run = save lib basePdfBytes (events (fst run)).
Proof.
  unfold exportPdfWithCustomAnnotations, bind, await, get. rewrite Hload.
  destruct (silent_loop lib fontDataMap pages annos Hall initial_state) as (H1 & _ & H3).
  destruct (for_of annos (process_annotation lib fontDataMap pages) initial_state)
    as [st r]. cbn [fst snd] in *. subst r. cbn [fst snd].
  cbn in H3. split; [exact H3|]. split; [|reflexivity].
  revert H3. clear. unfold document_events, draw_calls.
  induction (events st) as [|ev evs IH]; cbn; [reflexivity|].
  destruct ev; cbn; try discriminate. exact IH.
Qed.

Lemma compositor_all_passed_over_witness :
  draw_calls (events (fst (exportPdfWithCustomAnnotations accepting_lib []
                             [free_text "t1" "Sarabun"] ∅))) = [].
Proof.
  refine (proj1 (proj2 (compositor_all_passed_over accepting_lib [] [800%Q]
                          [free_text "t1" "Sarabun"] ∅ eq_refl _))).
  intros anno [<-|[]]. vm_compute; reflexivity.
Defined.

(** *** Pages *)

Lemma draws_on_pages_snoc (n : nat) (evs : list LibEvent) (ev : LibEvent) :
  draws_on_pages n evs ->
  (forall p c, ev = ev_draw p c -> (p < n)%nat) ->
  draws_on_pages n (evs ++ [ev]).
Proof.
  intros H Hev p c Hin. apply in_app_iff in Hin as [Hin|[Heq|[]]].
  - exact (H p c Hin).
  - exact (Hev p c Heq).
Qed.

Section OnPages.
Variable lib : PdfLib.
Variable n : nat.

Let keeps (c : M CompState unit) : Prop :=
  forall st, draws_on_pages n (events st) -> draws_on_pages n (events (fst (c st))).

Lemma keeps_ret : keeps (ret tt).
Proof. intros st H. exact H. Qed.

Lemma keeps_bind (c k : M CompState unit) :
  keeps c -> keeps k -> keeps (bind c (fun _ => k)).
Proof.
  intros Hc Hk st H. unfold bind. specialize (Hc st H).
  destruct (c st) as [st' [[]|e]]; cbn [fst] in *; auto.
Qed.

Lemma keeps_await {A} (r : result A) (k : A -> M CompState unit) :
  (forall a, keeps (k a)) -> keeps (bind (await r) k).
Proof.
  intros Hk st H. unfold bind, await. destruct r as [a|e]; [|exact H].
  apply Hk, H.
Qed.

Lemma keeps_console (level : ConsoleLevel) (msg : string) : keeps (console level msg).
Proof.
  intros st H. unfold console, record, modify. cbn [fst events].
  apply draws_on_pages_snoc; [exact H|]. intros p c [=].
Qed.

Lemma keeps_draw (page : nat) (call : PageCall) :
  (page < n)%nat -> keeps (draw lib page call).
Proof.
  intros Hp st H. unfold draw, bind, record, modify, await. cbn [fst events].
  apply draws_on_pages_snoc; [exact H|]. intros p c [= <- _]. exact Hp.
Qed.

Lemma keeps_for_of {A} (xs : list A) (body : A -> M CompState unit) :
  (forall x, keeps (body x)) -> keeps (for_of xs body).
Proof.
  intros Hb. induction xs as [|x xs IH]; cbn [for_of].
  - apply keeps_ret.
  - apply keeps_bind; [apply Hb|exact IH].
Qed.

Lemma keeps_draw_lines (page : nat) (lines : list string)
    (x currentY size lineHeight : Q) (font : PDFFont) (fill : Color) (op : Q) :
  (page < n)%nat ->
  keeps (draw_lines lib page lines x currentY size lineHeight font fill op).
Proof.
  intros Hp. revert currentY. induction lines as [|l ls IH]; intros currentY;
    cbn [draw_lines].
  - apply keeps_ret.
  - apply keeps_await. intros color.
    apply keeps_bind; [apply keeps_draw, Hp|apply IH].
Qed.

Lemma keeps_draw_free_text (page : nat) (pageHeight : Q)
    (anno : PdfAnnotationObject) (font : PDFFont) :
  (page < n)%nat -> keeps (draw_free_text lib page pageHeight anno font).
Proof.
  intros Hp. unfold draw_free_text.
  destruct (String.eqb _ ""); [apply keeps_ret|].
  apply keeps_bind; [|apply keeps_draw_lines, Hp].
  destruct (backgroundColor anno) as [bg|]; [|apply keeps_ret].
  destruct (_ && _); [|apply keeps_ret].
  apply keeps_await. intros bgColor. apply keeps_draw, Hp.
Qed.

Lemma keeps_draw_segments (page : nat) (anno : PdfAnnotationObject)
    (shape : Q -> Color -> Q -> Rect -> PageCall) :
  (page < n)%nat -> keeps (draw_segments lib page anno shape).
Proof.
  intros Hp. unfold draw_segments.
  destruct (segmentRects anno) as [[|r rs]|]; try apply keeps_ret.
  apply keeps_for_of. intros x.
  apply keeps_await. intros color. apply keeps_draw, Hp.
Qed.

Lemma keeps_process_annotation (fontDataMap : gmap string (list byte))
    (pages : list Q) (anno : PdfAnnotationObject) :
  length pages = n -> keeps (process_annotation lib fontDataMap pages anno).
Proof.
  intros Hn. unfold process_annotation.
  destruct ((pageIndex anno <? 0) || (Z.of_nat (length pages) <=? pageIndex anno))
    eqn:Hpage; [apply keeps_console|].
  apply orb_false_iff in Hpage as [H1 H2].
  assert (Hp : (Z.to_nat (pageIndex anno) < n)%nat) by lia.
  destruct (isFreeTextAnnotation anno).
  - destruct (fontFamily anno) as [[k|ps fullName fam sty]|]; try apply keeps_ret.
    destruct (fontDataMap !! ps) as [fontData|]; [|apply keeps_console].
    intros st H. unfold bind.
    assert (G : draws_on_pages n
                  (events (fst (get_or_embed lib ps fullName fontData st)))).
    { unfold get_or_embed, bind, get.
      destruct (embeddedFonts st !! ps); [exact H|].
      unfold try_catch, bind, record, modify, await, cache_font, modify, ret, console,
        record, modify.
      cbn [fst snd events].
      destruct (embedFont lib fontData); cbn [fst snd events];
        repeat (apply draws_on_pages_snoc; [|intros p c [=]]); exact H. }
    destruct (get_or_embed lib ps fullName fontData st) as [st' [[f|]|e]];
      cbn [fst] in *; try exact G.
    apply keeps_draw_free_text; assumption.
  - destruct (isUnderlineAnnotation anno); [apply keeps_draw_segments, Hp|].
    destruct (isStrikeOutAnnotation anno); [apply keeps_draw_segments, Hp|].
    destruct (isSquigglyAnnotation anno); [apply keeps_draw_segments, Hp|].
    apply keeps_ret.
Qed.
End OnPages.

(** X16.  The compositor never draws outside the document: every drawing
    call of a run is made on a page whose index is below the number of
    pages of the loaded base document, whatever the annotations say. *)
Theorem compositor_draws_on_existing_pages (lib : PdfLib) (basePdfBytes : list byte)
    (annos : list PdfAnnotationObject) (fontDataMap : gmap string (list byte))
    (pages : list Q) :
  PDFDocument_load lib basePdfBytes = Ok pages ->
  forall p c,
    In (p, c) (draw_calls (events (fst (exportPdfWithCustomAnnotations lib
                                          basePdfBytes annos fontDataMap)))) ->
    (p < length pages)%nat.
Proof.
  intros Hload p c Hin.
  unfold exportPdfWithCustomAnnotations, bind, await, get in Hin. rewrite Hload in Hin.
  assert (H : draws_on_pages (length pages)
                (events (fst (for_of annos
                                (process_annotation lib fontDataMap pages)
                                initial_state)))).
  { apply (keeps_for_of (length pages)).
    - intros x. apply keeps_process_annotation. reflexivity.
    - intros p' c' []. }
  destruct (for_of annos (process_annotation lib fontDataMap pages) initial_state)
    as [st [[]|e]]; cbn [fst snd] in *;
    (apply (H p c); unfold draw_calls in Hin; apply in_flat_map in Hin as (ev & Hev & Hpc);
     destruct ev; cbn in Hpc; try destruct Hpc as [[= <- <-]|[]]; try contradiction;
     exact Hev).
Qed.

Lemma compositor_draws_on_existing_pages_witness :
  (0 < length [800%Q])%nat.
Proof.
  apply (compositor_draws_on_existing_pages accepting_lib [] [underline_u1] ∅
           [800%Q] eq_refl 0%nat
           (underline_bar 800 2 (parseHexColor "#FF0000") 1 example_segment)).
  vm_compute. left. reflexivity.
Defined.

(** *** Markup annotations *)

Lemma draw_accepted (lib : PdfLib) (page : nat) (call : PageCall) (st : CompState) :
  accepts_all lib ->
  draw lib page call st
  = ({| events := events st ++ [ev_draw page call];
        embeddedFonts := embeddedFonts st |}, Ok tt).
Proof.
  intros Hacc. unfold draw, bind, record, modify, await. rewrite Hacc. reflexivity.
Qed.





(** X18.  Where the bars sit, when no step of the computation rounds.  If
    the two subtractions that give the bottom edge of the segment
    ([pageHeight - y], then [- height]) have results a double holds
    exactly, the underline bar starts at that bottom edge,
    [pageHeight - (y + height)], and has the segment's width.  If moreover
    the half height, the half stroke width and the two further results
    are held exactly, the strikeout bar has the same width and its middle
    lies on the middle line of the segment. *)
Theorem markup_bars_geometry (pageHeight strokeWidth : Q) (fill : Color) (op : Q)
    (r : Rect)
    (Hsub1 : is_double (pageHeight - pos_y (rect_origin r)) = true)
    (Hsub2 : is_double (pageHeight - pos_y (rect_origin r)
                        - size_height (rect_size r)) = true) :
  (exists y,
     underline_bar pageHeight strokeWidth fill op r
     = drawRectangle (pos_x (rect_origin r)) y (size_width (rect_size r))
         strokeWidth fill op
     /\ (y == pageHeight - (pos_y (rect_origin r) + size_height (rect_size r)))%Q)
  /\ (is_double (size_height (rect_size r) / 2) = true ->
      is_double (pageHeight - pos_y (rect_origin r) - size_height (rect_size r)
                 + size_height (rect_size r) / 2) = true ->
      is_double (strokeWidth / 2) = true ->
      is_double (pageHeight - pos_y (rect_origin r) - size_height (rect_size r)
                 + size_height (rect_size r) / 2 - strokeWidth / 2) = true ->
      exists y,
        strikeout_bar pageHeight strokeWidth fill op r
        = drawRectangle (pos_x (rect_origin r)) y (size_width (rect_size r))
            strokeWidth fill op
        /\ (y + strokeWidth / 2
            == pageHeight - (pos_y (rect_origin r) + size_height (rect_size r) / 2))%Q).
Proof.
  split; [|intros _ _ _ _]; eexists; (split; [reflexivity|]); field.
Qed.

Lemma markup_bars_geometry_witness :
  exists y,
    strikeout_bar 800 2 (parseHexColor "#FF0000") 1 example_segment
    = drawRectangle 10 y 100 2 (parseHexColor "#FF0000") 1
    /\ (y + 2 / 2 == 800 - (20 + 4 / 2))%Q.
Proof.
  apply (proj2 (markup_bars_geometry 800 2 (parseHexColor "#FF0000") 1
                  example_segment eq_refl eq_refl)); reflexivity.
Defined.

(** *** The squiggly wave *)




(** *** Free-text annotations *)

Lemma draw_lines_events (lib : PdfLib) (page : nat) (lines : list string)
    (x currentY size lineHeight : Q) (font : PDFFont) (fill color : Color) (op : Q)
    (st : CompState) :
  accepts_all lib ->
  rgb lib fill = Ok color ->
  draw_lines lib page lines x currentY size lineHeight font fill op st
  = ({| events := events st
                  ++ text_calls page lines x currentY size lineHeight font color op;
        embeddedFonts := embeddedFonts st |}, Ok tt).
Proof.
  intros Hacc Hfill. revert currentY st.
  induction lines as [|l ls IH]; intros currentY st; cbn [draw_lines text_calls].
  - rewrite app_nil_r. destruct st; reflexivity.
  - unfold bind at 1, await at 1. rewrite Hfill. unfold bind at 1.
    rewrite (draw_accepted lib page _ st Hacc), IH.
    cbn [events embeddedFonts]. rewrite <- app_assoc. reflexivity.
Qed.

Lemma draw_free_text_events (lib : PdfLib) (page : nat) (pageHeight : Q)
    (anno : PdfAnnotationObject) (font : PDFFont) (fill : Color) (st : CompState) :
  accepts_all lib ->
  or_string (contents anno) "" <> "" ->
  rgb lib (parseHexColor (or_string (fontColor anno) "#000000")) = Ok fill ->
  (forall bg, backgroundColor anno = Some bg -> has_background anno = true ->
              rgb lib (parseHexColor bg) = Ok (parseHexColor bg)) ->
  draw_free_text lib page pageHeight anno font st
  = ({| events :=
          events st
          ++ background_calls page pageHeight anno
          ++ text_calls page (split_lines (or_string (contents anno) ""))
               (pos_x (rect_origin (rect anno)))
               (pageHeight - pos_y (rect_origin (rect anno))
                - size_height (rect_size (rect anno))
                + size_height (rect_size (rect anno)) - fontSize anno)%Q
               (fontSize anno) (fontSize anno * (12 # 10))%Q font fill
               (nullish_one (opacity anno));
        embeddedFonts := embeddedFonts st |}, Ok tt).
Proof.
  intros Hacc Htext Hfill Hbg. unfold draw_free_text, background_calls.
  destruct (String.eqb (or_string (contents anno) "") "") eqn:E.
  { apply String.eqb_eq in E. contradiction. }
  unfold has_background in Hbg. unfold bind at 1.
  destruct (backgroundColor anno) as [bg|].
  - destruct (negb (String.eqb bg "") && negb (String.eqb bg "transparent")).
    + unfold bind at 1, await at 1. rewrite (Hbg bg eq_refl eq_refl).
      rewrite (draw_accepted lib page _ st Hacc).
      rewrite (draw_lines_events lib page _ _ _ _ _ _ _ fill _ _ Hacc Hfill).
      cbn [events embeddedFonts]. rewrite <- app_assoc. reflexivity.
    + unfold ret.
      rewrite (draw_lines_events lib page _ _ _ _ _ _ _ fill _ _ Hacc Hfill).
      reflexivity.
  - unfold ret.
    rewrite (draw_lines_events lib page _ _ _ _ _ _ _ fill _ _ Hacc Hfill).
    reflexivity.
Qed.

Lemma text_calls_nth (page : nat) (lines : list string)
    (x currentY size lineHeight : Q) (font : PDFFont) (fill : Color) (op : Q)
    (k : nat) (line : string) :
  nth_error lines k = Some line ->
  exists tx ty,
    nth_error (text_calls page lines x currentY size lineHeight font fill op) k
    = Some (ev_draw page (drawText line tx ty size font fill op)).
Proof.
  revert currentY k. induction lines as [|l ls IH]; intros currentY [|k] H;
    cbn in H; try discriminate.
  - injection H as <-. cbn. eauto.
  - cbn [text_calls nth_error]. apply IH. exact H.
Qed.

Lemma text_calls_length (page : nat) (lines : list string)
    (x currentY size lineHeight : Q) (font : PDFFont) (fill : Color) (op : Q) :
  length (text_calls page lines x currentY size lineHeight font fill op) = length lines.
Proof.
  revert currentY. induction lines as [|l ls IH]; intros currentY; cbn; [reflexivity|].
  rewrite IH. reflexivity.
Qed.

Lemma get_or_embed_fresh (lib : PdfLib) (ps fullName : string) (fontData : list byte)
    (font : PDFFont) (st : CompState) :
  embeddedFonts st !! ps = None ->
  embedFont lib fontData = Ok font ->
  get_or_embed lib ps fullName fontData st
  = ({| events := events st ++ [ev_embedFont ps fontData];
        embeddedFonts := <[ps := font]> (embeddedFonts st) |}, Ok (Some font)).
Proof.
  intros Hfresh Hembed. unfold get_or_embed, bind at 1, get. rewrite Hfresh.
  unfold try_catch, bind, record, modify, await, cache_font, ret.
  rewrite Hembed. reflexivity.
Qed.

(** X20.  What a free-text annotation puts on its page.  For a record on a
    page of the document, set in a custom font whose binary is in the map,
    not yet cached and accepted by the library, with some text and with
    colours the library's [rgb] accepts: the font is embedded once and
    cached under its postscript name; then comes the background, one
    rectangle of the width and height of the box when a background other
    than ['transparent'] is set and nothing otherwise; then one [drawText]
    call per line of the text, in the order of the lines, each with the
    text of its line, the embedded font, the font size, the font colour
    and the opacity of the record.  The overlay library is taken to accept
    the drawing calls. *)
Theorem free_text_layout (lib : PdfLib) (fontDataMap : gmap string (list byte))
    (pages : list Q) (anno : PdfAnnotationObject) (st : CompState)
    (ps fullName family style : string) (fontData : list byte) (font : PDFFont)
    (fill : Color)
    (Hacc : accepts_all lib)
    (Hpage : 0 <= pageIndex anno < Z.of_nat (length pages))
    (Htype : anno_type anno = FREETEXT)
    (Hfont : fontFamily anno = Some (CustomFontRef ps fullName family style))
    (Hdata : fontDataMap !! ps = Some fontData)
    (Hfresh : embeddedFonts st !! ps = None)
    (Hembed : embedFont lib fontData = Ok font)
    (Htext : or_string (contents anno) "" <> "")
    (Hfill : rgb lib (parseHexColor (or_string (fontColor anno) "#000000")) = Ok fill)
    (Hbg : forall bg, backgroundColor anno = Some bg -> has_background anno = true ->
                      rgb lib (parseHexColor bg) = Ok (parseHexColor bg)) :
  let page := Z.to_nat (pageIndex anno) in
  let lines := split_lines (or_string (contents anno) "") in
  let r := process_annotation lib fontDataMap pages anno st in
  snd r = Ok tt
  /\ embeddedFonts (fst r) = <[ps := font]> (embeddedFonts st)
  /\ exists background texts,
       events (fst r)
       = (events st ++ [ev_embedFont ps fontData] ++ background ++ texts)%list
       /\ length background = (if has_background anno then 1%nat else 0%nat)
       /\ (forall ev, In ev background ->
             exists bg y,
               backgroundColor anno = Some bg
               /\ ev = ev_draw page
                         (drawRectangle (pos_x (rect_origin (rect anno))) y
                            (size_width (rect_size (rect anno)))
                            (size_height (rect_size (rect anno)))
                            (parseHexColor bg) (nullish_one (opacity anno))))
       /\ length texts = length lines
       /\ forall k line, nth_error lines k = Some line ->
            exists x y,
              nth_error texts k
              = Some (ev_draw page
                        (drawText line x y (fontSize anno) font fill
                           (nullish_one (opacity anno)))).
Proof.
  intros page lines r.
  assert (Hr : r = (fst (draw_free_text lib page (nth page pages 0%Q) anno font
                           {| events := events st ++ [ev_embedFont ps fontData];
                              embeddedFonts := <[ps := font]> (embeddedFonts st) |}),
                    Ok tt)).
  { subst r. unfold process_annotation.
    replace ((pageIndex anno <? 0) || (Z.of_nat (length pages) <=? pageIndex anno))
      with false by (symmetry; apply orb_false_iff; split; lia).
    unfold isFreeTextAnnotation. rewrite Htype. cbn [subtype_eqb].
    rewrite Hfont, Hdata. unfold bind.
    rewrite (get_or_embed_fresh lib ps fullName fontData font st Hfresh Hembed).
    fold page.
    rewrite (draw_free_text_events lib _ _ anno font fill _ Hacc Htext Hfill Hbg).
    reflexivity. }
  rewrite Hr. clear Hr r.
  rewrite (draw_free_text_events lib _ _ anno font fill _ Hacc Htext Hfill Hbg).
  cbn [fst snd events embeddedFonts].
  split; [reflexivity|]. split; [reflexivity|].
  eexists. eexists. split.
  { rewrite <- app_assoc. reflexivity. }
  split; [|split; [|split]].
  - unfold background_calls, has_background.
    destruct (backgroundColor anno) as [bg|]; [|reflexivity].
    destruct (_ && _); reflexivity.
  - unfold background_calls. intros ev Hev.
    destruct (backgroundColor anno) as [bg|]; [|destruct Hev].
    destruct (_ && _); [|destruct Hev].
    destruct Hev as [<-|[]]. eauto.
  - apply text_calls_length.
  - intros k line Hk. apply text_calls_nth. exact Hk.
Qed.

Lemma free_text_layout_witness :
  exists background texts,
    events (fst (process_annotation accepting_lib
                   {["Sarabun" := [x00; x01]]} [800%Q] two_line_note initial_state))
    = ([] ++ [ev_embedFont "Sarabun" [x00; x01]] ++ background ++ texts)%list
    /\ length background = 1%nat
    /\ length texts = 2%nat.
Proof.
  destruct (free_text_layout accepting_lib {["Sarabun" := [x00; x01]]} [800%Q]
              two_line_note initial_state "Sarabun" "Sarabun Regular" "Sarabun"
              "Regular" [x00; x01] (EmbeddedFont [x00; x01]) (parseHexColor "#112233"))
    as (_ & _ & background & texts & Hev & Hb & _ & Hlen & _).
  - intros p c. reflexivity.
  - cbn. lia.
  - reflexivity.
  - reflexivity.
  - vm_compute. reflexivity.
  - vm_compute. reflexivity.
  - reflexivity.
  - vm_compute. discriminate.
  - reflexivity.
  - intros bg [= <-] _. reflexivity.
  - exists background, texts. split; [exact Hev|]. split; [exact Hb|exact Hlen].
Defined.

(** X21.  A free-text record without text still costs an embedding.  When
    the contents are missing or empty the font is looked up and embedded
    before the text is looked at: the only call that reaches the document
    is the [embedFont] of the binary, which is cached, and nothing is
    drawn, not even the background that is set. *)
Theorem free_text_without_text_embeds (lib : PdfLib)
    (fontDataMap : gmap string (list byte)) (pages : list Q)
    (anno : PdfAnnotationObject) (st : CompState)
    (ps fullName family style : string) (fontData : list byte) (font : PDFFont)
    (Hpage : 0 <= pageIndex anno < Z.of_nat (length pages))
    (Htype : anno_type anno = FREETEXT)
    (Hfont : fontFamily anno = Some (CustomFontRef ps fullName family style))
    (Hdata : fontDataMap !! ps = Some fontData)
    (Hfresh : embeddedFonts st !! ps = None)
    (Hembed : embedFont lib fontData = Ok font)
    (Htext : or_string (contents anno) "" = "") :
  let r := process_annotation lib fontDataMap pages anno st in
  snd r = Ok tt
  /\ events (fst r) = (events st ++ [ev_embedFont ps fontData])%list
  /\ embeddedFonts (fst r) = <[ps := font]> (embeddedFonts st).
Proof.
  intros r.
  assert (Hr : r = ({| events := events st ++ [ev_embedFont ps fontData];
                       embeddedFonts := <[ps := font]> (embeddedFonts st) |}, Ok tt)).
  { subst r. unfold process_annotation.
    replace ((pageIndex anno <? 0) || (Z.of_nat (length pages) <=? pageIndex anno))
      with false by (symmetry; apply orb_false_iff; split; lia).
    unfold isFreeTextAnnotation. rewrite Htype. cbn [subtype_eqb].
    rewrite Hfont, Hdata. unfold bind.
    rewrite (get_or_embed_fresh lib ps fullName fontData font st Hfresh Hembed).
    unfold draw_free_text. rewrite Htext. reflexivity. }
  rewrite Hr. cbn. auto.
Qed.

Lemma free_text_without_text_embeds_witness :
  events (fst (process_annotation accepting_lib {["Sarabun" := [x00; x01]]}
                 [800%Q] empty_note initial_state))
  = [ev_embedFont "Sarabun" [x00; x01]].
Proof.
  refine (proj1 (proj2 (free_text_without_text_embeds accepting_lib
                          {["Sarabun" := [x00; x01]]} [800%Q] empty_note
                          initial_state "Sarabun" "Sarabun Regular" "Sarabun"
                          "Regular" [x00; x01] (EmbeddedFont [x00; x01])
                          _ eq_refl eq_refl _ _ eq_refl eq_refl))).
  - cbn. lia.
  - vm_compute. reflexivity.
  - vm_compute. reflexivity.
Defined.

(** *** The two compositors *)

Lemma for_of_ext {S A} (xs : list A) (f g : A -> M S unit) :
  (forall x st, In x xs -> f x st = g x st) ->
  forall st, for_of xs f st = for_of xs g st.
Proof.
  induction xs as [|x xs IH]; intros H st; cbn [for_of]; [reflexivity|].
  unfold bind. rewrite (H x st (or_introl eq_refl)).
  destruct (g x st) as [st' [[]|e]]; [|reflexivity].
  apply IH. intros y st'' Hy. apply H. right. exact Hy.
Qed.

Lemma process_free_text_on_page (lib : PdfLib) (fontDataMap : gmap string (list byte))
    (pages : list Q) (anno : PdfAnnotationObject) (st : CompState) :
  anno_type anno = FREETEXT ->
  0 <= pageIndex anno < Z.of_nat (length pages) ->
  process_free_text lib fontDataMap pages anno st
  = process_annotation lib fontDataMap pages anno st.
Proof.
  intros Htype Hpage. unfold process_free_text, process_annotation.
  replace ((pageIndex anno <? 0) || (Z.of_nat (length pages) <=? pageIndex anno))
    with false by (symmetry; apply orb_false_iff; split; lia).
  unfold isFreeTextAnnotation. rewrite Htype. cbn [subtype_eqb negb].
  reflexivity.
Qed.

(** X22.  The earlier compositor, [exportPdfWithCustomFonts], and
    [exportPdfWithCustomAnnotations] are the same function on free-text
    records that lie on pages of the document: the same calls in the same
    order, the same cache and the same settlement, whatever the overlay
    library does. *)
Theorem compositors_agree_on_free_text (lib : PdfLib) (basePdfBytes : list byte)
    (annotations : list PdfAnnotationObject) (fontDataMap : gmap string (list byte))
    (Hall : forall pages anno,
        PDFDocument_load lib basePdfBytes = Ok pages ->
        In anno annotations ->
        anno_type anno = FREETEXT
        /\ 0 <= pageIndex anno < Z.of_nat (length pages)) :
  exportPdfWithCustomFonts lib basePdfBytes annotations fontDataMap
  = exportPdfWithCustomAnnotations lib basePdfBytes annotations fontDataMap.
Proof.
  unfold exportPdfWithCustomFonts, exportPdfWithCustomAnnotations.
  unfold bind at 1 5, await at 1 3.
  destruct (PDFDocument_load lib basePdfBytes) as [pages|e] eqn:Hload; [|reflexivity].
  unfold bind at 1 3.
  rewrite (for_of_ext annotations (process_free_text lib fontDataMap pages)
             (process_annotation lib fontDataMap pages)).
  - reflexivity.
  - intros a st Ha. destruct (Hall pages a eq_refl Ha) as [Ht Hp].
    apply process_free_text_on_page; assumption.
Qed.

Lemma compositors_agree_on_free_text_witness :
  exportPdfWithCustomFonts accepting_lib [] [two_line_note; empty_note]
    {["Sarabun" := [x00; x01]]}
  = exportPdfWithCustomAnnotations accepting_lib [] [two_line_note; empty_note]
      {["Sarabun" := [x00; x01]]}.
Proof.
  apply compositors_agree_on_free_text.
  intros pages anno Hload Hin. injection Hload as <-.
  destruct Hin as [<-|[<-|[]]]; (split; [reflexivity|cbn; lia]).
Defined.

(** X23.  Where they differ: the earlier compositor embeds the font before
    it looks at the page index.  For a free-text record in a custom font
    whose binary is in the map and embeds, on a page the document does not
    have, [exportPdfWithCustomFonts] calls [embedFont], caches the handle
    and then warns, while [exportPdfWithCustomAnnotations] only warns; the
    warning of both is ['Invalid page index: '] followed by the page index
    (an integer a double holds, printed in decimal). *)
Theorem earlier_compositor_embeds_off_page (lib : PdfLib)
    (fontDataMap : gmap string (list byte)) (pages : list Q)
    (anno : PdfAnnotationObject) (st : CompState)
    (ps fullName family style : string) (fontData : list byte) (font : PDFFont)
    (Hpage : pageIndex anno < 0 \/ Z.of_nat (length pages) <= pageIndex anno)
    (Hsafe : Z.abs (pageIndex anno) <= 9007199254740991)
    (Htype : anno_type anno = FREETEXT)
    (Hfont : fontFamily anno = Some (CustomFontRef ps fullName family style))
    (Hdata : fontDataMap !! ps = Some fontData)
    (Hfresh : embeddedFonts st !! ps = None)
    (Hembed : embedFont lib fontData = Ok font) :
  let warning :=
    ev_console console_warn
      ("Invalid page index: " +:+ integer_to_string (pageIndex anno)) in
  process_free_text lib fontDataMap pages anno st
  = ({| events := events st ++ [ev_embedFont ps fontData; warning];
        embeddedFonts := <[ps := font]> (embeddedFonts st) |}, Ok tt)
  /\ process_annotation lib fontDataMap pages anno st
     = ({| events := events st ++ [warning];
           embeddedFonts := embeddedFonts st |}, Ok tt).
Proof.
  intros warning. subst warning.
  assert (Hc : (pageIndex anno <? 0) || (Z.of_nat (length pages) <=? pageIndex anno)
               = true).
  { apply orb_true_iff. destruct Hpage; [left|right]; lia. }
  split.
  - unfold process_free_text, isFreeTextAnnotation. rewrite Htype. cbn [subtype_eqb negb].
    rewrite Hfont, Hdata, Hc. unfold bind.
    rewrite (get_or_embed_fresh lib ps fullName fontData font st Hfresh Hembed).
    unfold console, record, modify. cbn [events embeddedFonts fst snd].
    rewrite <- app_assoc. reflexivity.
  - unfold process_annotation. rewrite Hc. reflexivity.
Qed.

Lemma earlier_compositor_embeds_off_page_witness :
  events (fst (process_free_text accepting_lib {["Sarabun" := [x00; x01]]}
                 [800%Q] off_page_note initial_state))
  = [ev_embedFont "Sarabun" [x00; x01];
     ev_console console_warn "Invalid page index: 7"]
  /\ events (fst (process_annotation accepting_lib {["Sarabun" := [x00; x01]]}
                    [800%Q] off_page_note initial_state))
     = [ev_console console_warn "Invalid page index: 7"].
Proof.
  destruct (earlier_compositor_embeds_off_page accepting_lib
              {["Sarabun" := [x00; x01]]} [800%Q] off_page_note initial_state
              "Sarabun" "Sarabun Regular" "Sarabun" "Regular" [x00; x01]
              (EmbeddedFont [x00; x01])) as [H1 H2].
  - right. cbn. lia.
  - cbn. lia.
  - reflexivity.
  - reflexivity.
  - vm_compute. reflexivity.
  - vm_compute. reflexivity.
  - reflexivity.
  - rewrite H1, H2. split; reflexivity.
Defined.

(** *** The export handler on every path *)

Lemma deleted_with_self (l : list PdfAnnotationObject) (a : PdfAnnotationObject) :
  In a l -> deleted_with l a = true.
Proof.
  intros Hin. unfold deleted_with. apply existsb_exists. exists a. split; [exact Hin|].
  rewrite Z.eqb_refl, String.eqb_refl. reflexivity.
Qed.

Lemma downloads_of_imports (l : list PdfAnnotationObject) :
  downloads (List.map eff_importAnnotations l) = [].
Proof. unfold downloads. induction l as [|a l IH]; cbn in *; congruence. Qed.

Lemma deleted_by_of_imports (l : list PdfAnnotationObject) :
  deleted_by (List.map eff_importAnnotations l) = [].
Proof. unfold deleted_by. induction l as [|a l IH]; cbn in *; congruence. Qed.

(** X24.  The handler settles on every path.  Whatever the selection, the
    compositor, the environment and the state it starts from, the promise
    of [handleExport] is fulfilled; with both capabilities the exporting
    flag is off when it settles; without one of them the only thing it
    does is one [console.error], and the flag and the live annotations are
    not touched. *)
Theorem handleExport_always_settles (select : PdfAnnotationObject -> bool)
    (compose : Compositor) (env : Env) (w : World) :
  let r := handleExport_with select compose env w in
  snd r = Ok tt
  /\ (if exportCapability env && annotationCapability env
      then isExporting (fst r) = false
      else fst r
           = {| annotations := annotations w; isExporting := isExporting w;
                effects := effects w
                           ++ [eff_console_error
                                 "Export or annotation capability not available" None] |}).
Proof.
  intros r. subst r.
  destruct (exportCapability env && annotationCapability env) eqn:Hcap.
  - apply andb_true_iff in Hcap as [Hexp Hann].
    destruct (List.filter select (tracked_objects (annotations w))) as [|a l] eqn:Hc.
    + rewrite (handler_nothing_selected select compose env w Hexp Hann Hc).
      destruct (saveAsCopy env (annotations w)); split; reflexivity.
    + assert (Hne : List.filter select (tracked_objects (annotations w)) <> [])
        by (rewrite Hc; discriminate).
      destruct (saveAsCopy env
                  (after_removal (List.filter select (tracked_objects (annotations w)))
                     (annotations w))) as [base|e] eqn:Hs.
      * destruct (snd (compose (pdflib env) base
                         (List.filter select (tracked_objects (annotations w)))
                         (fontDataStore_getAll (fontDataStore env))))
          as [final|e] eqn:Hk.
        -- rewrite (handler_succeeds select compose env w Hexp Hann base final Hne Hs Hk).
           split; reflexivity.
        -- rewrite (handler_compositing_fails select compose env w Hexp Hann base e
                      Hne Hs Hk).
           split; reflexivity.
      * rewrite (handler_base_export_fails select compose env w Hexp Hann e Hne Hs).
        split; reflexivity.
  - unfold handleExport_with. rewrite Hcap. cbn [negb].
    split; reflexivity.
Qed.

(** X25.  A failed export drops the whole selection.  When something is
    selected and the base export or the compositor throws, the live state
    the handler leaves holds exactly the tracked records that share page
    and id with no selected record: no selected record is left, every
    record apart from those is still there, and nothing is downloaded. *)
Theorem handleExport_failure_drops_selection (select : PdfAnnotationObject -> bool)
    (compose : Compositor) (env : Env) (w : World)
    (Hexp : exportCapability env = true)
    (Hann : annotationCapability env = true)
    (Hsel : selected_by select w <> [])
    (Hfail : (exists e, saveAsCopy env (after_removal (selected_by select w)
                                          (annotations w)) = Throw e)
             \/ (exists base e,
                    saveAsCopy env (after_removal (selected_by select w)
                                      (annotations w)) = Ok base
                    /\ snd (compose (pdflib env) base (selected_by select w)
                              (fontDataStore_getAll (fontDataStore env))) = Throw e)) :
  let w' := fst (handleExport_with select compose env w) in
  (forall b, In b (tracked_objects (annotations w'))
             <-> In b (tracked_objects (annotations w))
                 /\ deleted_with (selected_by select w) b = false)
  /\ (forall a, In a (selected_by select w)
                -> ~ In a (tracked_objects (annotations w')))
  /\ downloads (effects w') = downloads (effects w).
Proof.
  intros w'.
  assert (Hw : annotations w' = after_removal (selected_by select w) (annotations w)
               /\ downloads (effects w') = downloads (effects w)).
  { subst w'. unfold selected_by in *.
    destruct Hfail as [[e Hs]|(base & e & Hs & Hk)].
    - rewrite (handler_base_export_fails select compose env w Hexp Hann e Hsel Hs).
      cbn [fst annotations effects]. split; [reflexivity|].
      rewrite !downloads_app, downloads_of_deletes. cbn. apply app_nil_r.
    - rewrite (handler_compositing_fails select compose env w Hexp Hann base e
                 Hsel Hs Hk).
      cbn [fst annotations effects]. split; [reflexivity|].
      rewrite !downloads_app, downloads_of_deletes. cbn. apply app_nil_r. }
  destruct Hw as [Hw Hd]. rewrite Hw. split; [|split].
  - intros b. apply after_removal_In.
  - intros a Ha Hin. apply after_removal_In in Hin as [_ Hin].
    rewrite (deleted_with_self _ a Ha) in Hin. discriminate.
  - exact Hd.
Qed.

Lemma handleExport_failure_drops_selection_witness :
  ~ In underline_u1
      (tracked_objects
         (annotations (fst (handleExport_with isCustomRenderAnnotation
                              exportPdfWithCustomAnnotations env_base_export_fails
                              world_u1)))).
Proof.
  refine (proj1 (proj2 (handleExport_failure_drops_selection isCustomRenderAnnotation
                          exportPdfWithCustomAnnotations env_base_export_fails world_u1
                          eq_refl eq_refl _ _)) underline_u1 _).
  - vm_compute. discriminate.
  - left. exists (Error "saveAsCopy failed"). reflexivity.
  - vm_compute. left. reflexivity.
Defined.

(** X26.  A successful export leaves the ids alone and downloads the
    composed bytes.  When something is selected and both the base export
    and the compositor resolve, the ids the primary engine holds after the
    call are those it held before, and the one download is of the bytes
    the compositor resolved with. *)
Theorem handleExport_success_restores_ids (select : PdfAnnotationObject -> bool)
    (compose : Compositor) (env : Env) (w : World) (base final : list byte)
    (Hexp : exportCapability env = true)
    (Hann : annotationCapability env = true)
    (Hsel : selected_by select w <> [])
    (Hbase : saveAsCopy env (after_removal (selected_by select w) (annotations w))
             = Ok base)
    (Hfinal : snd (compose (pdflib env) base (selected_by select w)
                     (fontDataStore_getAll (fontDataStore env))) = Ok final) :
  let w' := fst (handleExport_with select compose env w) in
  annotation_ids (annotations w') = annotation_ids (annotations w)
  /\ downloads (effects w') = (downloads (effects w) ++ [final])%list
  /\ deleted_by (effects w')
     = (deleted_by (effects w)
        ++ List.map (fun a => (pageIndex a, anno_id a)) (selected_by select w))%list.
Proof.
  intros w'. subst w'. unfold selected_by in *.
  rewrite (handler_succeeds select compose env w Hexp Hann base final Hsel Hbase Hfinal).
  cbn [fst annotations effects]. split; [|split].
  - apply (remove_then_reimport_ids select).
  - rewrite !downloads_app, downloads_of_deletes, downloads_of_imports. reflexivity.
  - rewrite !deleted_by_app, deleted_by_of_deletes. cbn.
    rewrite deleted_by_of_imports. cbn. rewrite app_nil_r. reflexivity.
Qed.

Lemma handleExport_success_restores_ids_witness :
  annotation_ids (annotations (fst (handleExport_with isCustomRenderAnnotation
                                      exportPdfWithCustomAnnotations env_plain world_u1)))
  = annotation_ids (annotations world_u1).
Proof.
  refine (proj1 (handleExport_success_restores_ids isCustomRenderAnnotation
                   exportPdfWithCustomAnnotations env_plain world_u1
                   [x25; x50; x44; x46] [x25; x50; x44; x46] eq_refl eq_refl _ _ _)).
  - vm_compute. discriminate.
  - reflexivity.
  - vm_compute. reflexivity.
Defined.
